(** * devservices: a shallow embedding of
      src/sentry/runner/commands/devservices.py

    The command-line tool drives a container engine through its Python
    client.  The embedding keeps three things explicit:

    - the Python heap: dictionaries are mutable objects with an identity, so
      that a shallow [dict.copy()] shares its nested dictionaries with the
      original;
    - the engine: networks, volumes, images and containers, addressed by name;
    - the sequence of engine calls a command issues.

    Exceptions are results; the state reached when an exception is raised is
    kept.  Progress messages ([click.secho], [click.echo]) are not part of the
    model, the evaluation of their arguments is kept where it can raise.
    [dict.items()] and [dict.keys()] return lists, as on the Python 2.7
    interpreter this revision runs on ([six], [__future__] imports). *)

From Stdlib Require Import ZArith String List Bool Lia Ascii.
From stdpp Require Import base list.
Import ListNotations.
Open Scope string_scope.
Open Scope list_scope.
Set Warnings "-register-all".

(** ** Strings *)

(** [s.startswith(p)] *)
Fixpoint startswith (s p : string) {struct p} : bool :=
  match p with
  | EmptyString => true
  | String a p' =>
      match s with
      | EmptyString => false
      | String b s' => Ascii.eqb a b && startswith s' p'
      end
  end.

(** [s[n:]] *)
Fixpoint str_drop (n : nat) (s : string) : string :=
  match n, s with
  | O, _ => s
  | S _, EmptyString => EmptyString
  | S n', String _ s' => str_drop n' s'
  end.

(** [sub in s] on strings *)
Fixpoint str_contains (sub s : string) : bool :=
  startswith s sub
  || match s with
     | EmptyString => false
     | String _ s' => str_contains sub s'
     end.

(** [s.split(",")] *)
Fixpoint split_comma_go (cur : string) (s : string) : list string :=
  match s with
  | EmptyString => [cur]
  | String c s' =>
      if Ascii.eqb c ","%char then cur :: split_comma_go "" s'
      else split_comma_go (cur ++ String c "")%string s'
  end.

Definition split_comma (s : string) : list string := split_comma_go "" s.

(** [x in xs] for a tuple or set of strings *)
Definition str_in (x : string) (xs : list string) : bool :=
  existsb (String.eqb x) xs.

(** ** Python values and dictionaries *)

(** Addresses of the heap. *)
Abbreviation ref := nat.

Inductive pykey :=
| KStr (s : string)
| KInt (z : Z).

(** [VFun b] is a callable; [b] is the truth value of what it returns when it
    is called on the ambient settings, which do not change during a command.
    [VRef r] is a dictionary, the object at address [r] of the heap. *)
Inductive pyval :=
| VNone
| VBool (b : bool)
| VInt (z : Z)
| VStr (s : string)
| VTuple (l : list pyval)
| VList (l : list pyval)
| VFun (b : bool)
| VRef (r : ref).

Abbreviation pydict := (list (pykey * pyval)).

Definition key_eqb (a b : pykey) : bool :=
  match a, b with
  | KStr x, KStr y => String.eqb x y
  | KInt x, KInt y => Z.eqb x y
  | _, _ => false
  end.

Fixpoint dict_get (k : pykey) (d : pydict) : option pyval :=
  match d with
  | [] => None
  | (k', v) :: d' => if key_eqb k k' then Some v else dict_get k d'
  end.

(** [d[k] = v]: an existing key keeps its place, a new one goes last. *)
Fixpoint dict_set (k : pykey) (v : pyval) (d : pydict) : pydict :=
  match d with
  | [] => [(k, v)]
  | (k', v') :: d' =>
      if key_eqb k k' then (k', v) :: d' else (k', v') :: dict_set k v d'
  end.

Fixpoint dict_del (k : pykey) (d : pydict) : pydict :=
  match d with
  | [] => []
  | (k', v') :: d' =>
      if key_eqb k k' then dict_del k d' else (k', v') :: dict_del k d'
  end.

Definition dict_keys (d : pydict) : list pykey := map fst d.

(** ** The container engine *)

Record container := Container {
  cname : string;
  cimage : string;
  cports : pydict;
  crunning : bool
}.

Record docker := Docker {
  reachable : bool;
  networks : list string;
  volumes : list string;
  images : list string;
  conts : list container
}.

(** The calls of the engine's API the tool issues. *)
Inductive call :=
| Ping
| NetworksGet (n : string)
| NetworksCreate (n : string)
| NetworkRemove (n : string)
| VolumesGet (n : string)
| VolumesCreate (n : string)
| VolumesList
| VolumeRemove (n : string)
| ImagesGet (i : string)
| ImagesPull (i : string)
| ContainersList
| ContainersGet (n : string)
| ContainersCreate (n : string)
| ContainerStart (n : string)
| ContainerStop (n : string)
| ContainerRemove (n : string).

Definition has_container (n : string) (e : docker) : bool :=
  existsb (fun c => String.eqb (cname c) n) (conts e).

Definition find_container (n : string) (e : docker) : option container :=
  find (fun c => String.eqb (cname c) n) (conts e).

Definition set_running (n : string) (b : bool) (c : container) : container :=
  if String.eqb (cname c) n
  then Container (cname c) (cimage c) (cports c) b
  else c.

Definition with_networks (e : docker) (l : list string) : docker :=
  Docker (reachable e) l (volumes e) (images e) (conts e).
Definition with_volumes (e : docker) (l : list string) : docker :=
  Docker (reachable e) (networks e) l (images e) (conts e).
Definition with_images (e : docker) (l : list string) : docker :=
  Docker (reachable e) (networks e) (volumes e) l (conts e).
Definition with_conts (e : docker) (l : list container) : docker :=
  Docker (reachable e) (networks e) (volumes e) (images e) l.

(** ** Exceptions, worlds and the command monad *)

Inductive exn :=
| ClickException (msg : string)
| Abort
| KeyError (k : pykey)
| TypeError
| AttributeError
| FormatError
| NotFound
| APIError.

Inductive result (A : Type) :=
| Ok (a : A)
| Raise (e : exn).
Arguments Ok {A} a.
Arguments Raise {A} e.

Record world := World {
  heap : list pydict;
  engine : docker
}.

(** A command maps a world to its outcome, the world it leaves and the engine
    calls it issued, oldest first. *)
Definition M (A : Type) : Type := world -> result A * world * list call.

Definition ret {A} (a : A) : M A := fun w => (Ok a, w, []).

Definition raise {A} (e : exn) : M A := fun w => (Raise e, w, []).

Definition bind {A B} (m : M A) (f : A -> M B) : M B := fun w =>
  match m w with
  | (Ok a, w1, l1) =>
      match f a w1 with
      | (r, w2, l2) => (r, w2, l1 ++ l2)
      end
  | (Raise e, w1, l1) => (Raise e, w1, l1)
  end.

Notation "'let!' x ':=' m 'in' k" := (bind m (fun x => k))
  (at level 10, x pattern, k at level 200, only parsing).

(** [try: m except E: h], for the exceptions [E] that [catches] accepts. *)
Definition try_except {A} (m : M A) (catches : exn -> bool) (h : M A) : M A :=
  fun w =>
    match m w with
    | (Raise e, w1, l1) =>
        if catches e then
          match h w1 with
          | (r, w2, l2) => (r, w2, l1 ++ l2)
          end
        else (Raise e, w1, l1)
    | out => out
    end.

Definition is_NotFound (e : exn) : bool :=
  match e with NotFound => true | _ => false end.

Definition any_exn (e : exn) : bool := true.

(** [for x in xs: body(x)], for a body without [break]. *)
Fixpoint for_each {A} (xs : list A) (body : A -> M unit) : M unit :=
  match xs with
  | [] => ret tt
  | x :: xs' => let! _ := body x in for_each xs' body
  end.

Definition log (c : call) : M unit := fun w => (Ok tt, w, [c]).

Definition get_engine : M docker := fun w => (Ok (engine w), w, []).
Definition put_engine (e : docker) : M unit :=
  fun w => (Ok tt, World (heap w) e, []).

(** *** Heap primitives *)

Definition alloc (d : pydict) : M pyval := fun w =>
  (Ok (VRef (length (heap w))), World (heap w ++ [d]) (engine w), []).

(** The dictionary behind a value; only dictionaries have the methods and the
    subscripts the tool uses on its option values. *)
Definition load (v : pyval) : M pydict := fun w =>
  match v with
  | VRef r =>
      match heap w !! r with
      | Some d => (Ok d, w, [])
      | None => (Raise TypeError, w, [])
      end
  | _ => (Raise TypeError, w, [])
  end.

Definition store (v : pyval) (d : pydict) : M unit := fun w =>
  match v with
  | VRef r => (Ok tt, World (<[r := d]> (heap w)) (engine w), [])
  | _ => (Raise TypeError, w, [])
  end.

(** [v[k]] *)
Definition getitem (v : pyval) (k : pykey) : M pyval :=
  let! d := load v in
  match dict_get k d with
  | Some x => ret x
  | None => raise (KeyError k)
  end.

(** [v[k] = x] *)
Definition setitem (v : pyval) (k : pykey) (x : pyval) : M unit :=
  let! d := load v in
  store v (dict_set k x d).

(** [v.pop(k, dflt)] *)
Definition pop_default (v : pyval) (k : pykey) (dflt : pyval) : M pyval :=
  let! d := load v in
  match dict_get k d with
  | Some x => let! _ := store v (dict_del k d) in ret x
  | None => ret dflt
  end.

(** [v.pop(k)] *)
Definition pop (v : pyval) (k : pykey) : M pyval :=
  let! d := load v in
  match dict_get k d with
  | Some x => let! _ := store v (dict_del k d) in ret x
  | None => raise (KeyError k)
  end.

(** [v.setdefault(k, {})], [v.setdefault(k, x)]: the default is built only
    when it is stored. *)
Definition setdefault (v : pyval) (k : pykey) (dflt : M pyval) : M unit :=
  let! d := load v in
  match dict_get k d with
  | Some _ => ret tt
  | None => let! x := dflt in setitem v k x
  end.

(** [v.items()], [v.keys()], [v.copy()], [k in v] *)
Definition items (v : pyval) : M (list (pykey * pyval)) := load v.
Definition keys (v : pyval) : M (list pykey) :=
  let! d := load v in ret (dict_keys d).
Definition copy (v : pyval) : M pyval :=
  let! d := load v in alloc d.
Definition contains (v : pyval) (k : pykey) : M bool :=
  let! d := load v in
  ret (match dict_get k d with Some _ => true | None => false end).

(** Truth value of an object. *)
Definition truthy (h : list pydict) (v : pyval) : bool :=
  match v with
  | VNone => false
  | VBool b => b
  | VInt z => negb (Z.eqb z 0)
  | VStr s => negb (String.eqb s "")
  | VTuple l => match l with [] => false | _ => true end
  | VList l => match l with [] => false | _ => true end
  | VFun _ => true
  | VRef r =>
      match h !! r with
      | Some [] => false
      | _ => true
      end
  end.

Definition truth (v : pyval) : M bool := fun w => (Ok (truthy (heap w) v), w, []).

Definition as_str (v : pyval) : M string :=
  match v with
  | VStr s => ret s
  | _ => raise TypeError
  end.

Definition key_str (k : pykey) : M string :=
  match k with
  | KStr s => ret s
  | KInt _ => raise TypeError
  end.

(** *** Engine primitives

    Every call is recorded when it is issued.  A lookup of a name the engine
    does not know raises [NotFound]; creating a container under a name that is
    taken, or removing one that is running, is refused by the engine. *)

Definition ping : M unit :=
  let! _ := log Ping in
  let! e := get_engine in
  if reachable e then ret tt else raise APIError.

Inductive thing := Network | Volume.

Definition thing_get (t : thing) (n : string) : M string :=
  let! e := get_engine in
  match t with
  | Network =>
      let! _ := log (NetworksGet n) in
      if str_in n (networks e) then ret n else raise NotFound
  | Volume =>
      let! _ := log (VolumesGet n) in
      if str_in n (volumes e) then ret n else raise NotFound
  end.

Definition thing_create (t : thing) (n : string) : M string :=
  let! e := get_engine in
  match t with
  | Network =>
      let! _ := log (NetworksCreate n) in
      let! _ := put_engine (with_networks e (networks e ++ [n])) in
      ret n
  | Volume =>
      let! _ := log (VolumesCreate n) in
      let! _ := put_engine (with_volumes e (volumes e ++ [n])) in
      ret n
  end.

Definition network_remove (n : string) : M unit :=
  let! _ := log (NetworkRemove n) in
  let! e := get_engine in
  if str_in n (networks e)
  then put_engine (with_networks e (List.filter (fun x => negb (String.eqb x n)) (networks e)))
  else raise NotFound.

Definition volumes_list : M (list string) :=
  let! _ := log VolumesList in
  let! e := get_engine in
  ret (volumes e).

Definition volume_remove (n : string) : M unit :=
  let! _ := log (VolumeRemove n) in
  let! e := get_engine in
  if str_in n (volumes e)
  then put_engine (with_volumes e (List.filter (fun x => negb (String.eqb x n)) (volumes e)))
  else raise NotFound.

Definition images_get (i : string) : M unit :=
  let! _ := log (ImagesGet i) in
  let! e := get_engine in
  if str_in i (images e) then ret tt else raise NotFound.

Definition images_pull (i : string) : M unit :=
  let! _ := log (ImagesPull i) in
  let! e := get_engine in
  if str_in i (images e) then ret tt
  else put_engine (with_images e (images e ++ [i])).

(** [client.containers.list(all=True)]: a container object is identified by
    its name, which the engine keeps unique. *)
Definition containers_list : M (list string) :=
  let! _ := log ContainersList in
  let! e := get_engine in
  ret (map cname (conts e)).

Definition containers_get (n : string) : M string :=
  let! _ := log (ContainersGet n) in
  let! e := get_engine in
  if has_container n e then ret n else raise NotFound.

Definition container_start (n : string) : M unit :=
  let! _ := log (ContainerStart n) in
  let! e := get_engine in
  if has_container n e
  then put_engine (with_conts e (map (set_running n true) (conts e)))
  else raise NotFound.

Definition container_stop (n : string) : M unit :=
  let! _ := log (ContainerStop n) in
  let! e := get_engine in
  if has_container n e
  then put_engine (with_conts e (map (set_running n false) (conts e)))
  else raise NotFound.

Definition container_remove (n : string) : M unit :=
  let! _ := log (ContainerRemove n) in
  let! e := get_engine in
  match find_container n e with
  | None => raise NotFound
  | Some c =>
      if crunning c then raise APIError
      else put_engine
             (with_conts e (List.filter (fun c => negb (String.eqb (cname c) n)) (conts e)))
  end.

Definition all_str_keys (d : pydict) : bool :=
  forallb (fun kv => match fst kv with KStr _ => true | KInt _ => false end) d.

(** [client.containers.create], called with the options as its keyword
    arguments: keyword names are strings, [image]
    is required; the engine records the name, the image and the port
    bindings.  [name] is always present where the tool calls it. *)
Definition containers_create (options : pyval) : M string :=
  let! d := load options in
  if negb (all_str_keys d) then raise TypeError else
  match dict_get (KStr "image") d, dict_get (KStr "name") d with
  | Some (VStr i), Some (VStr n) =>
      let! ports :=
        match dict_get (KStr "ports") d with
        | Some (VRef r) => load (VRef r)
        | _ => ret []
        end in
      let! _ := log (ContainersCreate n) in
      let! e := get_engine in
      if has_container n e then raise APIError
      else
        let! _ := put_engine (with_conts e (Container n i ports false :: conts e)) in
        ret n
  | _, _ => raise TypeError
  end.

(** ** str.format

    [format_fields h containers t] is [t.format(containers=containers)] for
    the templates the registry uses: literal text, doubled braces, and
    replacement fields [{containers[k1][k2]...}] that end on a string; what
    lies outside of this fragment is reported as [FormatError]. *)

Fixpoint read_until (stop : ascii) (s : string) : option (string * string) :=
  match s with
  | EmptyString => None
  | String c s' =>
      if Ascii.eqb c stop then Some (EmptyString, s')
      else match read_until stop s' with
           | Some (a, r) => Some (String c a, r)
           | None => None
           end
  end.

Fixpoint field_keys (fuel : nat) (s : string) : option (list string) :=
  match fuel with
  | O => None
  | S fuel' =>
      match s with
      | EmptyString => Some []
      | String c s' =>
          if Ascii.eqb c "["%char then
            match read_until "]"%char s' with
            | Some (k, rest) =>
                match field_keys fuel' rest with
                | Some ks => Some (k :: ks)
                | None => None
                end
            | None => None
            end
          else None
      end
  end.

Fixpoint walk_keys (h : list pydict) (v : pyval) (ks : list string) : result pyval :=
  match ks with
  | [] => Ok v
  | k :: ks' =>
      match v with
      | VRef r =>
          match h !! r with
          | Some d =>
              match dict_get (KStr k) d with
              | Some x => walk_keys h x ks'
              | None => Raise (KeyError (KStr k))
              end
          | None => Raise TypeError
          end
      | _ => Raise TypeError
      end
  end.

Definition lookup_field (h : list pydict) (containers : pyval) (field : string)
  : result string :=
  if startswith field "containers" then
    match field_keys (S (String.length field)) (str_drop 10 field) with
    | Some ks =>
        match walk_keys h containers ks with
        | Ok (VStr s) => Ok s
        | Ok _ => Raise FormatError
        | Raise e => Raise e
        end
    | None => Raise FormatError
    end
  else Raise (KeyError (KStr field)).

Fixpoint format_go (fuel : nat) (h : list pydict) (containers : pyval) (s : string)
  : result string :=
  match fuel with
  | O => Ok EmptyString
  | S fuel' =>
      match s with
      | EmptyString => Ok EmptyString
      | String c s' =>
          if Ascii.eqb c "{"%char then
            match s' with
            | String c' s'' =>
                if Ascii.eqb c' "{"%char then
                  match format_go fuel' h containers s'' with
                  | Ok r => Ok (String c r)
                  | Raise e => Raise e
                  end
                else
                  match read_until "}"%char s' with
                  | Some (field, rest) =>
                      match lookup_field h containers field with
                      | Ok x =>
                          match format_go fuel' h containers rest with
                          | Ok r => Ok (x ++ r)%string
                          | Raise e => Raise e
                          end
                      | Raise e => Raise e
                      end
                  | None => Raise FormatError
                  end
            | EmptyString => Raise FormatError
            end
          else if Ascii.eqb c "}"%char then
            match s' with
            | String c' s'' =>
                if Ascii.eqb c' "}"%char then
                  match format_go fuel' h containers s'' with
                  | Ok r => Ok (String c r)
                  | Raise e => Raise e
                  end
                else Raise FormatError
            | EmptyString => Raise FormatError
            end
          else
            match format_go fuel' h containers s' with
            | Ok r => Ok (String c r)
            | Raise e => Raise e
            end
      end
  end.

Definition format_fields (h : list pydict) (containers : pyval) (t : string)
  : result string :=
  format_go (S (String.length t)) h containers t.

(** ** The commands *)

(** [django.conf.settings], as far as the tool reads it. *)
Record Settings := {
  SENTRY_DEVSERVICES : pyval;
  SENTRY_EVENTSTREAM : string
}.

(** ** A sample configuration

    Three services in the shape of the project's settings: a database with a
    bare port, a port bound to all interfaces, an environment template and a
    named volume; a web service left to the devserver; a cache whose image is
    pulled on every run. The registry is the object 0 of the heap. *)
Definition sample_heap : list pydict :=
  [ [(KStr "db", VRef 1); (KStr "web", VRef 5); (KStr "cache", VRef 6)];
    [(KStr "image", VStr "pg:1"); (KStr "ports", VRef 2);
     (KStr "environment", VRef 3); (KStr "volumes", VRef 4)];
    [(KInt 5432, VInt 5432); (KInt 5433, VTuple [VStr "0.0.0.0"; VInt 5433])];
    [(KStr "URL", VStr "{containers[db][name]}:5432")];
    [(KStr "pg", VRef 7)];
    [(KStr "image", VStr "web:1"); (KStr "with_devserver", VBool true)];
    [(KStr "image", VStr "redis:5"); (KStr "pull", VBool true)];
    [(KStr "bind", VStr "/var/lib/pg")] ].

Definition sample_settings : Settings :=
  {| SENTRY_DEVSERVICES := VRef 0; SENTRY_EVENTSTREAM := "kafka" |}.

(** An engine that answers and holds nothing yet. *)
Definition sample_engine : docker := Docker true [] [] [] [].

Definition sample_world : world := World sample_heap sample_engine.

(** The engine as [up] for the project "demo" leaves it on the sample. *)
Definition sample_engine_up : docker :=
  Docker true ["demo"] ["demo_pg"] ["pg:1"; "web:1"; "redis:5"]
    [ Container "demo_cache" "redis:5" [] true;
      Container "demo_web" "web:1" [] false;
      Container "demo_db" "pg:1"
        [(KInt 5432, VTuple [VStr "127.0.0.1"; VInt 5432]);
         (KInt 5433, VTuple [VStr "0.0.0.0"; VInt 5433])] true ].

(** The heap as the resolver leaves it on the sample, for the project "demo":
    the resolved mapping is the object 8. *)
Definition sample_resolved_heap : list pydict :=
  sample_heap ++
  [ [(KStr "db", VRef 9); (KStr "web", VRef 12); (KStr "cache", VRef 17)];
    [(KStr "image", VStr "pg:1"); (KStr "ports", VRef 11);
     (KStr "environment", VRef 3); (KStr "volumes", VRef 4);
     (KStr "network", VStr "demo"); (KStr "detach", VBool true);
     (KStr "name", VStr "demo_db"); (KStr "restart_policy", VRef 10)];
    [(KStr "Name", VStr "on-failure")];
    [(KInt 5432, VTuple [VStr "127.0.0.1"; VInt 5432]);
     (KInt 5433, VTuple [VStr "0.0.0.0"; VInt 5433])];
    [(KStr "image", VStr "web:1"); (KStr "with_devserver", VBool true);
     (KStr "network", VStr "demo"); (KStr "detach", VBool true);
     (KStr "name", VStr "demo_web"); (KStr "ports", VRef 16);
     (KStr "environment", VRef 14); (KStr "restart_policy", VRef 15)];
    []; []; [(KStr "Name", VStr "on-failure")]; [];
    [(KStr "image", VStr "redis:5"); (KStr "pull", VBool true);
     (KStr "network", VStr "demo"); (KStr "detach", VBool true);
     (KStr "name", VStr "demo_cache"); (KStr "ports", VRef 21);
     (KStr "environment", VRef 19); (KStr "restart_policy", VRef 20)];
    []; []; [(KStr "Name", VStr "on-failure")]; [] ].

(** A host shared by the projects "demo" and "demo_test", and a stranger. *)
Definition shared_engine : docker :=
  Docker true ["demo"; "demo_test"] ["demo_pg"; "demo_test_pg"; "pg"] []
    [ Container "demo_db" "pg:1" [] true;
      Container "demo_web" "web:1" [] true;
      Container "demo_test_db" "pg:1" [] true;
      Container "other_db" "pg:1" [] true ].

Definition shared_world : world := World [] shared_engine.

(** A registry with a service that its only_if test disables. *)
Definition gated_heap : list pydict :=
  [ [(KStr "db", VRef 1); (KStr "relay", VRef 2)];
    [(KStr "image", VStr "pg:1")];
    [(KStr "image", VStr "relay:1"); (KStr "only_if", VFun false)] ].

Definition gated_world : world := World gated_heap sample_engine.

(** A resolved mapping, the object 0, with a service whose options hold no
    image. *)
Definition imageless_heap : list pydict :=
  [ [(KStr "job", VRef 1)];
    [(KStr "name", VStr "demo_job"); (KStr "network", VStr "demo");
     (KStr "environment", VRef 2); (KStr "ports", VRef 3)];
    []; [] ].

(** An engine that does not answer. *)
Definition silent_world : world := World sample_heap (Docker false [] [] [] []).

(** ** The program *)

Section Devservices.

(** [str.format] with the keyword argument [containers], and the settings of
    the process.  The engine client the functions pass around is the engine
    of the world. *)
Variable format : list pydict -> pyval -> string -> result string.
Variable settings : Settings.

Definition get_docker_client : M unit :=
  try_except ping any_exn
    (raise (ClickException "Make sure Docker is running.")).

Definition get_or_create (t : thing) (name : string) : M string :=
  try_except (thing_get t name) is_NotFound (thing_create t name).

(** Lines 39-40: a value that is not a tuple gets the loopback interface. *)
Definition default_interface (v : pyval) : pyval :=
  match v with
  | VTuple _ => v
  | _ => VTuple [VStr "127.0.0.1"; v]
  end.

Definition ensure_interface (ports : pyval) : M pyval :=
  let! rv := alloc [] in
  let! its := items ports in
  let! _ := for_each its (fun kv => setitem rv (fst kv) (default_interface (snd kv))) in
  ret rv.

(** [test_fn(settings, sentry_options)] *)
Definition call_only_if (f : pyval) : M bool :=
  match f with
  | VFun b => ret b
  | _ => raise TypeError
  end.

(** Lines 148-164, the body of the loop of [_prepare_containers]. *)
Definition prepare_one (project : string) (containers : pyval)
    (item : pykey * pyval) : M unit :=
  let '(name, options) := item in
  let! options := copy options in
  let! test_fn := pop_default options (KStr "only_if") VNone in
  let! t := truth test_fn in
  let! skip := if t then let! r := call_only_if test_fn in ret (negb r)
               else ret false in
  if skip then ret tt
  else
    let! _ := setitem options (KStr "network") (VStr project) in
    let! _ := setitem options (KStr "detach") (VBool true) in
    let! nm := key_str name in
    let! _ := setitem options (KStr "name") (VStr (project ++ "_" ++ nm)) in
    let! _ := setdefault options (KStr "ports") (alloc []) in
    let! _ := setdefault options (KStr "environment") (alloc []) in
    let! _ := setdefault options (KStr "restart_policy")
                (alloc [(KStr "Name", VStr "on-failure")]) in
    let! p := getitem options (KStr "ports") in
    let! p := ensure_interface p in
    let! _ := setitem options (KStr "ports") p in
    setitem containers name options.

Definition _prepare_containers (project : string) (silent : bool) : M pyval :=
  let! containers := alloc [] in
  let! its := items (SENTRY_DEVSERVICES settings) in
  let! _ := for_each its (prepare_one project containers) in
  ret containers.

(** [value.format(containers=containers)] *)
Definition format_value (value containers : pyval) : M string := fun w =>
  match value with
  | VStr t =>
      match format (heap w) containers t with
      | Ok s => (Ok s, w, [])
      | Raise e => (Raise e, w, [])
      end
  | _ => (Raise AttributeError, w, [])
  end.

(** [options["image"]], which the engine takes as a string *)
Definition image_of (options : pyval) : M string :=
  let! image := getitem options (KStr "image") in as_str image.

(** [options.get("volumes", {}).keys()] *)
Definition volume_keys (options : pyval) : M (list pykey) :=
  let! d := load options in
  match dict_get (KStr "volumes") d with
  | Some v => keys v
  | None => ret []
  end.

(** [_start_service], block by block. *)

(** Lines 179-181: the override for the snuba service. *)
Definition snuba_override (name : pykey) (options : pyval) : M unit :=
  if key_eqb name (KStr "snuba")
     && str_contains "snuba" (SENTRY_EVENTSTREAM settings)
  then
    let! env := getitem options (KStr "environment") in
    let! _ := pop_default env (KStr "DEFAULT_BROKERS") VNone in
    setitem options (KStr "command")
      (VList [VStr "devserver"; VStr "--no-workers"])
  else ret tt.

(** Line 184, the body of the loop over the environment. *)
Definition interpolate_one (options containers : pyval)
    (item : pykey * pyval) : M unit :=
  let '(key, value) := item in
  let! s := format_value value containers in
  let! env := getitem options (KStr "environment") in
  setitem env key (VStr s).

(** Lines 183-184. *)
Definition interpolate_environment (options containers : pyval) : M unit :=
  let! env := getitem options (KStr "environment") in
  let! its := items env in
  for_each its (interpolate_one options containers).

(** Lines 187-198: image freshness. *)
Definition refresh_image (options pull : pyval) (fast : bool) : M unit :=
  if negb fast then
    let! p := truth pull in
    if p then
      let! i := image_of options in images_pull i
    else
      try_except (let! i := image_of options in images_get i) is_NotFound
        (let! i := image_of options in images_pull i)
  else ret tt.

(** Lines 201-203, the body of the loop over the volume mounts. *)
Definition materialize_one (options : pyval) (project : string)
    (mount : pykey) : M unit :=
  let! m := key_str mount in
  if negb (str_contains "/" m) then
    let! _ := get_or_create Volume (project ++ "_" ++ m) in
    let! vols := getitem options (KStr "volumes") in
    let! x := pop vols mount in
    let! vols := getitem options (KStr "volumes") in
    setitem vols (KStr (project ++ "_" ++ m)) x
  else ret tt.

(** Lines 200-203. *)
Definition materialize_volumes (options : pyval) (project : string) : M unit :=
  let! mounts := volume_keys options in
  for_each mounts (materialize_one options project).

(** Lines 205-207: the text of the ports the service listens on, of which
    only the evaluation remains. *)
Definition listening (options : pyval) : M unit :=
  let! ports := getitem options (KStr "ports") in
  let! t := truth ports in
  if t then let! _ := load ports in ret tt else ret tt.

(** Lines 215-219. *)
Definition lookup_container (options : pyval) : M (option string) :=
  try_except
    (let! n := getitem options (KStr "name") in
     let! n := as_str n in
     let! c := containers_get n in
     ret (Some c))
    is_NotFound (ret None).

(** Lines 255-271: create the container and start it unless it is left to
    the devserver. *)
Definition create_and_start (options with_devserver : pyval)
    (always_start : bool) : M string :=
  let! _ := getitem options (KStr "name") in
  let! c := containers_create options in
  let! wd := truth with_devserver in
  if wd && negb always_start then ret c
  else
    let! _ := container_start c in
    ret c.

(** Lines 221-253: what is done with a container that exists; [Some c] when
    the function returns it, [None] when it goes on to create a fresh one. *)
Definition reuse_or_remove (pull with_devserver : pyval)
    (fast always_start : bool) (c : string) : M (option string) :=
  let! p := truth pull in
  let should_reuse_container := negb p in
  let! wd := truth with_devserver in
  let should_reuse_container :=
    if wd || fast then true else should_reuse_container in
  if should_reuse_container then
    let! wd := truth with_devserver in
    if wd && negb always_start then ret (Some c)
    else
      let! _ := container_start c in
      ret (Some c)
  else
    let! _ := container_stop c in
    let! _ := container_remove c in
    ret None.

(** Lines 215-271: look the container up, reuse or remove it when it exists,
    create it when it does not or was removed. *)
Definition reconcile (options pull with_devserver : pyval)
    (fast always_start : bool) : M string :=
  let! container := lookup_container options in
  let! returned :=
    match container with
    | Some c => reuse_or_remove pull with_devserver fast always_start c
    | None => ret None
    end in
  match returned with
  | Some c => ret c
  | None => create_and_start options with_devserver always_start
  end.

Definition _start_service (name : pykey) (containers : pyval) (project : string)
    (fast always_start : bool) : M string :=
  let! options := getitem containers name in
  let! _ := snuba_override name options in
  let! _ := interpolate_environment options containers in
  let! pull := pop_default options (KStr "pull") (VBool false) in
  let! _ := refresh_image options pull fast in
  let! _ := materialize_volumes options project in
  let! _ := listening options in
  let! with_devserver := pop_default options (KStr "with_devserver") (VBool false) in
  reconcile options pull with_devserver fast always_start.

(** [name in exclude], for a set of strings *)
Definition key_in (k : pykey) (xs : list string) : bool :=
  match k with
  | KStr s => str_in s xs
  | KInt _ => false
  end.

(** Lines 132-138, the body of the loop of [up]. *)
Definition up_one (project : string) (exclude : list string) (fast : bool)
    (containers : pyval) (item : pykey * pyval) : M unit :=
  let '(name, options) := item in
  if key_in name exclude then ret tt
  else
    let! known := contains containers name in
    if negb known then ret tt
    else
      let! _ := _start_service name containers project fast false in
      ret tt.

Definition up (project : string) (exclude : list string) (fast : bool) : M unit :=
  let exclude := flat_map split_comma exclude in
  let! _ := get_docker_client in
  let! _ := get_or_create Network project in
  let! containers := _prepare_containers project false in
  let! its := items (SENTRY_DEVSERVICES settings) in
  for_each its (up_one project exclude fast containers).

(** [attach] up to the point where it holds the started container; what
    follows registers the exit handlers and streams the container's output
    until the process is interrupted. *)
Definition attach (project : string) (fast : bool) (service : string) : M string :=
  let! _ := get_docker_client in
  let! containers := _prepare_containers project true in
  let! known := contains containers (KStr service) in
  if negb known then
    raise (ClickException
             ("Service " ++ service ++ " is not known or not enabled."))
  else _start_service (KStr service) containers project fast true.

(** Lines 84-89, the handler [attach] registers for the exit of the process
    and for the signals SIGINT and SIGTERM: it stops the container and lets a
    KeyboardInterrupt pass; no call of the engine raises one in the model. *)
Definition is_KeyboardInterrupt (e : exn) : bool := false.

Definition exit_handler (container : string) : M unit :=
  try_except (container_stop container) is_KeyboardInterrupt (ret tt).

(** [not service or name[len(prefix):] in service] *)
Definition selected (prefix : string) (service : list string) (name : string) : bool :=
  match service with
  | [] => true
  | _ => str_in (str_drop (String.length prefix) name) service
  end.

(** Lines 284-287, the body of the loop of [down]. *)
Definition down_one (prefix : string) (service : list string)
    (container : string) : M unit :=
  if startswith container prefix then
    if selected prefix service container then container_stop container
    else ret tt
  else ret tt.

Definition down (project : string) (service : list string) : M unit :=
  let! _ := get_docker_client in
  let prefix := (project ++ "_")%string in
  let! cs := containers_list in
  for_each cs (down_one prefix service).

(** [click.confirm(..., abort=True)] with the answer the user gives *)
Definition confirm (answer : bool) : M unit :=
  if answer then ret tt else raise Abort.

(** Lines 308-312 and 315-318, the bodies of the two loops of [rm]. *)
Definition rm_container (prefix : string) (service : list string)
    (container : string) : M unit :=
  if startswith container prefix then
    if selected prefix service container then
      let! _ := container_stop container in
      container_remove container
    else ret tt
  else ret tt.

Definition rm_volume (prefix : string) (service : list string)
    (volume : string) : M unit :=
  if startswith volume prefix then
    if selected prefix service volume then volume_remove volume
    else ret tt
  else ret tt.

Definition rm (answer : bool) (project : string) (service : list string) : M unit :=
  let! _ := confirm answer in
  let! _ := get_docker_client in
  let prefix := (project ++ "_")%string in
  let! cs := containers_list in
  let! _ := for_each cs (rm_container prefix service) in
  let! vs := volumes_list in
  let! _ := for_each vs (rm_volume prefix service) in
  match service with
  | [] =>
      let! network := try_except
                        (let! n := thing_get Network project in ret (Some n))
                        is_NotFound (ret None) in
      match network with
      | Some n => network_remove n
      | None => ret tt
      end
  | _ => ret tt
  end.


(** ** Reasoning about strings, dictionaries and commands *)

Lemma startswith_app (p r : string) : startswith (p ++ r) p = true.
Proof.
  induction p as [|a p IH]; simpl; [reflexivity|].
  now rewrite Ascii.eqb_refl.
Qed.

Lemma startswith_split (s p : string) :
  startswith s p = true -> exists r, s = (p ++ r)%string.
Proof.
  revert s; induction p as [|a p IH]; intros s H; simpl in *.
  - now exists s.
  - destruct s as [|b s]; [discriminate|].
    apply andb_true_iff in H as [Hab Hs].
    apply Ascii.eqb_eq in Hab; subst b.
    destruct (IH _ Hs) as [r ->]. now exists r.
Qed.

Lemma append_assoc (a b c : string) : ((a ++ b) ++ c = a ++ (b ++ c))%string.
Proof. induction a; simpl; congruence. Qed.

Lemma startswith_trans (s p q : string) :
  startswith s p = true -> startswith p q = true -> startswith s q = true.
Proof.
  intros Hs Hp.
  apply startswith_split in Hs as [r ->].
  apply startswith_split in Hp as [r' ->].
  rewrite append_assoc. apply startswith_app.
Qed.

Lemma str_drop_app (p r : string) : str_drop (String.length p) (p ++ r) = r.
Proof. induction p; simpl; auto. Qed.

Lemma append_inj_r (p a b : string) : (p ++ a = p ++ b)%string -> a = b.
Proof. induction p; simpl; intros H; [assumption|]. injection H; auto. Qed.

Lemma str_in_In (x : string) (xs : list string) : str_in x xs = true <-> In x xs.
Proof.
  unfold str_in. rewrite existsb_exists. split.
  - intros [y [Hy He]]. apply String.eqb_eq in He. now subst.
  - intros H. exists x. split; [assumption|apply String.eqb_refl].
Qed.

Lemma str_in_false (x : string) (xs : list string) :
  str_in x xs = false <-> ~ In x xs.
Proof.
  rewrite <- str_in_In. destruct (str_in x xs); split; intros; congruence.
Qed.

Lemma world_eta (w : world) : World (heap w) (engine w) = w.
Proof. now destruct w. Qed.

Lemma docker_eta (e : docker) :
  Docker (reachable e) (networks e) (volumes e) (images e) (conts e) = e.
Proof. now destruct e. Qed.

(** *** Inversion of the monad *)

Lemma bind_inv {A B} (m : M A) (f : A -> M B) w r w' l :
  bind m f w = (r, w', l) ->
  (exists e, m w = (Raise e, w', l) /\ r = Raise e) \/
  (exists a w1 l1 l2,
      m w = (Ok a, w1, l1) /\ f a w1 = (r, w', l2) /\ l = l1 ++ l2).
Proof.
  unfold bind. destruct (m w) as [[[a|e] w1] l1].
  - destruct (f a w1) as [[r2 w2] l2] eqn:Hf. intros H; inversion H; subst.
    right. now exists a, w1, l1, l2.
  - intros H; inversion H; subst. left. now exists e.
Qed.

Lemma bind_inv_ok {A B} (m : M A) (f : A -> M B) w b w' l :
  bind m f w = (Ok b, w', l) ->
  exists a w1 l1 l2,
    m w = (Ok a, w1, l1) /\ f a w1 = (Ok b, w', l2) /\ l = l1 ++ l2.
Proof.
  intros H. apply bind_inv in H as [[e [_ He]]|H]; [discriminate|assumption].
Qed.

Lemma bind_ok {A B} (m : M A) (f : A -> M B) w a w1 l1 :
  m w = (Ok a, w1, l1) ->
  bind m f w = (let '(r, w2, l2) := f a w1 in (r, w2, l1 ++ l2)).
Proof. unfold bind. now intros ->. Qed.

Lemma bind_ok_inv {A B} (m : M A) (f : A -> M B) w a w1 l1 r w' l :
  m w = (Ok a, w1, l1) -> bind m f w = (r, w', l) ->
  exists l2, f a w1 = (r, w', l2) /\ l = l1 ++ l2.
Proof.
  intros Hm H. rewrite (bind_ok _ _ _ _ _ _ Hm) in H.
  destruct (f a w1) as [[r2 w2] l2]. inversion H; subst. now exists l2.
Qed.

Lemma bind_raise {A B} (m : M A) (f : A -> M B) w e w1 l1 :
  m w = (Raise e, w1, l1) -> bind m f w = (Raise e, w1, l1).
Proof. unfold bind. now intros ->. Qed.

Lemma try_except_inv {A} (m : M A) catches (h : M A) w r w' l :
  try_except m catches h w = (r, w', l) ->
  (m w = (r, w', l) /\
     match r with Ok _ => True | Raise e => catches e = false end) \/
  (exists e w1 l1 l2,
      m w = (Raise e, w1, l1) /\ catches e = true /\
      h w1 = (r, w', l2) /\ l = l1 ++ l2).
Proof.
  unfold try_except. destruct (m w) as [[[a|e] w1] l1].
  - intros H; inversion H; subst. now left.
  - destruct (catches e) eqn:Hc.
    + destruct (h w1) as [[r2 w2] l2] eqn:Hh. intros H; inversion H; subst.
      right. now exists e, w1, l1, l2.
    + intros H; inversion H; subst. now left.
Qed.

(** A loop keeps what every round keeps: [I] relates the world before the
    loop to the current one, [L] holds of every call issued. *)
Lemma for_each_invariant {A} (body : A -> M unit)
    (I : world -> Prop) (L : call -> Prop) (xs : list A) :
  (forall x w r w' l, In x xs -> I w -> body x w = (r, w', l) ->
                      I w' /\ Forall L l) ->
  forall w r w' l, I w -> for_each xs body w = (r, w', l) ->
                   I w' /\ Forall L l.
Proof.
  induction xs as [|x xs IH]; intros Hbody w r w' l HI H; simpl in H.
  - inversion H; subst. split; [assumption|constructor].
  - apply bind_inv in H as [[e [H _]]|[[] [w1 [l1 [l2 [H1 [H2 ->]]]]]]].
    + eapply Hbody; eauto. now left.
    + destruct (Hbody x w _ _ _ (or_introl eq_refl) HI H1) as [HI1 HL1].
      destruct (IH (fun y w r w' l Hy => Hbody y w r w' l (or_intror Hy))
                  _ _ _ _ HI1 H2) as [HI2 HL2].
      split; [assumption|]. apply Forall_app. now split.
Qed.

(** *** The engine under [down] and [rm] *)

Definition stopped (c : container) : container :=
  Container (cname c) (cimage c) (cports c) false.

Definition stop_if (hit : string -> bool) (c : container) : container :=
  if hit (cname c) then stopped c else c.

(** The names [down] and [rm] act on. *)
Definition hit (project : string) (service : list string) (n : string) : bool :=
  startswith n (project ++ "_")
  && match service with
     | [] => true
     | _ => str_in (str_drop (String.length (project ++ "_")) n) service
     end.

Lemma has_container_In n e :
  has_container n e = true <-> In n (map cname (conts e)).
Proof.
  unfold has_container. rewrite existsb_exists, in_map_iff. split.
  - intros [c [Hc He]]. apply String.eqb_eq in He. now exists c.
  - intros [c [He Hc]]. exists c. split; [assumption|]. now apply String.eqb_eq.
Qed.

Lemma map_cname_set_running n b cs :
  map cname (map (set_running n b) cs) = map cname cs.
Proof.
  rewrite map_map. apply map_ext. intros c. unfold set_running.
  now destruct (cname c =? n)%string.
Qed.

Lemma get_docker_client_ok w :
  reachable (engine w) = true -> get_docker_client w = (Ok tt, w, [Ping]).
Proof.
  intros H. unfold get_docker_client, try_except, ping, bind, log, get_engine.
  simpl. now rewrite H.
Qed.

Lemma container_stop_ok n w :
  has_container n (engine w) = true ->
  container_stop n w =
    (Ok tt,
     World (heap w) (with_conts (engine w) (map (set_running n false) (conts (engine w)))),
     [ContainerStop n]).
Proof.
  intros H. unfold container_stop, bind, log, get_engine, put_engine. simpl.
  now rewrite H.
Qed.

Lemma down_loop prefix service (target : string -> bool) ns :
  (forall n, target n = startswith n prefix && selected prefix service n) ->
  forall w,
    (forall n, In n ns -> has_container n (engine w) = true) ->
    for_each ns (down_one prefix service) w =
      (Ok tt,
       World (heap w)
         (with_conts (engine w)
            (map (stop_if (fun n => target n && str_in n ns)) (conts (engine w)))),
       map ContainerStop (List.filter target ns)).
Proof.
  intros Ht. induction ns as [|n ns IH]; intros w Hin; simpl.
  - unfold ret. f_equal. f_equal.
    rewrite <- (world_eta w) at 1. f_equal.
    rewrite <- (docker_eta (engine w)) at 1. unfold with_conts. f_equal.
    rewrite <- (map_id (conts (engine w))) at 1. apply map_ext.
    intros c. unfold stop_if. now rewrite andb_false_r.
  - assert (Hbody : down_one prefix service n w =
                    if target n then container_stop n w else ret tt w).
    { unfold down_one. rewrite Ht.
      destruct (startswith n prefix); simpl; [|reflexivity].
      now destruct (selected prefix service n). }
    destruct (target n) eqn:Htn.
    + rewrite container_stop_ok in Hbody by (apply Hin; now left).
      rewrite (bind_ok _ _ _ _ _ _ Hbody), IH.
      * simpl. f_equal. f_equal. f_equal. unfold with_conts. simpl. f_equal.
        rewrite map_map. apply map_ext. intros c.
        unfold stop_if, set_running, stopped. simpl.
        destruct (cname c =? n)%string eqn:Hc; simpl.
        -- apply String.eqb_eq in Hc. rewrite Hc, Htn. simpl.
           now destruct (str_in n ns).
        -- reflexivity.
      * intros m Hm. simpl. apply has_container_In. simpl.
        rewrite map_cname_set_running. apply has_container_In, Hin. now right.
    + rewrite (bind_ok _ _ _ _ _ _ Hbody), IH by (intros; apply Hin; now right).
      simpl. f_equal. f_equal. f_equal. f_equal. apply map_ext. intros c.
      unfold stop_if. simpl.
      destruct (cname c =? n)%string eqn:Hc; simpl; [|reflexivity].
      apply String.eqb_eq in Hc. rewrite Hc, Htn. reflexivity.
Qed.


Lemma filter_filter_ext {A} (f g h : A -> bool) (l : list A) :
  (forall x, In x l -> g x && f x = h x) ->
  List.filter f (List.filter g l) = List.filter h l.
Proof.
  induction l as [|x l IH]; intros H; simpl; [reflexivity|].
  rewrite <- (H x (or_introl eq_refl)).
  destruct (g x); simpl.
  - destruct (f x); rewrite IH; auto; intros; apply H; now right.
  - apply IH. intros; apply H; now right.
Qed.

Lemma filter_all {A} (f : A -> bool) (l : list A) :
  (forall x, In x l -> f x = true) -> List.filter f l = l.
Proof.
  induction l as [|x l IH]; intros H; simpl; [reflexivity|].
  rewrite (H x (or_introl eq_refl)), IH; auto. intros; apply H; now right.
Qed.

Lemma cname_set_running n b c : cname (set_running n b c) = cname c.
Proof. unfold set_running. now destruct (cname c =? n)%string. Qed.

Lemma find_stopped n cs :
  In n (map cname cs) ->
  exists c, find (fun c => (cname c =? n)%string) (map (set_running n false) cs) = Some c
            /\ crunning c = false.
Proof.
  induction cs as [|c cs IH]; simpl; [tauto|]. intros H.
  rewrite cname_set_running.
  destruct (cname c =? n)%string eqn:Hc.
  - exists (set_running n false c). split; [reflexivity|].
    unfold set_running. now rewrite Hc.
  - apply IH. destruct H as [H|H]; [|assumption].
    apply String.eqb_neq in Hc. congruence.
Qed.

Lemma filter_out_set_running n b cs :
  List.filter (fun c => negb (cname c =? n)%string) (map (set_running n b) cs)
  = List.filter (fun c => negb (cname c =? n)%string) cs.
Proof.
  induction cs as [|c cs IH]; simpl; [reflexivity|].
  rewrite cname_set_running, IH.
  destruct (cname c =? n)%string eqn:Hc; simpl; [reflexivity|].
  unfold set_running. now rewrite Hc.
Qed.

(** One round of the first loop of [rm] on a container it selects. *)
Lemma stop_remove_ok n w :
  has_container n (engine w) = true ->
  bind (container_stop n) (fun _ => container_remove n) w =
    (Ok tt,
     World (heap w)
       (with_conts (engine w)
          (List.filter (fun c => negb (cname c =? n)%string) (conts (engine w)))),
     [ContainerStop n; ContainerRemove n]).
Proof.
  intros H. rewrite (bind_ok _ _ _ _ _ _ (container_stop_ok n w H)).
  apply has_container_In in H. destruct (find_stopped n _ H) as [c [Hf Hr]].
  unfold container_remove, bind, log, get_engine, put_engine, find_container.
  simpl. rewrite Hf, Hr. simpl. now rewrite filter_out_set_running.
Qed.

Lemma rm_container_loop prefix service (target : string -> bool) ns :
  (forall n, target n = startswith n prefix && selected prefix service n) ->
  forall w,
    List.NoDup ns ->
    (forall n, In n ns -> has_container n (engine w) = true) ->
    for_each ns (rm_container prefix service) w =
      (Ok tt,
       World (heap w)
         (with_conts (engine w)
            (List.filter (fun c => negb (target (cname c) && str_in (cname c) ns))
               (conts (engine w)))),
       flat_map (fun n => [ContainerStop n; ContainerRemove n])
         (List.filter target ns)).
Proof.
  intros Ht. induction ns as [|n ns IH]; intros w Hnd Hin; simpl.
  - unfold ret. f_equal. f_equal.
    rewrite <- (world_eta w) at 1. f_equal.
    rewrite <- (docker_eta (engine w)) at 1. unfold with_conts. f_equal.
    symmetry. apply filter_all. intros c _. now rewrite andb_false_r.
  - inversion Hnd as [|? ? Hn Hnd']; subst.
    assert (Hbody : rm_container prefix service n w =
                    if target n
                    then bind (container_stop n) (fun _ => container_remove n) w
                    else ret tt w).
    { unfold rm_container. rewrite Ht.
      destruct (startswith n prefix); simpl; [|reflexivity].
      now destruct (selected prefix service n). }
    destruct (target n) eqn:Htn.
    + rewrite stop_remove_ok in Hbody by (apply Hin; now left).
      rewrite (bind_ok _ _ _ _ _ _ Hbody), IH; trivial.
      * simpl. f_equal. f_equal. f_equal. unfold with_conts. simpl. f_equal.
        apply filter_filter_ext. intros c _.
        destruct (cname c =? n)%string eqn:Hc; simpl.
        -- apply String.eqb_eq in Hc. now rewrite Hc, Htn.
        -- reflexivity.
      * intros m Hm. apply has_container_In. simpl.
        apply in_map_iff.
        assert (Hm' : has_container m (engine w) = true) by (apply Hin; now right).
        apply has_container_In, in_map_iff in Hm' as [c [Hc Hcin]].
        exists c. split; [assumption|]. apply filter_In. split; [assumption|].
        apply negb_true_iff, String.eqb_neq. congruence.
    + rewrite (bind_ok _ _ _ _ _ _ Hbody), IH; trivial;
        [|intros; apply Hin; now right].
      simpl. f_equal. f_equal. f_equal. f_equal. apply filter_ext. intros c.
      destruct (cname c =? n)%string eqn:Hc; simpl; [|reflexivity].
      apply String.eqb_eq in Hc. now rewrite Hc, Htn.
Qed.

Lemma volume_remove_ok n w :
  str_in n (volumes (engine w)) = true ->
  volume_remove n w =
    (Ok tt,
     World (heap w)
       (with_volumes (engine w)
          (List.filter (fun x => negb (x =? n)%string) (volumes (engine w)))),
     [VolumeRemove n]).
Proof.
  intros H. unfold volume_remove, bind, log, get_engine, put_engine. simpl.
  now rewrite H.
Qed.

Lemma rm_volume_loop prefix service (target : string -> bool) ns :
  (forall n, target n = startswith n prefix && selected prefix service n) ->
  forall w,
    List.NoDup ns ->
    (forall n, In n ns -> In n (volumes (engine w))) ->
    for_each ns (rm_volume prefix service) w =
      (Ok tt,
       World (heap w)
         (with_volumes (engine w)
            (List.filter (fun v => negb (target v && str_in v ns))
               (volumes (engine w)))),
       map VolumeRemove (List.filter target ns)).
Proof.
  intros Ht. induction ns as [|n ns IH]; intros w Hnd Hin; simpl.
  - unfold ret. f_equal. f_equal.
    rewrite <- (world_eta w) at 1. f_equal.
    rewrite <- (docker_eta (engine w)) at 1. unfold with_volumes. f_equal.
    symmetry. apply filter_all. intros c _. now rewrite andb_false_r.
  - inversion Hnd as [|? ? Hn Hnd']; subst.
    assert (Hbody : rm_volume prefix service n w =
                    if target n then volume_remove n w else ret tt w).
    { unfold rm_volume. rewrite Ht.
      destruct (startswith n prefix); simpl; [|reflexivity].
      now destruct (selected prefix service n). }
    destruct (target n) eqn:Htn.
    + rewrite volume_remove_ok in Hbody by (apply str_in_In, Hin; now left).
      rewrite (bind_ok _ _ _ _ _ _ Hbody), IH; trivial.
      * simpl. f_equal. f_equal. f_equal. unfold with_volumes. simpl. f_equal.
        apply filter_filter_ext. intros v _.
        destruct (v =? n)%string eqn:Hc; simpl.
        -- apply String.eqb_eq in Hc. now rewrite Hc, Htn.
        -- reflexivity.
      * intros m Hm. simpl. apply filter_In. split; [apply Hin; now right|].
        apply negb_true_iff, String.eqb_neq. congruence.
    + rewrite (bind_ok _ _ _ _ _ _ Hbody), IH; trivial;
        [|intros; apply Hin; now right].
      simpl. f_equal. f_equal. f_equal. f_equal. apply filter_ext. intros v.
      destruct (v =? n)%string eqn:Hc; simpl; [|reflexivity].
      apply String.eqb_eq in Hc. now rewrite Hc, Htn.
Qed.

Lemma hit_target project service n :
  hit project service n
  = startswith n (project ++ "_") && selected (project ++ "_") service n.
Proof. unfold hit, selected. now destruct service. Qed.


(** *** What a single engine call does, whatever its outcome *)

Ltac case_scrutinee H :=
  match type of H with
  | context [match ?x with _ => _ end] =>
      lazymatch x with
      | context [match _ with _ => _ end] => fail
      | _ => destruct x eqn:?; simpl in H
      end
  end.

Ltac prim_inv H :=
  unfold ping, thing_get, thing_create, network_remove, volumes_list,
    volume_remove, images_get, images_pull, containers_list, containers_get,
    container_start, container_stop, container_remove, find_container,
    bind, log, get_engine, put_engine, ret, raise in H;
  simpl in H;
  repeat case_scrutinee H;
  inversion H; subst; clear H; simpl.

Lemma get_docker_client_inv w r w' l :
  get_docker_client w = (r, w', l) -> w' = w /\ l = [Ping].
Proof.
  unfold get_docker_client, try_except, any_exn. intros H. prim_inv H; auto.
Qed.

Lemma containers_list_inv w r w' l :
  containers_list w = (r, w', l) ->
  r = Ok (map cname (conts (engine w))) /\ w' = w /\ l = [ContainersList].
Proof. intros H. prim_inv H; auto. Qed.

Lemma volumes_list_inv w r w' l :
  volumes_list w = (r, w', l) ->
  r = Ok (volumes (engine w)) /\ w' = w /\ l = [VolumesList].
Proof. intros H. prim_inv H; auto. Qed.

Lemma container_stop_inv n w r w' l :
  container_stop n w = (r, w', l) ->
  l = [ContainerStop n] /\ heap w' = heap w
  /\ networks (engine w') = networks (engine w)
  /\ volumes (engine w') = volumes (engine w)
  /\ images (engine w') = images (engine w)
  /\ map cname (conts (engine w')) = map cname (conts (engine w)).
Proof.
  intros H. prim_inv H; repeat split; auto. apply map_cname_set_running.
Qed.

Lemma container_remove_inv n w r w' l :
  container_remove n w = (r, w', l) ->
  l = [ContainerRemove n] /\ heap w' = heap w
  /\ networks (engine w') = networks (engine w)
  /\ volumes (engine w') = volumes (engine w)
  /\ images (engine w') = images (engine w).
Proof. intros H. prim_inv H; repeat split; auto. Qed.

Lemma volume_remove_inv n w r w' l :
  volume_remove n w = (r, w', l) ->
  l = [VolumeRemove n] /\ heap w' = heap w
  /\ networks (engine w') = networks (engine w)
  /\ images (engine w') = images (engine w)
  /\ conts (engine w') = conts (engine w).
Proof. intros H. prim_inv H; repeat split; auto. Qed.

(** The calls of [down] and [rm] for a project stay within its names. *)
Definition within_project (project : string) (c : call) : Prop :=
  match c with
  | ContainerStop n | ContainerRemove n | VolumeRemove n =>
      startswith n (project ++ "_") = true
  | NetworkRemove n => n = project
  | ContainersCreate _ | ContainerStart _ | NetworksCreate _
  | VolumesCreate _ | ImagesPull _ => False
  | _ => True
  end.

Definition is_network_remove (c : call) : bool :=
  match c with NetworkRemove _ => true | _ => false end.

Definition keeps_networks (w0 : world) (w : world) : Prop :=
  networks (engine w) = networks (engine w0).

Lemma down_one_calls project service n w r w' l :
  down_one (project ++ "_") service n w = (r, w', l) ->
  Forall (within_project project) l.
Proof.
  unfold down_one. intros H.
  destruct (startswith n (project ++ "_")) eqn:Hs;
    [destruct (selected (project ++ "_") service n)|].
  - apply container_stop_inv in H as [-> _]. now repeat constructor.
  - inversion H. constructor.
  - inversion H. constructor.
Qed.

Lemma rm_container_calls project service w0 n w r w' l :
  keeps_networks w0 w ->
  rm_container (project ++ "_") service n w = (r, w', l) ->
  keeps_networks w0 w'
  /\ Forall (fun c => within_project project c /\ is_network_remove c = false) l.
Proof.
  unfold rm_container, keeps_networks. intros Hk H.
  destruct (startswith n (project ++ "_")) eqn:Hs;
    [destruct (selected (project ++ "_") service n)|].
  - apply bind_inv in H as [[e [H _]]|[[] [w1 [l1 [l2 [H1 [H2 ->]]]]]]].
    + apply container_stop_inv in H as [-> [_ [Hn _]]].
      split; [congruence|]. now repeat constructor.
    + apply container_stop_inv in H1 as [-> [_ [Hn1 _]]].
      apply container_remove_inv in H2 as [-> [_ [Hn2 _]]].
      split; [congruence|]. now repeat constructor.
  - inversion H; subst. split; [assumption|constructor].
  - inversion H; subst. split; [assumption|constructor].
Qed.

Lemma rm_volume_calls project service w0 n w r w' l :
  keeps_networks w0 w ->
  rm_volume (project ++ "_") service n w = (r, w', l) ->
  keeps_networks w0 w'
  /\ Forall (fun c => within_project project c /\ is_network_remove c = false) l.
Proof.
  unfold rm_volume, keeps_networks. intros Hk H.
  destruct (startswith n (project ++ "_")) eqn:Hs;
    [destruct (selected (project ++ "_") service n)|].
  - apply volume_remove_inv in H as [-> [_ [Hn _]]].
    split; [congruence|]. now repeat constructor.
  - inversion H; subst. split; [assumption|constructor].
  - inversion H; subst. split; [assumption|constructor].
Qed.

Lemma down_calls project service w r w' l :
  down project service w = (r, w', l) -> Forall (within_project project) l.
Proof.
  unfold down. intros H.
  apply bind_inv in H as [[e [H _]]|[[] [w1 [l1 [l2 [H1 [H2 ->]]]]]]].
  { apply get_docker_client_inv in H as [_ ->]. now repeat constructor. }
  apply get_docker_client_inv in H1 as [-> ->].
  apply bind_inv in H2 as [[e [H _]]|[cs [w2 [l3 [l4 [H2 [H3 ->]]]]]]].
  { apply containers_list_inv in H as [? _]. discriminate. }
  apply containers_list_inv in H2 as [_ [-> ->]].
  constructor; [exact I|]. constructor; [exact I|].
  eapply (for_each_invariant _ (fun _ => True)); [|exact I|exact H3].
  intros x w2 r2 w2' l2 _ _ Hb. split; [exact I|].
  eapply down_one_calls; eauto.
Qed.



(** *** Triples

    [triple P m Q E L]: from a world in [P], [m] issues only calls in [L] and
    ends in [Q] when it returns, in [E] when it raises. *)
Definition triple {A} (P : world -> Prop) (m : M A)
    (Q : A -> world -> Prop) (E : world -> Prop) (L : call -> Prop) : Prop :=
  forall w r w' l, P w -> m w = (r, w', l) ->
    Forall L l /\ match r with Ok a => Q a w' | Raise _ => E w' end.

Lemma triple_ret {A} (a : A) (P : world -> Prop) Q E L :
  (forall w, P w -> Q a w) -> triple P (ret a) Q E L.
Proof. intros H w r w' l HP Hr. inversion Hr; subst. split; [constructor|auto]. Qed.

Lemma triple_raise {A} e (P : world -> Prop) (Q : A -> world -> Prop) E L :
  (forall w, P w -> E w) -> triple P (raise e) Q E L.
Proof. intros H w r w' l HP Hr. inversion Hr; subst. split; [constructor|auto]. Qed.

Lemma triple_bind {A B} (m : M A) (f : A -> M B) P Q R E L :
  triple P m Q E L -> (forall a, triple (Q a) (f a) R E L) ->
  triple P (bind m f) R E L.
Proof.
  intros Hm Hf w r w' l HP H.
  apply bind_inv in H as [[e [H ->]]|[a [w1 [l1 [l2 [H1 [H2 ->]]]]]]].
  - exact (Hm _ _ _ _ HP H).
  - destruct (Hm _ _ _ _ HP H1) as [HL1 HQ].
    destruct (Hf a _ _ _ _ HQ H2) as [HL2 HR].
    split; [|assumption]. apply Forall_app. now split.
Qed.

Lemma triple_conseq {A} (m : M A) (P P' : world -> Prop)
    (Q Q' : A -> world -> Prop) (E E' L L' : _ -> Prop) :
  triple P' m Q' E' L' ->
  (forall w, P w -> P' w) -> (forall a w, Q' a w -> Q a w) ->
  (forall w, E' w -> E w) -> (forall c, L' c -> L c) ->
  triple P m Q E L.
Proof.
  intros H HP HQ HE HL w r w' l Hw Hr.
  destruct (H _ _ _ _ (HP _ Hw) Hr) as [H1 H2]. split.
  - eapply List.Forall_impl; [|exact H1]. exact HL.
  - destruct r; auto.
Qed.

Lemma triple_for_each {A} (body : A -> M unit) (xs : list A) (I E : world -> Prop) L :
  (forall w, I w -> E w) ->
  (forall x, In x xs -> triple I (body x) (fun _ => I) E L) ->
  triple I (for_each xs body) (fun _ => I) E L.
Proof.
  intros HIE. induction xs as [|x xs IH]; intros Hb; simpl.
  - now apply triple_ret.
  - eapply triple_bind; [apply Hb; now left|]. intros ?.
    apply IH. intros y Hy. apply Hb. now right.
Qed.

Lemma triple_try_except {A} (m h : M A) catches P Q E E' L :
  triple P m Q E' L -> triple E' h Q E L -> (forall w, E' w -> E w) ->
  triple P (try_except m catches h) Q E L.
Proof.
  intros Hm Hh HE w r w' l HP H.
  apply try_except_inv in H as [[H Hc]|[e [w1 [l1 [l2 [H1 [Hc [H2 ->]]]]]]]].
  - destruct (Hm _ _ _ _ HP H) as [HL Hr]. split; [assumption|].
    destruct r; auto.
  - destruct (Hm _ _ _ _ HP H1) as [HL1 HE1].
    destruct (Hh _ _ _ _ HE1 H2) as [HL2 Hr]. split; [|assumption].
    apply Forall_app. now split.
Qed.

(** An invariant of the world that every step keeps, with the calls in [L]. *)
Definition keeps {A} (I : world -> Prop) (L : call -> Prop) (m : M A) : Prop :=
  triple I m (fun _ => I) I L.

Lemma keeps_ret {A} (a : A) I L : keeps I L (ret a).
Proof. now apply triple_ret. Qed.

Lemma keeps_raise {A} e I L : keeps I L (@raise A e).
Proof. now apply triple_raise. Qed.

Lemma keeps_bind {A B} (m : M A) (f : A -> M B) I L :
  keeps I L m -> (forall a, keeps I L (f a)) -> keeps I L (bind m f).
Proof. intros Hm Hf. eapply triple_bind; [exact Hm|exact Hf]. Qed.

Lemma keeps_for_each {A} (body : A -> M unit) (xs : list A) I L :
  (forall x, In x xs -> keeps I L (body x)) -> keeps I L (for_each xs body).
Proof. intros H. now apply triple_for_each. Qed.

Lemma keeps_try_except {A} (m h : M A) catches I L :
  keeps I L m -> keeps I L h -> keeps I L (try_except m catches h).
Proof. intros Hm Hh. eapply triple_try_except; [exact Hm|exact Hh|auto]. Qed.

Lemma keeps_weaken {A} (m : M A) (I : world -> Prop) (L L' : call -> Prop) :
  keeps I L' m -> (forall c, L' c -> L c) -> keeps I L m.
Proof. intros H HL. eapply triple_conseq; [exact H| | | |]; auto. Qed.

Lemma keeps_get_docker_client (I : world -> Prop) (L : call -> Prop) :
  L Ping -> keeps I L get_docker_client.
Proof.
  intros HL w r w' l HI H. apply get_docker_client_inv in H as [-> ->].
  split; [now repeat constructor|]. now destruct r.
Qed.

Lemma keeps_containers_list (I : world -> Prop) (L : call -> Prop) :
  L ContainersList -> keeps I L containers_list.
Proof.
  intros HL w r w' l HI H. apply containers_list_inv in H as [-> [-> ->]].
  split; [now repeat constructor|assumption].
Qed.

Lemma keeps_volumes_list (I : world -> Prop) (L : call -> Prop) :
  L VolumesList -> keeps I L volumes_list.
Proof.
  intros HL w r w' l HI H. apply volumes_list_inv in H as [-> [-> ->]].
  split; [now repeat constructor|assumption].
Qed.

Definition no_network_remove (c : call) : Prop := is_network_remove c = false.

Lemma keeps_rm_container w0 project service n :
  keeps (keeps_networks w0)
    (fun c => within_project project c /\ no_network_remove c)
    (rm_container (project ++ "_") service n).
Proof.
  intros w r w' l HI H.
  destruct (rm_container_calls _ _ _ _ _ _ _ _ HI H) as [H1 H2].
  split; [assumption|]. now destruct r.
Qed.

Lemma keeps_rm_volume w0 project service n :
  keeps (keeps_networks w0)
    (fun c => within_project project c /\ no_network_remove c)
    (rm_volume (project ++ "_") service n).
Proof.
  intros w r w' l HI H.
  destruct (rm_volume_calls _ _ _ _ _ _ _ _ HI H) as [H1 H2].
  split; [assumption|]. now destruct r.
Qed.

(** With service arguments, [rm] leaves the networks alone. *)
Lemma rm_filtered_keeps_networks answer project service w0 :
  service <> [] ->
  keeps (keeps_networks w0)
    (fun c => within_project project c /\ no_network_remove c)
    (rm answer project service).
Proof.
  intros Hs. unfold rm.
  apply keeps_bind; [destruct answer; [apply keeps_ret|apply keeps_raise]|].
  intros ?. apply keeps_bind; [now apply keeps_get_docker_client|].
  intros ?. apply keeps_bind; [now apply keeps_containers_list|].
  intros cs. apply keeps_bind.
  { apply keeps_for_each. intros; apply keeps_rm_container. }
  intros ?. apply keeps_bind; [now apply keeps_volumes_list|].
  intros vs. apply keeps_bind.
  { apply keeps_for_each. intros; apply keeps_rm_volume. }
  intros ?. destruct service; [congruence|]. apply keeps_ret.
Qed.

Lemma thing_get_inv t n w r w' l :
  thing_get t n w = (r, w', l) ->
  w' = w
  /\ l = [match t with Network => NetworksGet n | Volume => VolumesGet n end]
  /\ (r = Ok n \/ r = Raise NotFound).
Proof. intros H. destruct t; prim_inv H; auto. Qed.

Lemma network_remove_inv n w r w' l :
  network_remove n w = (r, w', l) -> l = [NetworkRemove n].
Proof. intros H. prim_inv H; auto. Qed.

Lemma rm_container_within project service n :
  keeps (fun _ => True) (within_project project)
    (rm_container (project ++ "_") service n).
Proof.
  intros w r w' l _ H.
  destruct (rm_container_calls project service w n w r w' l eq_refl H) as [_ HF].
  split; [|now destruct r].
  eapply List.Forall_impl; [|exact HF]. now intros c [Hc _].
Qed.

Lemma rm_volume_within project service n :
  keeps (fun _ => True) (within_project project)
    (rm_volume (project ++ "_") service n).
Proof.
  intros w r w' l _ H.
  destruct (rm_volume_calls project service w n w r w' l eq_refl H) as [_ HF].
  split; [|now destruct r].
  eapply List.Forall_impl; [|exact HF]. now intros c [Hc _].
Qed.

(** Whatever its arguments, [rm] stays within the names of its project. *)
Lemma rm_within_project answer project service :
  keeps (fun _ => True) (within_project project) (rm answer project service).
Proof.
  unfold rm.
  apply keeps_bind; [destruct answer; [apply keeps_ret|apply keeps_raise]|].
  intros ?. apply keeps_bind; [now apply keeps_get_docker_client|].
  intros ?. apply keeps_bind; [now apply keeps_containers_list|].
  intros cs. apply keeps_bind.
  { apply keeps_for_each. intros; apply rm_container_within. }
  intros ?. apply keeps_bind; [now apply keeps_volumes_list|].
  intros vs. apply keeps_bind.
  { apply keeps_for_each. intros; apply rm_volume_within. }
  intros ?. destruct service; [|apply keeps_ret].
  eapply triple_bind with (Q := fun o _ => o = None \/ o = Some project).
  - apply triple_try_except with (E' := fun _ => True); auto.
    + eapply triple_bind with (Q := fun n _ => n = project).
      * intros w r w' l _ H. apply thing_get_inv in H as [-> [-> [->| ->]]];
          (split; [now repeat constructor|auto]).
      * intros n. apply triple_ret. intros w ->. now right.
    + apply triple_ret. now left.
  - intros [n|]; [|now apply triple_ret].
    intros w r w' l [Hn|Hn] H; [discriminate|]. injection Hn as ->.
    apply network_remove_inv in H as ->.
    split; [now repeat constructor|now destruct r].
Qed.


(** ** The commands [down] and [rm] *)

(** C8: with the engine reachable, [down] stops exactly the containers whose
    name starts with the project prefix and, when service names are given,
    whose name without the prefix is one of them: these are the stop calls it
    issues, in the order of the engine's list, every such container ends up
    stopped and every other container is as it was. *)
Theorem down_stops_exactly_the_selected (project : string)
    (service : list string) (w : world) :
  reachable (engine w) = true ->
  let prefix := (project ++ "_")%string in
  let chosen n :=
    startswith n prefix
    && match service with
       | [] => true
       | _ => str_in (str_drop (String.length prefix) n) service
       end in
  down project service w =
    (Ok tt,
     World (heap w)
       (with_conts (engine w) (map (stop_if chosen) (conts (engine w)))),
     Ping :: ContainersList
       :: map ContainerStop (List.filter chosen (map cname (conts (engine w))))).
Proof.
  intros Hr prefix chosen. unfold down.
  rewrite (bind_ok _ _ _ _ _ _ (get_docker_client_ok w Hr)).
  assert (Hl : containers_list w
               = (Ok (map cname (conts (engine w))), w, [ContainersList]))
    by reflexivity.
  rewrite (bind_ok _ _ _ _ _ _ Hl).
  rewrite (down_loop (project ++ "_") service chosen).
  - simpl. f_equal. f_equal. f_equal. f_equal. apply map_ext_in.
    intros c Hc. unfold stop_if.
    replace (str_in (cname c) (map cname (conts (engine w)))) with true.
    + now rewrite andb_true_r.
    + symmetry. apply str_in_In. now apply in_map.
  - intros n. unfold chosen, selected. now destruct service.
  - intros n Hn. now apply has_container_In.
Qed.

(** C6: when the confirmation of [rm] is declined, the command aborts with
    the world as it was and without a single engine call. *)
Theorem rm_declined_changes_nothing (project : string) (service : list string)
    (w : world) :
  rm false project service w = (Raise Abort, w, []).
Proof. reflexivity. Qed.

Lemma network_part_ok project w :
  bind (try_except (bind (thing_get Network project) (fun n => ret (Some n)))
          is_NotFound (ret None))
       (fun network => match network with
                       | Some n => network_remove n
                       | None => ret tt
                       end) w =
    (Ok tt,
     World (heap w)
       (with_networks (engine w)
          (List.filter (fun x => negb (x =? project)%string) (networks (engine w)))),
     NetworksGet project
       :: (if str_in project (networks (engine w))
           then [NetworkRemove project] else [])).
Proof.
  unfold bind, try_except, thing_get, network_remove, bind, log, get_engine,
    put_engine, ret, raise. simpl.
  destruct (str_in project (networks (engine w))) eqn:Hin; simpl.
  - rewrite Hin. reflexivity.
  - f_equal. f_equal. rewrite <- (world_eta w) at 1. f_equal.
    rewrite <- (docker_eta (engine w)) at 1. unfold with_networks. f_equal.
    symmetry. apply filter_all. intros x Hx.
    apply negb_true_iff, String.eqb_neq. intros ->.
    apply str_in_false in Hin. contradiction.
Qed.

(** C7: with the engine reachable and its names unique, an accepted [rm]
    without service arguments stops and removes every container whose name
    starts with the project prefix, removes every volume whose name starts
    with it, and removes the project network; with service arguments,
    whatever the answer, no network is removed. *)
Theorem rm_removes_the_project (project : string) (w : world) :
  reachable (engine w) = true ->
  List.NoDup (map cname (conts (engine w))) ->
  List.NoDup (volumes (engine w)) ->
  let prefix := (project ++ "_")%string in
  let e := engine w in
  rm true project [] w =
    (Ok tt,
     World (heap w)
       (Docker (reachable e)
          (List.filter (fun n => negb (n =? project)%string) (networks e))
          (List.filter (fun n => negb (startswith n prefix)) (volumes e))
          (images e)
          (List.filter (fun c => negb (startswith (cname c) prefix)) (conts e))),
     Ping :: ContainersList
       :: flat_map (fun n => [ContainerStop n; ContainerRemove n])
            (List.filter (fun n => startswith n prefix) (map cname (conts e)))
       ++ VolumesList
       :: map VolumeRemove (List.filter (fun n => startswith n prefix) (volumes e))
       ++ NetworksGet project
       :: (if str_in project (networks e) then [NetworkRemove project] else []))
  /\ forall answer service r w' l,
      service <> [] ->
      rm answer project service w = (r, w', l) ->
      networks (engine w') = networks (engine w)
      /\ forall n, ~ In (NetworkRemove n) l.
Proof.
  intros Hr Hnc Hnv prefix e. split.
  - unfold rm.
    assert (Hc : confirm true w = (Ok tt, w, [])) by reflexivity.
    rewrite (bind_ok _ _ _ _ _ _ Hc).
    rewrite (bind_ok _ _ _ _ _ _ (get_docker_client_ok w Hr)).
    assert (Hl : containers_list w
                 = (Ok (map cname (conts (engine w))), w, [ContainersList]))
      by reflexivity.
    rewrite (bind_ok _ _ _ _ _ _ Hl).
    rewrite (bind_ok _ _ _ _ _ _
               (rm_container_loop (project ++ "_") [] (fun n => startswith n prefix)
                  (map cname (conts (engine w)))
                  (fun n => eq_sym (andb_true_r _)) w Hnc
                  (fun n Hn => proj2 (has_container_In n (engine w)) Hn))).
    match goal with
    | |- context [bind volumes_list _ ?w1] =>
        assert (Hv : volumes_list w1 = (Ok (volumes (engine w)), w1, [VolumesList]))
          by reflexivity;
        rewrite (bind_ok _ _ _ _ _ _ Hv)
    end.
    match goal with
    | |- context [bind (for_each _ (rm_volume _ _)) _ ?w1] =>
        rewrite (bind_ok _ _ _ _ _ _
                   (rm_volume_loop (project ++ "_") []
                      (fun n => startswith n prefix) (volumes (engine w))
                      (fun n => eq_sym (andb_true_r _)) w1 Hnv (fun n Hn => Hn)))
    end.
    rewrite network_part_ok. simpl. fold e. fold prefix.
    f_equal. f_equal. f_equal.
    unfold with_networks, with_volumes, with_conts. simpl. f_equal.
    + apply filter_ext_in. intros v Hv'.
      replace (str_in v (volumes e)) with true; [now rewrite andb_true_r|].
      symmetry. now apply str_in_In.
    + apply filter_ext_in. intros c Hcin.
      replace (str_in (cname c) (map cname (conts e))) with true;
        [now rewrite andb_true_r|].
      symmetry. apply str_in_In. now apply in_map.
  - intros answer service r w' l Hs H.
    destruct (rm_filtered_keeps_networks answer project service w Hs
                w r w' l eq_refl H) as [HL Hk].
    split.
    + now destruct r.
    + intros n Hn. rewrite List.Forall_forall in HL.
      destruct (HL _ Hn) as [_ Hc]. discriminate.
Qed.

(** ** Dictionaries and the heap *)

Lemma key_eqb_eq a b : key_eqb a b = true <-> a = b.
Proof.
  destruct a, b; simpl; split; intros H; try discriminate.
  - apply String.eqb_eq in H. now subst.
  - injection H as ->. apply String.eqb_refl.
  - apply Z.eqb_eq in H. now subst.
  - injection H as ->. apply Z.eqb_refl.
Qed.

Lemma key_eqb_refl a : key_eqb a a = true.
Proof. now apply key_eqb_eq. Qed.

Lemma key_eqb_neq a b : key_eqb a b = false <-> a <> b.
Proof.
  rewrite <- key_eqb_eq. destruct (key_eqb a b); split; congruence.
Qed.

Lemma key_eqb_sym a b : key_eqb a b = key_eqb b a.
Proof.
  destruct (key_eqb b a) eqn:H.
  - apply key_eqb_eq in H as ->. apply key_eqb_refl.
  - apply key_eqb_neq. apply key_eqb_neq in H. congruence.
Qed.

Lemma dict_get_set_eq k v d : dict_get k (dict_set k v d) = Some v.
Proof.
  induction d as [|[k' v'] d IH]; simpl.
  - now rewrite key_eqb_refl.
  - destruct (key_eqb k k') eqn:H; simpl; rewrite H; auto.
Qed.

Lemma dict_get_set_ne k k' v d :
  k <> k' -> dict_get k' (dict_set k v d) = dict_get k' d.
Proof.
  intros Hne. induction d as [|[k2 v2] d IH]; simpl.
  - apply key_eqb_neq in Hne. now rewrite key_eqb_sym, Hne.
  - destruct (key_eqb k k2) eqn:H; simpl.
    + apply key_eqb_eq in H as <-.
      apply key_eqb_neq in Hne. now rewrite key_eqb_sym, Hne.
    + now rewrite IH.
Qed.

Lemma dict_get_del_eq k d : dict_get k (dict_del k d) = None.
Proof.
  induction d as [|[k' v'] d IH]; simpl; [reflexivity|].
  destruct (key_eqb k k') eqn:H; simpl; [assumption|]. now rewrite H.
Qed.

Lemma dict_get_del_ne k k' d :
  k <> k' -> dict_get k' (dict_del k d) = dict_get k' d.
Proof.
  intros Hne. induction d as [|[k2 v2] d IH]; simpl; [reflexivity|].
  destruct (key_eqb k k2) eqn:H; simpl.
  - apply key_eqb_eq in H as <-.
    apply key_eqb_neq in Hne. now rewrite key_eqb_sym, Hne.
  - now rewrite IH.
Qed.

Lemma dict_del_absent k d : dict_get k d = None -> dict_del k d = d.
Proof.
  induction d as [|[k' v'] d IH]; simpl; [reflexivity|].
  destruct (key_eqb k k'); [discriminate|]. intros H. now rewrite IH.
Qed.

Lemma dict_get_In k v d : dict_get k d = Some v -> In (k, v) d.
Proof.
  induction d as [|[k' v'] d IH]; simpl; [discriminate|].
  destruct (key_eqb k k') eqn:H.
  - apply key_eqb_eq in H as ->. intros [= ->]. now left.
  - intros Hd. right. auto.
Qed.

Lemma In_dict_get k v d :
  List.NoDup (dict_keys d) -> In (k, v) d -> dict_get k d = Some v.
Proof.
  induction d as [|[k' v'] d IH]; simpl; [tauto|].
  intros Hnd [H|H].
  - injection H as -> ->. now rewrite key_eqb_refl.
  - inversion Hnd as [|? ? Hk Hnd']; subst.
    destruct (key_eqb k k') eqn:He.
    + apply key_eqb_eq in He as ->. exfalso. apply Hk.
      unfold dict_keys. apply in_map_iff. now exists (k', v).
    + now apply IH.
Qed.

(** *** Heap primitives, whatever their outcome *)

Lemma load_inv v w r w' l :
  load v w = (r, w', l) ->
  w' = w /\ l = []
  /\ forall d, r = Ok d -> exists o, v = VRef o /\ heap w !! o = Some d.
Proof.
  unfold load. intros H.
  destruct v; try (inversion H; subst; repeat split; auto; discriminate).
  destruct (heap w !! r0) eqn:Hh; inversion H; subst; repeat split; auto;
    try discriminate.
  intros d' [= ->]. now exists r0.
Qed.

Lemma load_ok o d w : heap w !! o = Some d -> load (VRef o) w = (Ok d, w, []).
Proof. unfold load. now intros ->. Qed.

Lemma getitem_inv v k w r w' l :
  getitem v k w = (r, w', l) ->
  w' = w /\ l = []
  /\ forall x, r = Ok x ->
       exists o d, v = VRef o /\ heap w !! o = Some d /\ dict_get k d = Some x.
Proof.
  unfold getitem. intros H.
  apply bind_inv in H as [[e [H ->]]|[d [w1 [l1 [l2 [H1 [H2 ->]]]]]]].
  - apply load_inv in H as [-> [-> _]]. repeat split; auto. discriminate.
  - apply load_inv in H1 as [-> [-> Hd]]. destruct (Hd d eq_refl) as [o [-> Ho]].
    destruct (dict_get k d) eqn:Hk; inversion H2; subst; repeat split; auto;
      try discriminate.
    intros x [= ->]. now exists o, d.
Qed.

Lemma getitem_ok o d k x w :
  heap w !! o = Some d -> dict_get k d = Some x ->
  getitem (VRef o) k w = (Ok x, w, []).
Proof.
  intros Ho Hk. unfold getitem. rewrite (bind_ok _ _ _ _ _ _ (load_ok _ _ _ Ho)).
  now rewrite Hk.
Qed.

(** The heap after a write to the object [o]. *)
Definition written (o : ref) (d : pydict) (w w' : world) : Prop :=
  heap w' = <[o := d]> (heap w) /\ engine w' = engine w.

Lemma setitem_inv v k x w r w' l :
  setitem v k x w = (r, w', l) ->
  l = []
  /\ ((exists e, r = Raise e /\ w' = w)
      \/ (exists o d, v = VRef o /\ heap w !! o = Some d /\ r = Ok tt
                      /\ written o (dict_set k x d) w w')).
Proof.
  unfold setitem. intros H.
  apply bind_inv in H as [[e [H ->]]|[d [w1 [l1 [l2 [H1 [H2 ->]]]]]]].
  - apply load_inv in H as [-> [-> _]]. split; auto. left. eauto.
  - apply load_inv in H1 as [-> [-> Hd]]. destruct (Hd d eq_refl) as [o [-> Ho]].
    unfold store in H2. inversion H2; subst. split; auto. right.
    exists o, d. repeat split; auto.
Qed.

Lemma pop_default_inv v k dflt w r w' l :
  pop_default v k dflt w = (r, w', l) ->
  l = []
  /\ ((exists e, r = Raise e /\ w' = w)
      \/ (exists o d, v = VRef o /\ heap w !! o = Some d
                      /\ r = Ok (match dict_get k d with Some x => x | None => dflt end)
                      /\ written o (dict_del k d) w w')).
Proof.
  unfold pop_default. intros H.
  apply bind_inv in H as [[e [H ->]]|[d [w1 [l1 [l2 [H1 [H2 ->]]]]]]].
  - apply load_inv in H as [-> [-> _]]. split; auto. left. eauto.
  - apply load_inv in H1 as [-> [-> Hd]]. destruct (Hd d eq_refl) as [o [-> Ho]].
    destruct (dict_get k d) eqn:Hk.
    + unfold bind, store, ret in H2. inversion H2; subst. split; auto. right.
      exists o, d. rewrite Hk. repeat split; auto.
    + inversion H2; subst. split; auto. right.
      exists o, d. rewrite Hk. repeat split; auto.
      rewrite (dict_del_absent _ _ Hk). symmetry. now apply list_insert_id.
Qed.

Lemma pop_inv v k w r w' l :
  pop v k w = (r, w', l) ->
  l = []
  /\ ((exists e, r = Raise e /\ w' = w)
      \/ (exists o d x, v = VRef o /\ heap w !! o = Some d
                        /\ dict_get k d = Some x /\ r = Ok x
                        /\ written o (dict_del k d) w w')).
Proof.
  unfold pop. intros H.
  apply bind_inv in H as [[e [H ->]]|[d [w1 [l1 [l2 [H1 [H2 ->]]]]]]].
  - apply load_inv in H as [-> [-> _]]. split; auto. left. eauto.
  - apply load_inv in H1 as [-> [-> Hd]]. destruct (Hd d eq_refl) as [o [-> Ho]].
    destruct (dict_get k d) eqn:Hk.
    + unfold bind, store, ret in H2. inversion H2; subst. split; auto. right.
      exists o, d, p. repeat split; auto.
    + inversion H2; subst. split; auto. left. eauto.
Qed.

Lemma truth_inv v w r w' l :
  truth v w = (r, w', l) -> r = Ok (truthy (heap w) v) /\ w' = w /\ l = [].
Proof. unfold truth. intros H. now inversion H. Qed.

Lemma written_lookup_eq o d w w' :
  written o d w w' -> o < length (heap w) -> heap w' !! o = Some d.
Proof. intros [-> _] H. now apply list_lookup_insert_eq. Qed.

Lemma written_lookup_ne o d w w' x :
  written o d w w' -> x <> o -> heap w' !! x = heap w !! x.
Proof. intros [-> _] H. apply list_lookup_insert_ne. congruence. Qed.

Lemma written_length o d w w' :
  written o d w w' -> length (heap w') = length (heap w).
Proof. intros [-> _]. apply length_insert. Qed.


(** ** The blocks of [_start_service] *)

Tactic Notation "binv" hyp(H) "as" ident(a) ident(w1) ident(l1) ident(l2) ident(H1) :=
  apply bind_inv in H as [[? [H ->]]|[a [w1 [l1 [l2 [H1 [H ->]]]]]]].

(** The objects a service's options refer to, and the options themselves. *)
Definition refs_of (O : pydict) (x : ref) : Prop :=
  exists k, dict_get k O = Some (VRef x).

Definition footprint (o : ref) (O : pydict) (x : ref) : Prop :=
  x = o \/ refs_of O x.

(** The heap changed at most at the objects in [F]. *)
Definition touches_only (F : ref -> Prop) (w w' : world) : Prop :=
  length (heap w') = length (heap w)
  /\ forall x, ~ F x -> heap w' !! x = heap w !! x.

(** The engine's containers and networks are as they were. *)
Definition engine_quiet (w w' : world) : Prop :=
  conts (engine w') = conts (engine w)
  /\ networks (engine w') = networks (engine w).

Lemma touches_only_refl F w : touches_only F w w.
Proof. split; auto. Qed.

Lemma touches_only_trans F w1 w2 w3 :
  touches_only F w1 w2 -> touches_only F w2 w3 -> touches_only F w1 w3.
Proof.
  intros [Hl1 H1] [Hl2 H2]. split; [congruence|].
  intros x Hx. rewrite H2, H1; auto.
Qed.

Lemma touches_only_written (F : ref -> Prop) o d w w' :
  written o d w w' -> F o -> touches_only F w w'.
Proof.
  intros Hw Ho. split; [eapply written_length; eauto|].
  intros x Hx. eapply written_lookup_ne; eauto. congruence.
Qed.

Lemma touches_only_weaken (F G : ref -> Prop) w w' :
  touches_only F w w' -> (forall x, F x -> G x) -> touches_only G w w'.
Proof. intros [Hl H] HFG. split; auto. Qed.

Lemma engine_quiet_refl w : engine_quiet w w.
Proof. split; auto. Qed.

Lemma engine_quiet_trans w1 w2 w3 :
  engine_quiet w1 w2 -> engine_quiet w2 w3 -> engine_quiet w1 w3.
Proof. intros [? ?] [? ?]. split; congruence. Qed.

Lemma engine_quiet_eq w w' : engine w' = engine w -> engine_quiet w w'.
Proof. intros H. unfold engine_quiet. now rewrite H. Qed.

Definition snuba_command : pyval := VList [VStr "devserver"; VStr "--no-workers"].

Lemma snuba_override_inv name o O w r w' l :
  heap w !! o = Some O -> ~ refs_of O o ->
  snuba_override name (VRef o) w = (r, w', l) ->
  l = [] /\ engine w' = engine w /\ touches_only (footprint o O) w w'
  /\ exists O', heap w' !! o = Some O'
                /\ (O' = O \/ O' = dict_set (KStr "command") snuba_command O).
Proof.
  intros Ho Hself H. unfold snuba_override in H.
  destruct (key_eqb name (KStr "snuba")
            && str_contains "snuba" (SENTRY_EVENTSTREAM settings)).
  2:{ inversion H; subst. split_and!; auto using touches_only_refl.
      exists O; auto. }
  binv H as env w1 l1 l2 H1.
  { apply getitem_inv in H as [-> [-> _]].
    split_and!; auto using touches_only_refl. exists O; auto. }
  apply getitem_inv in H1 as [-> [-> Henv]].
  destruct (Henv env eq_refl) as [o' [d [[= <-] [Hd Hk]]]].
  rewrite Ho in Hd. injection Hd as <-.
  binv H as x w2 l3 l4 H2.
  { apply pop_default_inv in H as [-> [[e [_ ->]]|[e [d [-> [_ [? _]]]]]]];
      [|discriminate].
    split_and!; auto using touches_only_refl. exists O; auto. }
  apply pop_default_inv in H2 as [-> [[e [? _]]|[e [d [-> [Hd [_ Hw]]]]]]];
    [discriminate|].
  assert (Heo : e <> o). { intros ->. apply Hself. now exists (KStr "environment"). }
  assert (Ht : touches_only (footprint o O) w w2).
  { eapply touches_only_written; eauto. right. now exists (KStr "environment"). }
  assert (Ho2 : heap w2 !! o = Some O).
  { rewrite <- Ho. eapply written_lookup_ne; eauto. }
  apply setitem_inv in H as [-> [[e' [-> ->]]|[o' [d' [[= <-] [Hd' [-> Hw']]]]]]].
  { split_and!; auto; [apply Hw|]. exists O; auto. }
  rewrite Ho2 in Hd'. injection Hd' as <-.
  split_and!.
  - reflexivity.
  - destruct Hw as [_ <-]. apply Hw'.
  - eapply touches_only_trans; [exact Ht|].
    eapply touches_only_written; eauto. now left.
  - eexists. split; [|right; reflexivity].
    eapply written_lookup_eq; eauto. eapply lookup_lt_Some; eauto.
Qed.


Lemma Forall_False_nil {A} (l : list A) : Forall (fun _ => False) l -> l = [].
Proof. destruct l; [reflexivity|]. intros H. inversion H. contradiction. Qed.

Lemma format_value_inv v cs w r w' l :
  format_value v cs w = (r, w', l) -> w' = w /\ l = [].
Proof.
  unfold format_value. intros H.
  destruct v; try (inversion H; subst; now split).
  destruct (format (heap w) cs s); inversion H; subst; now split.
Qed.

Lemma interpolate_one_inv o O e item cs w r w' l :
  heap w !! o = Some O ->
  dict_get (KStr "environment") O = Some (VRef e) -> e <> o ->
  interpolate_one (VRef o) cs item w = (r, w', l) ->
  l = [] /\ engine w' = engine w
  /\ touches_only (fun x => x = e) w w' /\ heap w' !! o = Some O.
Proof.
  intros Ho He Heo H. unfold interpolate_one in H. destruct item as [key value].
  binv H as s w1 l1 l2 H1.
  { apply format_value_inv in H as [-> ->].
    split_and!; auto using touches_only_refl. }
  apply format_value_inv in H1 as [-> ->].
  binv H as env w2 l3 l4 H2.
  { apply getitem_inv in H as [-> [-> _]].
    split_and!; auto using touches_only_refl. }
  apply getitem_inv in H2 as [-> [-> Henv]].
  destruct (Henv env eq_refl) as [o' [d [[= <-] [Hd Hk]]]].
  rewrite Ho in Hd. injection Hd as <-. rewrite He in Hk. injection Hk as <-.
  apply setitem_inv in H as [-> [[e' [-> ->]]|[o' [d' [[= <-] [Hd' [-> Hw']]]]]]].
  { split_and!; auto using touches_only_refl. }
  split_and!; auto.
  - apply Hw'.
  - eapply touches_only_written; eauto.
  - rewrite <- Ho. eapply written_lookup_ne; eauto.
Qed.

Lemma interpolate_environment_inv o O cs w r w' l :
  heap w !! o = Some O -> ~ refs_of O o ->
  interpolate_environment (VRef o) cs w = (r, w', l) ->
  l = [] /\ engine w' = engine w
  /\ touches_only (footprint o O) w w' /\ heap w' !! o = Some O.
Proof.
  intros Ho Hself H. unfold interpolate_environment in H.
  binv H as env w1 l1 l2 H1.
  { apply getitem_inv in H as [-> [-> _]].
    split_and!; auto using touches_only_refl. }
  apply getitem_inv in H1 as [-> [-> Henv]].
  destruct (Henv env eq_refl) as [o' [d [[= <-] [Hd Hk]]]].
  rewrite Ho in Hd. injection Hd as <-.
  binv H as its w2 l3 l4 H2.
  { apply load_inv in H as [-> [-> _]].
    split_and!; auto using touches_only_refl. }
  apply load_inv in H2 as [-> [-> Hits]].
  destruct (Hits its eq_refl) as [e [-> He]].
  assert (Heo : e <> o). { intros ->. apply Hself. now exists (KStr "environment"). }
  pose (I := fun w2 : world =>
               engine w2 = engine w /\ touches_only (fun x => x = e) w w2
               /\ heap w2 !! o = Some O).
  destruct (for_each_invariant (interpolate_one (VRef o) cs) I (fun _ => False) its)
    with (w := w) (r := r) (w' := w') (l := l4) as [[HI1 [HI2 HI3]] HL]; trivial.
  - intros x w2 r2 w2' l2 _ [HI1 [HI2 HI3]] Hb.
    destruct (interpolate_one_inv o O e x cs w2 r2 w2' l2 HI3 Hk Heo Hb)
      as [-> [He2 [Ht2 Ho2]]].
    split; [|constructor]. split_and!; auto; [congruence|].
    eapply touches_only_trans; eauto.
  - split_and!; auto using touches_only_refl.
  - apply Forall_False_nil in HL as ->. split_and!; auto.
    eapply touches_only_weaken; eauto. intros x ->. right.
    now exists (KStr "environment").
Qed.

Lemma pop_flag_inv o O k dflt w r w' l :
  heap w !! o = Some O ->
  pop_default (VRef o) k dflt w = (r, w', l) ->
  l = [] /\ engine w' = engine w
  /\ touches_only (footprint o O) w w'
  /\ ((exists e, r = Raise e /\ heap w' !! o = Some O)
      \/ (r = Ok (match dict_get k O with Some x => x | None => dflt end)
          /\ heap w' !! o = Some (dict_del k O))).
Proof.
  intros Ho H.
  apply pop_default_inv in H as [-> [[e [-> ->]]|[o' [d [[= <-] [Hd [-> Hw]]]]]]].
  - split_and!; auto using touches_only_refl. left. eauto.
  - rewrite Ho in Hd. injection Hd as <-. split_and!; auto.
    + apply Hw.
    + eapply touches_only_written; eauto. now left.
    + right. split; [reflexivity|].
      eapply written_lookup_eq; eauto. eapply lookup_lt_Some; eauto.
Qed.

(** *** Image freshness *)

Definition is_pull (c : call) : bool :=
  match c with ImagesPull _ => true | _ => false end.

Definition image_call (c : call) : Prop :=
  match c with ImagesGet _ | ImagesPull _ => True | _ => False end.

Definition volume_call (c : call) : Prop :=
  match c with VolumesGet _ | VolumesCreate _ => True | _ => False end.

Lemma as_str_inv v w r w' l :
  as_str v w = (r, w', l) -> w' = w /\ l = [] /\ forall s, r = Ok s -> v = VStr s.
Proof.
  unfold as_str. intros H.
  destruct v; inversion H; subst; split_and!; auto; try discriminate.
  now intros s0 [= ->].
Qed.

Lemma image_of_inv options w r w' l :
  image_of options w = (r, w', l) ->
  w' = w /\ l = []
  /\ forall i, r = Ok i ->
       exists o O, options = VRef o /\ heap w !! o = Some O
                   /\ dict_get (KStr "image") O = Some (VStr i).
Proof.
  unfold image_of. intros H.
  binv H as v w1 l1 l2 H1.
  { apply getitem_inv in H as [-> [-> _]]. split_and!; auto. discriminate. }
  apply getitem_inv in H1 as [-> [-> Hv]].
  apply as_str_inv in H as [-> [-> Hs]]. split_and!; auto.
  intros i ->. destruct (Hv v eq_refl) as [o [O [-> [HO Hk]]]].
  rewrite (Hs i eq_refl) in Hk. now exists o, O.
Qed.

Lemma image_of_raise options w e w' l :
  image_of options w = (Raise e, w', l) -> is_NotFound e = false.
Proof.
  unfold image_of, getitem, load, as_str, bind, ret, raise. intros H.
  repeat case_scrutinee H; inversion H; subst; reflexivity.
Qed.

Lemma images_pull_inv i w r w' l :
  images_pull i w = (r, w', l) ->
  r = Ok tt /\ l = [ImagesPull i] /\ heap w' = heap w /\ engine_quiet w w'
  /\ volumes (engine w') = volumes (engine w).
Proof. intros H. prim_inv H; split_and!; auto using engine_quiet_refl; now split. Qed.

Lemma images_get_inv i w r w' l :
  images_get i w = (r, w', l) ->
  w' = w /\ l = [ImagesGet i]
  /\ ((r = Ok tt /\ str_in i (images (engine w)) = true)
      \/ (r = Raise NotFound /\ str_in i (images (engine w)) = false)).
Proof. intros H. prim_inv H; split_and!; auto. Qed.

Lemma refresh_image_inv options pull fast w r w' l :
  refresh_image options pull fast w = (r, w', l) ->
  heap w' = heap w /\ engine_quiet w w'
  /\ volumes (engine w') = volumes (engine w)
  /\ Forall image_call l
  /\ (fast = true -> l = [])
  /\ (fast = false -> r = Ok tt ->
      exists o O i,
        options = VRef o /\ heap w !! o = Some O
        /\ dict_get (KStr "image") O = Some (VStr i)
        /\ List.filter is_pull l =
             if truthy (heap w) pull then [ImagesPull i]
             else if str_in i (images (engine w)) then []
                  else [ImagesPull i]).
Proof.
  unfold refresh_image. intros H. destruct fast; simpl in H.
  { inversion H; subst. split_and!; auto using engine_quiet_refl; discriminate. }
  binv H as p wp lp lq Hp.
  { apply truth_inv in H as [? _]. discriminate. }
  apply truth_inv in Hp as [[= ->] [-> ->]]. simpl.
  destruct (truthy (heap w) pull).
  - binv H as i w1 l1 l2 H1.
    { apply image_of_inv in H as [-> [-> _]].
      split_and!; auto using engine_quiet_refl; discriminate. }
    apply image_of_inv in H1 as [-> [-> Hi]].
    destruct (Hi i eq_refl) as [o [O [-> [HO Hk]]]].
    apply images_pull_inv in H as [-> [-> [Hh [Hq Hv]]]].
    split_and!; auto; [now repeat constructor|discriminate|].
    intros _ _. now exists o, O, i.
  - apply try_except_inv in H as [[H Hc]|[e [wa [la [lb [Ha [Hc [Hb ->]]]]]]]].
    + binv H as i w1 l1 l2 H1.
      { apply image_of_inv in H as [-> [-> _]].
        split_and!; auto using engine_quiet_refl; discriminate. }
      apply image_of_inv in H1 as [-> [-> Hi]].
      destruct (Hi i eq_refl) as [o [O [-> [HO Hk]]]].
      apply images_get_inv in H as [-> [-> [[-> Hin]|[-> Hin]]]].
      * split_and!; auto using engine_quiet_refl;
          [now repeat constructor|discriminate|].
        intros _ _. exists o, O, i. now rewrite Hin.
      * discriminate.
    + apply bind_inv in Ha as [[e0 [Ha [= <-]]]|[i [w1 [l1 [l2 [H1 [Ha ->]]]]]]].
      { apply image_of_raise in Ha. congruence. }
      pose proof H1 as Himg.
      apply image_of_inv in H1 as [-> [-> Hi]].
      destruct (Hi i eq_refl) as [o [O [-> [HO Hk]]]].
      apply images_get_inv in Ha as [-> [-> [[? _]|[_ Hin]]]]; [discriminate|].
      unfold bind in Hb. rewrite Himg in Hb.
      destruct (images_pull i w) as [[r3 w3] l3] eqn:Hp.
      apply images_pull_inv in Hp as [-> [-> [Hh [Hq Hv]]]].
      inversion Hb; subst.
      split_and!; auto; [now repeat constructor|discriminate|].
      intros _ _. exists o, O, i. now rewrite Hin.
Qed.


(** *** Named volumes *)

Lemma get_or_create_volume_inv n w r w' l :
  get_or_create Volume n w = (r, w', l) ->
  heap w' = heap w /\ engine_quiet w w'
  /\ images (engine w') = images (engine w)
  /\ Forall volume_call l.
Proof.
  unfold get_or_create, try_except. intros H. prim_inv H;
    split_and!; auto using engine_quiet_refl;
    try (now repeat constructor); try (now split).
Qed.

Lemma key_str_inv k w r w' l :
  key_str k w = (r, w', l) -> w' = w /\ l = [].
Proof. unfold key_str. intros H. destruct k; inversion H; now split. Qed.

Lemma materialize_one_inv o O project mount w r w' l :
  heap w !! o = Some O -> ~ refs_of O o ->
  materialize_one (VRef o) project mount w = (r, w', l) ->
  touches_only (footprint o O) w w' /\ heap w' !! o = Some O
  /\ engine_quiet w w' /\ images (engine w') = images (engine w)
  /\ Forall volume_call l.
Proof.
  intros Ho Hself H. unfold materialize_one in H.
  binv H as m wm lm lm' Hm.
  { apply key_str_inv in H as [-> ->].
    split_and!; auto using touches_only_refl, engine_quiet_refl. }
  apply key_str_inv in Hm as [-> ->]. simpl.
  destruct (negb (str_contains "/" m)).
  2:{ inversion H; subst.
      split_and!; auto using touches_only_refl, engine_quiet_refl. }
  binv H as v wv lv lv' Hv.
  { apply get_or_create_volume_inv in H as [Hh [Hq [Hi HL]]].
    split_and!; auto; [|congruence]. split; [congruence|]. intros; congruence. }
  apply get_or_create_volume_inv in Hv as [Hh [Hq [Hi HL]]].
  assert (Ho1 : heap wv !! o = Some O) by congruence.
  assert (Ht1 : touches_only (footprint o O) w wv).
  { split; [congruence|]. intros; congruence. }
  assert (Hdone : forall l2, Forall volume_call l2 -> Forall volume_call (lv ++ l2)).
  { intros l2 Hl2. apply Forall_app. now split. }
  binv H as vols w1 l1 l1' H1.
  { apply getitem_inv in H as [-> [-> _]]. split_and!; auto. }
  apply getitem_inv in H1 as [-> [-> Hvols]].
  destruct (Hvols vols eq_refl) as [o' [d [[= <-] [Hd Hk]]]].
  rewrite Ho1 in Hd. injection Hd as <-.
  binv H as x w2 l2 l2' H2.
  { apply pop_inv in H as [-> [[? [_ ->]]|[? [? [? [_ [_ [_ [? _]]]]]]]]];
      [|discriminate]. split_and!; auto. }
  apply pop_inv in H2 as [-> [[? [? _]]|[vr [dv [x' [-> [Hd [Hx [[= <-] Hw]]]]]]]]];
    [discriminate|].
  assert (Hvo : vr <> o). { intros ->. apply Hself. now exists (KStr "volumes"). }
  assert (Hfv : footprint o O vr). { right. now exists (KStr "volumes"). }
  assert (Ho2 : heap w2 !! o = Some O).
  { rewrite <- Ho1. eapply written_lookup_ne; eauto. }
  assert (Ht2 : touches_only (footprint o O) w w2).
  { eapply touches_only_trans; eauto. eapply touches_only_written; eauto. }
  assert (Hq2 : engine_quiet w w2).
  { eapply engine_quiet_trans; eauto. apply engine_quiet_eq, Hw. }
  assert (Hi2 : images (engine w2) = images (engine w)).
  { destruct Hw as [_ ->]. assumption. }
  binv H as vols' w3 l3 l3' H3.
  { apply getitem_inv in H as [-> [-> _]]. split_and!; auto. }
  apply getitem_inv in H3 as [-> [-> Hvols']].
  destruct (Hvols' vols' eq_refl) as [o' [d' [[= <-] [Hd' Hk']]]].
  rewrite Ho2 in Hd'. injection Hd' as <-. rewrite Hk in Hk'. injection Hk' as <-.
  apply setitem_inv in H as [-> [[e' [-> ->]]|[o' [d' [[= <-] [Hd' [-> Hw']]]]]]].
  { split_and!; auto. }
  split_and!; auto.
  - eapply touches_only_trans; eauto. eapply touches_only_written; eauto.
  - rewrite <- Ho2. eapply written_lookup_ne; eauto.
  - eapply engine_quiet_trans; eauto. apply engine_quiet_eq, Hw'.
  - destruct Hw' as [_ ->]. assumption.
Qed.

Lemma volume_keys_inv options w r w' l :
  volume_keys options w = (r, w', l) -> w' = w /\ l = [].
Proof.
  unfold volume_keys, keys. intros H.
  binv H as d w1 l1 l1' H1.
  { apply load_inv in H as [-> [-> _]]. now split. }
  apply load_inv in H1 as [-> [-> _]].
  destruct (dict_get (KStr "volumes") d); [|inversion H; now split].
  binv H as d2 w2 l2 l2' H2.
  { apply load_inv in H as [-> [-> _]]. now split. }
  apply load_inv in H2 as [-> [-> _]]. inversion H; now split.
Qed.

Lemma materialize_volumes_inv o O project w r w' l :
  heap w !! o = Some O -> ~ refs_of O o ->
  materialize_volumes (VRef o) project w = (r, w', l) ->
  touches_only (footprint o O) w w' /\ heap w' !! o = Some O
  /\ engine_quiet w w' /\ images (engine w') = images (engine w)
  /\ Forall volume_call l.
Proof.
  intros Ho Hself H. unfold materialize_volumes in H.
  binv H as mounts w1 l1 l1' H1.
  { apply volume_keys_inv in H as [-> ->].
    split_and!; auto using touches_only_refl, engine_quiet_refl. }
  apply volume_keys_inv in H1 as [-> ->]. simpl.
  pose (I := fun w2 : world =>
               touches_only (footprint o O) w w2 /\ heap w2 !! o = Some O
               /\ engine_quiet w w2 /\ images (engine w2) = images (engine w)).
  destruct (for_each_invariant (materialize_one (VRef o) project) I volume_call mounts)
    with (w := w) (r := r) (w' := w') (l := l1') as [[HI1 [HI2 [HI3 HI4]]] HL];
    trivial.
  - intros x w2 r2 w2' l2 _ [HI1 [HI2 [HI3 HI4]]] Hb.
    destruct (materialize_one_inv o O project x w2 r2 w2' l2 HI2 Hself Hb)
      as [Ht [Ho2 [Hq [Hi HL]]]].
    split; [|assumption]. split_and!; auto; [| |congruence].
    + eapply touches_only_trans; eauto.
    + eapply engine_quiet_trans; eauto.
  - split_and!; auto using touches_only_refl, engine_quiet_refl.
  - split_and!; auto.
Qed.

Lemma listening_inv options w r w' l :
  listening options w = (r, w', l) -> w' = w /\ l = [].
Proof.
  unfold listening. intros H.
  binv H as p w1 l1 l1' H1.
  { apply getitem_inv in H as [-> [-> _]]. now split. }
  apply getitem_inv in H1 as [-> [-> _]].
  binv H as t w2 l2 l2' H2.
  { apply truth_inv in H as [? _]. discriminate. }
  apply truth_inv in H2 as [_ [-> ->]].
  destruct t; [|inversion H; now split].
  binv H as d w3 l3 l3' H3.
  { apply load_inv in H as [-> [-> _]]. now split. }
  apply load_inv in H3 as [-> [-> _]]. inversion H; now split.
Qed.


(** *** Reconciling with the engine *)

(** The containers of the engine other than [n]. *)
Definition others (n : string) (e : docker) : list container :=
  List.filter (fun c => negb (cname c =? n)%string) (conts e).

Definition is_running (n : string) (e : docker) : bool :=
  match find_container n e with
  | Some c => crunning c
  | None => false
  end.

(** The engine changed at most at the container [n]. *)
Definition only_container (n : string) (w w' : world) : Prop :=
  heap w' = heap w
  /\ reachable (engine w') = reachable (engine w)
  /\ networks (engine w') = networks (engine w)
  /\ volumes (engine w') = volumes (engine w)
  /\ images (engine w') = images (engine w)
  /\ others n (engine w') = others n (engine w).

Lemma only_container_refl n w : only_container n w w.
Proof. unfold only_container. auto 10. Qed.

Lemma only_container_trans n w1 w2 w3 :
  only_container n w1 w2 -> only_container n w2 w3 -> only_container n w1 w3.
Proof.
  unfold only_container. intros (?&?&?&?&?&?) (?&?&?&?&?&?).
  split_and!; congruence.
Qed.

Definition start_calls (bw always_start : bool) (cn : string) : list call :=
  if bw && negb always_start then [] else [ContainerStart cn].

Lemma lookup_container_ok o O cn w :
  heap w !! o = Some O -> dict_get (KStr "name") O = Some (VStr cn) ->
  lookup_container (VRef o) w =
    (Ok (if has_container cn (engine w) then Some cn else None), w,
     [ContainersGet cn]).
Proof.
  intros Ho Hn. unfold lookup_container, try_except.
  rewrite (bind_ok _ _ _ _ _ _ (getitem_ok _ _ _ _ _ Ho Hn)).
  unfold as_str, containers_get, bind, log, get_engine, ret, raise. simpl.
  now destruct (has_container cn (engine w)).
Qed.

Lemma container_start_ok n w :
  has_container n (engine w) = true ->
  container_start n w =
    (Ok tt,
     World (heap w) (with_conts (engine w) (map (set_running n true) (conts (engine w)))),
     [ContainerStart n]).
Proof.
  intros H. unfold container_start, bind, log, get_engine, put_engine. simpl.
  now rewrite H.
Qed.

Lemma has_container_set_running n m b e :
  has_container n (with_conts e (map (set_running m b) (conts e)))
  = has_container n e.
Proof.
  unfold has_container. simpl.
  induction (conts e) as [|c cs IH]; simpl; [reflexivity|].
  now rewrite cname_set_running, IH.
Qed.

Lemma is_running_started n e :
  has_container n e = true ->
  is_running n (with_conts e (map (set_running n true) (conts e))) = true.
Proof.
  unfold is_running, find_container, has_container. simpl.
  induction (conts e) as [|c cs IH]; simpl; [discriminate|].
  rewrite cname_set_running.
  destruct (cname c =? n)%string eqn:Hc; simpl.
  - intros _. unfold set_running. now rewrite Hc.
  - exact IH.
Qed.

Lemma only_container_set_running n b w :
  only_container n w
    (World (heap w) (with_conts (engine w) (map (set_running n b) (conts (engine w))))).
Proof.
  unfold only_container, others. simpl. split_and!; auto.
  apply filter_out_set_running.
Qed.

Lemma others_remove n e :
  List.filter (fun c => negb (cname c =? n)%string)
    (List.filter (fun c => negb (cname c =? n)%string) (conts e))
  = others n e.
Proof.
  unfold others. apply filter_filter_ext. intros c _. apply andb_diag.
Qed.

Lemma has_container_removed n e :
  has_container n
    (with_conts e (List.filter (fun c => negb (cname c =? n)%string) (conts e)))
  = false.
Proof.
  unfold has_container. simpl.
  induction (conts e) as [|c cs IH]; simpl; [reflexivity|].
  destruct (cname c =? n)%string eqn:Hc; simpl; [assumption|].
  now rewrite Hc.
Qed.

Lemma reuse_or_remove_ok pull wd fast always_start cn w :
  has_container cn (engine w) = true ->
  let bp := truthy (heap w) pull in
  let bw := truthy (heap w) wd in
  exists w',
    only_container cn w w'
    /\ if negb bp || bw || fast then
         reuse_or_remove pull wd fast always_start cn w
         = (Ok (Some cn), w', start_calls bw always_start cn)
         /\ has_container cn (engine w') = true
         /\ (bw && negb always_start = false -> is_running cn (engine w') = true)
       else
         reuse_or_remove pull wd fast always_start cn w
         = (Ok None, w', [ContainerStop cn; ContainerRemove cn])
         /\ has_container cn (engine w') = false.
Proof.
  intros Hhas bp bw. unfold reuse_or_remove.
  assert (Hp : truth pull w = (Ok bp, w, [])) by reflexivity.
  assert (Hw : truth wd w = (Ok bw, w, [])) by reflexivity.
  rewrite (bind_ok _ _ _ _ _ _ Hp), (bind_ok _ _ _ _ _ _ Hw).
  assert (Hreuse : (if bw || fast then true else negb bp) = (negb bp || bw || fast)).
  { destruct bp, bw, fast; reflexivity. }
  rewrite Hreuse. destruct (negb bp || bw || fast).
  - rewrite (bind_ok _ _ _ _ _ _ Hw). unfold start_calls.
    destruct (bw && negb always_start).
    + exists w. split; [apply only_container_refl|]. split_and!; auto. discriminate.
    + rewrite (bind_ok _ _ _ _ _ _ (container_start_ok cn w Hhas)).
      eexists. split; [apply only_container_set_running|].
      split_and!; [reflexivity| |].
      * simpl. now rewrite has_container_set_running.
      * intros _. simpl. now apply is_running_started.
  - pose proof (stop_remove_ok cn w Hhas) as Hsr.
    rewrite (bind_ok _ _ _ _ _ _ (container_stop_ok cn w Hhas)).
    unfold bind in Hsr. rewrite (container_stop_ok cn w Hhas) in Hsr.
    destruct (container_remove cn _) as [[r2 w2] l2] eqn:Hrm.
    inversion Hsr; subst. rewrite (bind_ok _ _ _ _ _ _ Hrm). simpl. unfold ret.
    eexists. split; [|split; [reflexivity|]].
    + unfold only_container. simpl. split_and!; auto. apply others_remove.
    + simpl. apply has_container_removed.
Qed.


Lemma containers_create_inv o O cn w r w' l :
  heap w !! o = Some O -> dict_get (KStr "name") O = Some (VStr cn) ->
  has_container cn (engine w) = false ->
  containers_create (VRef o) w = (r, w', l) ->
  (exists e, r = Raise e /\ w' = w /\ l = [])
  \/ (exists i ports,
        r = Ok cn /\ l = [ContainersCreate cn]
        /\ w' = World (heap w)
                  (with_conts (engine w)
                     (Container cn i ports false :: conts (engine w)))).
Proof.
  intros Ho Hn Hhas H. unfold containers_create in H.
  rewrite (bind_ok _ _ _ _ _ _ (load_ok _ _ _ Ho)) in H.
  destruct (negb (all_str_keys O)).
  { inversion H; subst. left. eauto. }
  rewrite Hn in H.
  destruct (dict_get (KStr "image") O) as [[| | |i| | | |]|];
    try (inversion H; subst; left; eauto; fail).
  destruct (match dict_get (KStr "ports") O with
            | Some (VRef r0) => load (VRef r0)
            | _ => ret []
            end w) as [[[ports|e] w1] l1] eqn:Hp.
  2:{ rewrite (bind_raise _ _ _ _ _ _ Hp) in H. simpl in H.
      assert (w1 = w /\ l1 = []) as [-> ->].
      { destruct (dict_get (KStr "ports") O) as [[]|];
          try (inversion Hp; now split).
        apply load_inv in Hp as [-> [-> _]]. now split. }
      inversion H; subst. left. eauto. }
  assert (w1 = w /\ l1 = []) as [-> ->].
  { destruct (dict_get (KStr "ports") O) as [[]|];
      try (inversion Hp; now split).
    apply load_inv in Hp as [-> [-> _]]. now split. }
  rewrite (bind_ok _ _ _ _ _ _ Hp) in H.
  unfold bind, log, get_engine, put_engine, ret, raise in H. simpl in H.
  rewrite Hhas in H. inversion H; subst. right. now exists i, ports.
Qed.

Lemma has_container_created n i p e :
  has_container n (with_conts e (Container n i p false :: conts e)) = true.
Proof. unfold has_container. simpl. now rewrite String.eqb_refl. Qed.

Lemma only_container_created n i p w :
  only_container n w
    (World (heap w) (with_conts (engine w) (Container n i p false :: conts (engine w)))).
Proof.
  unfold only_container, others. simpl. split_and!; auto.
  now rewrite String.eqb_refl.
Qed.

Lemma create_and_start_inv o O cn wd always_start w r w' l :
  heap w !! o = Some O -> dict_get (KStr "name") O = Some (VStr cn) ->
  has_container cn (engine w) = false ->
  create_and_start (VRef o) wd always_start w = (r, w', l) ->
  let bw := truthy (heap w) wd in
  (r = Ok cn /\ l = ContainersCreate cn :: start_calls bw always_start cn
   /\ only_container cn w w'
   /\ has_container cn (engine w') = true
   /\ (bw && negb always_start = false -> is_running cn (engine w') = true))
  \/ (exists e, r = Raise e /\ l = [] /\ w' = w).
Proof.
  intros Ho Hn Hhas H bw. unfold create_and_start in H.
  rewrite (bind_ok _ _ _ _ _ _ (getitem_ok _ _ _ _ _ Ho Hn)) in H.
  destruct (containers_create (VRef o) w) as [[rc wc] lc] eqn:Hc.
  destruct (containers_create_inv _ _ _ _ _ _ _ Ho Hn Hhas Hc)
    as [[e [-> [-> ->]]]|[i [ports [-> [-> ->]]]]].
  { rewrite (bind_raise _ _ _ _ _ _ Hc) in H. inversion H; subst. right. eauto. }
  rewrite (bind_ok _ _ _ _ _ _ Hc) in H.
  match type of H with
  | context [bind (truth wd) _ ?w1] =>
      assert (Ht : truth wd w1 = (Ok bw, w1, [])) by reflexivity;
      rewrite (bind_ok _ _ _ _ _ _ Ht) in H
  end.
  unfold start_calls. left.
  destruct (bw && negb always_start).
  - inversion H; subst. split_and!; auto.
    + apply only_container_created.
    + apply has_container_created.
    + discriminate.
  - match type of H with
    | context [bind (container_start cn) _ ?w1] =>
        rewrite (bind_ok _ _ _ _ _ _
                   (container_start_ok cn w1 (has_container_created _ _ _ _))) in H
    end.
    inversion H; subst. split_and!; auto.
    + eapply only_container_trans; [apply only_container_created|].
      apply (only_container_set_running cn true
               (World (heap w) (with_conts (engine w)
                                  (Container cn i ports false :: conts (engine w))))).
    + etransitivity;
        [apply (has_container_set_running cn cn true
                  (with_conts (engine w)
                     (Container cn i ports false :: conts (engine w))))
        |apply has_container_created].
    + intros _. simpl.
      apply (is_running_started cn
               (with_conts (engine w) (Container cn i ports false :: conts (engine w)))).
      apply has_container_created.
Qed.


(** What [reconcile] does with the container [cn] of the options, by the
    flags and by whether the container exists. *)
Lemma reconcile_inv o O cn pull wd fast always_start w r w' l :
  heap w !! o = Some O -> dict_get (KStr "name") O = Some (VStr cn) ->
  reconcile (VRef o) pull wd fast always_start w = (r, w', l) ->
  let bp := truthy (heap w) pull in
  let bw := truthy (heap w) wd in
  let had := has_container cn (engine w) in
  only_container cn w w'
  /\ exists calls,
      l = ContainersGet cn :: calls
      /\ if had && (negb bp || bw || fast) then
           r = Ok cn /\ calls = start_calls bw always_start cn
           /\ has_container cn (engine w') = true
           /\ (bw && negb always_start = false -> is_running cn (engine w') = true)
         else
           let pre := if had then [ContainerStop cn; ContainerRemove cn] else [] in
           (r = Ok cn
            /\ calls = pre ++ ContainersCreate cn :: start_calls bw always_start cn
            /\ has_container cn (engine w') = true
            /\ (bw && negb always_start = false -> is_running cn (engine w') = true))
           \/ (exists e, r = Raise e /\ calls = pre
                         /\ has_container cn (engine w') = false).
Proof.
  intros Ho Hn H bp bw had. unfold reconcile in H.
  rewrite (bind_ok _ _ _ _ _ _ (lookup_container_ok _ _ _ _ Ho Hn)) in H.
  fold had in H. destruct had eqn:Hhad; simpl.
  - destruct (reuse_or_remove_ok pull wd fast always_start cn w Hhad)
      as [w1 [Hoc Hru]]. fold bp bw in Hru.
    destruct (negb bp || bw || fast).
    + destruct Hru as [Hru [Hh Hrun]].
      rewrite (bind_ok _ _ _ _ _ _ Hru) in H. inversion H; subst.
      split; [assumption|]. eexists. split; [reflexivity|].
      rewrite app_nil_r. auto.
    + destruct Hru as [Hru Hh].
      rewrite (bind_ok _ _ _ _ _ _ Hru) in H.
      destruct (create_and_start (VRef o) wd always_start w1)
        as [[rc wc] lc] eqn:Hc.
      inversion H; subst.
      assert (Ho1 : heap w1 !! o = Some O) by (destruct Hoc as [-> _]; assumption).
      assert (Hbw : truthy (heap w1) wd = bw) by (destruct Hoc as [-> _]; reflexivity).
      destruct (create_and_start_inv _ _ _ _ _ _ _ _ _ Ho1 Hn Hh Hc)
        as [[-> [-> [Hoc2 [Hh2 Hrun]]]]|[e [-> [-> ->]]]]; rewrite ?Hbw in *.
      * split; [eapply only_container_trans; eauto|].
        eexists. split; [reflexivity|]. left. auto.
      * split; [assumption|].
        eexists. split; [reflexivity|]. right. exists e. auto.
  - assert (Hr : @ret (option string) None w = (Ok None, w, [])) by reflexivity.
    rewrite (bind_ok _ _ _ _ _ _ Hr) in H.
    destruct (create_and_start (VRef o) wd always_start w) as [[rc wc] lc] eqn:Hc.
    simpl in H. inversion H; subst.
    destruct (create_and_start_inv _ _ _ _ _ _ _ _ _ Ho Hn Hhad Hc)
      as [[-> [-> [Hoc2 [Hh2 Hrun]]]]|[e [-> [-> ->]]]].
    + split; [assumption|]. eexists. split; [reflexivity|]. left. auto.
    + split; [apply only_container_refl|].
      eexists. split; [reflexivity|]. right. exists e. auto.
Qed.


(** *** The whole of [_start_service] *)

(** Before it turns to the engine's containers, [_start_service] changes the
    heap within the footprint of the options and issues image and volume
    calls only. *)
Definition phase1 (o : ref) (O : pydict) (fast : bool) (w w1 : world)
    (l1 : list call) : Prop :=
  touches_only (footprint o O) w w1
  /\ engine_quiet w w1
  /\ Forall (fun c => image_call c \/ volume_call c) l1
  /\ (fast = true -> Forall volume_call l1).

Lemma phase1_refl o O fast w : phase1 o O fast w w [].
Proof.
  split_and!; auto using touches_only_refl, engine_quiet_refl.
Qed.

Lemma phase1_step o O fast w w1 l1 w2 l2 :
  phase1 o O fast w w1 l1 ->
  touches_only (footprint o O) w1 w2 -> engine_quiet w1 w2 ->
  Forall (fun c => image_call c \/ volume_call c) l2 ->
  (fast = true -> Forall volume_call l2) ->
  phase1 o O fast w w2 (l1 ++ l2).
Proof.
  intros (Ht & Hq & HL & Hf) Ht2 Hq2 HL2 Hf2. split_and!.
  - eapply touches_only_trans; eauto.
  - eapply engine_quiet_trans; eauto.
  - apply Forall_app. now split.
  - intros Hfast. apply Forall_app. split; auto.
Qed.

Lemma phase1_silent o O fast w w1 l1 w2 :
  phase1 o O fast w w1 l1 ->
  touches_only (footprint o O) w1 w2 -> engine w2 = engine w1 ->
  phase1 o O fast w w2 l1.
Proof.
  intros H Ht He. rewrite <- (app_nil_r l1).
  eapply phase1_step; eauto using engine_quiet_eq.
Qed.

(** The options after some of their flags were taken out or the command was
    set: the other entries are as they were. *)
Definition derived (O O' : pydict) : Prop :=
  (forall x, refs_of O' x -> refs_of O x)
  /\ forall k, k <> KStr "command" -> k <> KStr "pull" ->
               k <> KStr "with_devserver" -> dict_get k O' = dict_get k O.

Lemma derived_refl O : derived O O.
Proof. split; auto. Qed.

Lemma derived_trans O1 O2 O3 : derived O1 O2 -> derived O2 O3 -> derived O1 O3.
Proof.
  intros [Hr1 Hk1] [Hr2 Hk2]. split; [auto|].
  intros k H1 H2 H3. rewrite Hk2, Hk1; auto.
Qed.

Lemma derived_del O k :
  k = KStr "pull" \/ k = KStr "with_devserver" -> derived O (dict_del k O).
Proof.
  intros Hk. split.
  - intros x [k' Hx]. exists k'.
    destruct (key_eqb k k') eqn:He.
    + apply key_eqb_eq in He as <-. now rewrite dict_get_del_eq in Hx.
    + apply key_eqb_neq in He. now rewrite dict_get_del_ne in Hx.
  - intros k' H1 H2 H3. apply dict_get_del_ne. destruct Hk; congruence.
Qed.

Lemma derived_command O : derived O (dict_set (KStr "command") snuba_command O).
Proof.
  split.
  - intros x [k' Hx]. exists k'.
    destruct (key_eqb (KStr "command") k') eqn:He.
    + apply key_eqb_eq in He as <-. rewrite dict_get_set_eq in Hx. discriminate.
    + apply key_eqb_neq in He. now rewrite dict_get_set_ne in Hx.
  - intros k' H1 H2 H3. apply dict_get_set_ne. congruence.
Qed.

Lemma derived_footprint o O O' x :
  derived O O' -> footprint o O' x -> footprint o O x.
Proof. intros [Hr _] [->|H]; [now left|right; auto]. Qed.

(** The value [options.pop(k, False)] yields. *)
Definition popped (O : pydict) (k : string) : pyval :=
  match dict_get (KStr k) O with
  | Some x => x
  | None => VBool false
  end.

(** A flag of the options: absent it is off; present it is the truth value of
    an object that is not a dictionary. *)
Definition flag_of (O : pydict) (k : string) : option bool :=
  match dict_get (KStr k) O with
  | None => Some false
  | Some (VRef _) => None
  | Some v => Some (truthy [] v)
  end.

Lemma flag_truthy O k b h : flag_of O k = Some b -> truthy h (popped O k) = b.
Proof.
  unfold flag_of, popped. destruct (dict_get (KStr k) O) as [[]|]; simpl;
    intros H; inversion H; reflexivity.
Qed.

Lemma volume_calls_no_pull l : Forall volume_call l -> List.filter is_pull l = [].
Proof.
  induction 1 as [|c l Hc _ IH]; simpl; [reflexivity|].
  destruct c; simpl in *; try contradiction; assumption.
Qed.

Lemma start_service_inv name cs CS o O cn project fast always_start w r w' l :
  heap w !! cs = Some CS -> dict_get name CS = Some (VRef o) ->
  heap w !! o = Some O -> ~ refs_of O o ->
  dict_get (KStr "name") O = Some (VStr cn) ->
  _start_service name (VRef cs) project fast always_start w = (r, w', l) ->
  exists w1 l1 l2,
    l = l1 ++ l2 /\ phase1 o O fast w w1 l1
    /\ ((exists e, r = Raise e /\ w' = w1 /\ l2 = [])
        \/ (exists O1,
              heap w1 !! o = Some O1
              /\ dict_get (KStr "name") O1 = Some (VStr cn)
              /\ reconcile (VRef o) (popped O "pull") (popped O "with_devserver")
                   fast always_start w1 = (r, w', l2)
              /\ (fast = false -> forall bp, flag_of O "pull" = Some bp ->
                  exists i, dict_get (KStr "image") O = Some (VStr i)
                  /\ List.filter is_pull l1 =
                       if bp then [ImagesPull i]
                       else if str_in i (images (engine w)) then []
                            else [ImagesPull i]))).
Proof.
  intros Hcs Hname Ho Hself Hcn H. unfold _start_service in H.
  apply (bind_ok_inv _ _ _ _ _ _ _ _ _ (getitem_ok _ _ _ _ _ Hcs Hname)) in H
    as [l0 [H ->]]. simpl.
  (* the snuba override *)
  apply bind_inv in H as [[e [H ->]]|[[] [wa [la [la' [Ha [H ->]]]]]]].
  { destruct (snuba_override_inv _ _ _ _ _ _ _ Ho Hself H) as (-> & He & Ht & _).
    exists w', [], []. split_and!; auto.
    - eapply phase1_silent; eauto using phase1_refl.
    - left. eauto. }
  destruct (snuba_override_inv _ _ _ _ _ _ _ Ho Hself Ha)
    as (-> & Hea & Hta & Oa & Hoa & HOa).
  assert (Hda : derived O Oa).
  { destruct HOa as [->| ->]; auto using derived_refl, derived_command. }
  assert (Hp1 : phase1 o O fast w wa []).
  { eapply phase1_silent; eauto using phase1_refl. }
  clear Ha Hta.
  assert (Hselfa : ~ refs_of Oa o) by (intros Hx; apply Hself, Hda, Hx).
  (* the environment *)
  apply bind_inv in H as [[e [H ->]]|[[] [wb [lb [lb' [Hb [H ->]]]]]]].
  { destruct (interpolate_environment_inv _ _ _ _ _ _ _ Hoa Hselfa H)
      as (-> & He & Ht & _).
    exists w', [], []. split_and!; auto.
    - eapply phase1_silent; eauto.
      eapply touches_only_weaken; eauto. intros x. now apply derived_footprint.
    - left. eauto. }
  destruct (interpolate_environment_inv _ _ _ _ _ _ _ Hoa Hselfa Hb)
    as (-> & Heb & Htb & Hob).
  assert (Hp2 : phase1 o O fast w wb []).
  { eapply phase1_silent; eauto.
    eapply touches_only_weaken; eauto. intros x. now apply derived_footprint. }
  clear Hb Htb Hp1.
  (* the pull flag *)
  apply bind_inv in H as [[e [H ->]]|[pull [wc [lc [lc' [Hc [H ->]]]]]]].
  { destruct (pop_flag_inv _ _ _ _ _ _ _ _ Hob H) as (-> & He & Ht & _).
    exists w', [], []. split_and!; auto.
    - eapply phase1_silent; eauto.
      eapply touches_only_weaken; eauto. intros x. now apply derived_footprint.
    - left. eauto. }
  destruct (pop_flag_inv _ _ _ _ _ _ _ _ Hob Hc)
    as (-> & Hec & Htc & [[e [? _]]|[[= ->] Hoc]]); [discriminate|].
  assert (Hp3 : phase1 o O fast w wc []).
  { eapply phase1_silent; eauto.
    eapply touches_only_weaken; eauto. intros x. now apply derived_footprint. }
  assert (Hpull : match dict_get (KStr "pull") Oa with
                  | Some x => x | None => VBool false end = popped O "pull").
  { unfold popped. destruct HOa as [->| ->]; [reflexivity|].
    now rewrite dict_get_set_ne. }
  rewrite Hpull in H.
  assert (Hdc : derived O (dict_del (KStr "pull") Oa)).
  { eapply derived_trans; eauto. apply derived_del. now left. }
  set (Oc := dict_del (KStr "pull") Oa) in *.
  assert (Hselfc : ~ refs_of Oc o) by (intros Hx; apply Hself, Hdc, Hx).
  clear Hc Htc Hp2.
  (* the image *)
  simpl in H.
  apply bind_inv in H as [[e [H ->]]|[[] [wd [ld [ld' [Hd [H ->]]]]]]].
  { destruct (refresh_image_inv _ _ _ _ _ _ _ H) as (Hh & Hq & _ & HL & Hf & _).
    exists w', lc', []. split_and!; [now rewrite app_nil_r| |left; eauto].
    rewrite <- (app_nil_l lc'). eapply phase1_step; eauto.
    - split; [congruence|intros; congruence].
    - eapply List.Forall_impl; [|exact HL]. auto.
    - intros Hfast. rewrite (Hf Hfast). constructor. }
  destruct (refresh_image_inv _ _ _ _ _ _ _ Hd) as (Hh & Hq & _ & HL & Hf & Hpulls).
  assert (Hod : heap wd !! o = Some Oc) by congruence.
  assert (Hp4 : phase1 o O fast w wd ld).
  { rewrite <- (app_nil_l ld). eapply phase1_step; eauto.
    - split; [congruence|intros; congruence].
    - eapply List.Forall_impl; [|exact HL]. auto.
    - intros Hfast. rewrite (Hf Hfast). constructor. }
  assert (Himg : fast = false -> forall bp, flag_of O "pull" = Some bp ->
            exists i, dict_get (KStr "image") O = Some (VStr i)
            /\ List.filter is_pull ld =
                 if bp then [ImagesPull i]
                 else if str_in i (images (engine w)) then [] else [ImagesPull i]).
  { intros Hfast bp Hbp.
    destruct (Hpulls Hfast eq_refl) as (o' & O' & i & [= <-] & HO' & Hi & Hfl).
    rewrite (flag_truthy _ _ _ _ Hbp) in Hfl.
    rewrite Hoc in HO'. injection HO' as <-.
    exists i. split.
    - rewrite <- Hi. symmetry. apply Hdc; discriminate.
    - rewrite Hfl. now rewrite Hec, Heb, Hea. }
  clear Hd Hpulls Hp3 HL Hf.
  (* the volumes *)
  apply bind_inv in H as [[e [H ->]]|[[] [we [le [le' [He [H ->]]]]]]].
  { destruct (materialize_volumes_inv _ _ _ _ _ _ _ Hod Hselfc H)
      as (Ht & _ & Hq' & _ & HL).
    exists w', (ld ++ ld'), []. split_and!; [now rewrite app_nil_r| |left; eauto].
    eapply phase1_step; eauto.
    - eapply touches_only_weaken; eauto. intros x. now apply derived_footprint.
    - eapply List.Forall_impl; [|exact HL]. auto. }
  destruct (materialize_volumes_inv _ _ _ _ _ _ _ Hod Hselfc He)
    as (Ht & Hoe & Hq' & _ & HL).
  assert (Hp5 : phase1 o O fast w we (ld ++ le)).
  { eapply phase1_step; eauto.
    - eapply touches_only_weaken; eauto. intros x. now apply derived_footprint.
    - eapply List.Forall_impl; [|exact HL]. auto. }
  clear Ht HL Hp4.
  (* the ports *)
  apply bind_inv in H as [[e [H ->]]|[[] [wf [lf [lf' [Hf [H ->]]]]]]].
  { apply listening_inv in H as [-> ->].
    exists we, (ld ++ le), [].
    split_and!; [simpl; now rewrite !app_nil_r|assumption|left; eauto]. }
  apply listening_inv in Hf as [-> ->].
  (* the devserver flag *)
  apply bind_inv in H as [[e [H ->]]|[wdv [wg [lg [lg' [Hg [H ->]]]]]]].
  { destruct (pop_flag_inv _ _ _ _ _ _ _ _ Hoe H) as (-> & Heg & Ht & _).
    exists w', (ld ++ le), [].
    split_and!; [simpl; now rewrite !app_nil_r| |left; eauto].
    eapply phase1_silent; eauto.
    eapply touches_only_weaken; eauto. intros x. now apply derived_footprint. }
  destruct (pop_flag_inv _ _ _ _ _ _ _ _ Hoe Hg)
    as (-> & Heg & Htg & [[e [? _]]|[[= ->] Hog]]); [discriminate|].
  assert (Hwd : match dict_get (KStr "with_devserver") Oc with
                | Some x => x | None => VBool false end
                = popped O "with_devserver").
  { unfold popped, Oc. rewrite dict_get_del_ne by discriminate.
    destruct HOa as [->| ->]; [reflexivity|].
    now rewrite dict_get_set_ne. }
  rewrite Hwd in H.
  assert (Hdg : derived O (dict_del (KStr "with_devserver") Oc)).
  { eapply derived_trans; eauto. apply derived_del. now right. }
  exists wg, (ld ++ le), lg'. split_and!.
  - simpl. now rewrite app_assoc.
  - eapply phase1_silent; eauto.
    eapply touches_only_weaken; eauto. intros x. now apply derived_footprint.
  - right. eexists. split_and!; eauto.
    + rewrite <- Hcn. apply Hdg; discriminate.
    + intros Hfast bp Hbp. destruct (Himg Hfast bp Hbp) as (i & Hi & Hfl).
      exists i. split; [assumption|].
      destruct Hp5 as (_ & _ & _ & _).
      rewrite List.filter_app, Hfl.
      destruct (materialize_volumes_inv _ _ _ _ _ _ _ Hod Hselfc He)
        as (_ & _ & _ & _ & HL).
      now rewrite (volume_calls_no_pull _ HL), app_nil_r.
Qed.


(** ** The reconciler on one resolved service *)

(** A service of the resolved mapping [containers]: its options are the
    object [o] with the content [O], which names the container [cn] and does
    not refer to itself. *)
Record resolved (w : world) (containers : ref) (name : pykey) (o : ref)
    (O : pydict) (cn : string) : Prop := {
  res_containers :
    exists CS, heap w !! containers = Some CS /\ dict_get name CS = Some (VRef o);
  res_options : heap w !! o = Some O;
  res_self : ~ refs_of O o;
  res_name : dict_get (KStr "name") O = Some (VStr cn)
}.

Lemma phase1_has_container o O fast w w1 l1 n :
  phase1 o O fast w w1 l1 -> has_container n (engine w1) = has_container n (engine w).
Proof. intros (_ & [Hc _] & _). unfold has_container. now rewrite Hc. Qed.









(** ** The option resolver *)

Lemma setitem_ok o d k x w :
  heap w !! o = Some d ->
  setitem (VRef o) k x w
  = (Ok tt, World (<[o := dict_set k x d]> (heap w)) (engine w), []).
Proof.
  intros Ho. unfold setitem. now rewrite (bind_ok _ _ _ _ _ _ (load_ok _ _ _ Ho)).
Qed.

(** The port bindings [ensure_interface] builds from the entries [d]. *)
Definition with_interfaces (d acc : pydict) : pydict :=
  fold_left (fun rv kv => dict_set (fst kv) (default_interface (snd kv)) rv) d acc.

Lemma ensure_interface_loop n its :
  forall acc w,
    heap w !! n = Some acc ->
    for_each its (fun kv => setitem (VRef n) (fst kv) (default_interface (snd kv))) w
    = (Ok tt, World (<[n := with_interfaces its acc]> (heap w)) (engine w), []).
Proof.
  induction its as [|[k v] its IH]; intros acc w Hn.
  - change (with_interfaces [] acc) with acc.
    rewrite (list_insert_id _ _ _ Hn), world_eta. reflexivity.
  - cbn [for_each fst snd].
    rewrite (bind_ok _ _ _ _ _ _ (setitem_ok _ _ _ _ _ Hn)).
    rewrite (IH (dict_set k (default_interface v) acc)).
    + cbn [heap engine]. rewrite list_insert_insert_eq. reflexivity.
    + cbn [heap]. apply list_lookup_insert_eq. eapply lookup_lt_Some; eauto.
Qed.

Lemma dict_set_fresh k v d :
  dict_get k d = None -> dict_set k v d = d ++ [(k, v)].
Proof.
  induction d as [|[k' v'] d IH]; simpl; [reflexivity|].
  destruct (key_eqb k k'); [discriminate|]. intros H. now rewrite IH.
Qed.

Lemma dict_get_app_fresh k d d' :
  ~ In k (dict_keys d) -> dict_get k (d ++ d') = dict_get k d'.
Proof.
  induction d as [|[k' v'] d IH]; simpl; [reflexivity|]. intros H.
  destruct (key_eqb k k') eqn:He.
  - apply key_eqb_eq in He. subst. tauto.
  - apply IH. tauto.
Qed.

Lemma dict_get_not_in k d : ~ In k (dict_keys d) -> dict_get k d = None.
Proof.
  induction d as [|[k' v'] d IH]; simpl; [reflexivity|]. intros H.
  destruct (key_eqb k k') eqn:He.
  - apply key_eqb_eq in He. subst. tauto.
  - apply IH. tauto.
Qed.

(** On a dictionary, whose keys are distinct, every entry gets its interface
    and nothing else changes. *)
Lemma with_interfaces_map d :
  List.NoDup (dict_keys d) ->
  forall acc,
    (forall k, In k (dict_keys d) -> ~ In k (dict_keys acc)) ->
    with_interfaces d acc
    = acc ++ map (fun kv => (fst kv, default_interface (snd kv))) d.
Proof.
  unfold with_interfaces.
  induction d as [|[k v] d IH]; intros Hnd acc Hacc; simpl.
  - now rewrite app_nil_r.
  - inversion Hnd as [|? ? Hk Hnd']; subst.
    rewrite dict_set_fresh by (apply dict_get_not_in, Hacc; now left).
    rewrite IH; trivial.
    + now rewrite <- app_assoc.
    + intros k' Hk' Hin. unfold dict_keys in Hin. rewrite map_app in Hin.
      apply in_app_or in Hin as [Hin|Hin].
      * apply (Hacc k'); [now right|assumption].
      * simpl in Hin. destruct Hin as [<-|[]]. contradiction.
Qed.

Lemma ensure_interface_ok pp d w :
  heap w !! pp = Some d ->
  ensure_interface (VRef pp) w
  = (Ok (VRef (length (heap w))),
     World (heap w ++ [with_interfaces d []]) (engine w), []).
Proof.
  intros Hpp. unfold ensure_interface.
  assert (Ha : alloc [] w
               = (Ok (VRef (length (heap w))), World (heap w ++ [[]]) (engine w), []))
    by reflexivity.
  rewrite (bind_ok _ _ _ _ _ _ Ha).
  assert (Hl : items (VRef pp) (World (heap w ++ [[]]) (engine w))
               = (Ok d, World (heap w ++ [[]]) (engine w), [])).
  { apply load_ok. simpl. now apply lookup_app_l_Some. }
  rewrite (bind_ok _ _ _ _ _ _ Hl).
  rewrite (bind_ok _ _ _ _ _ _
             (ensure_interface_loop (length (heap w)) d []
                (World (heap w ++ [[]]) (engine w))
                (list_lookup_middle (heap w) [] [] _ eq_refl))).
  simpl. unfold ret. f_equal. f_equal. f_equal.
  rewrite <- (Nat.add_0_r (length (heap w))) at 1.
  now rewrite insert_app_r.
Qed.


(** From [w] to [w'] the heap grew, its objects other than [n] are as they
    were, and so is the engine. *)
Definition grows (n : ref) (w w' : world) : Prop :=
  length (heap w) <= length (heap w') /\ engine w' = engine w
  /\ forall x, x < length (heap w) -> x <> n -> heap w' !! x = heap w !! x.

Lemma grows_refl n w : grows n w w.
Proof. unfold grows. auto. Qed.

Lemma grows_trans n w1 w2 w3 :
  grows n w1 w2 -> grows n w2 w3 -> grows n w1 w3.
Proof.
  intros (Hl1 & He1 & H1) (Hl2 & He2 & H2). split_and!; [lia|congruence|].
  intros x Hx Hn. rewrite H2, H1; auto. lia.
Qed.

Lemma grows_written n d w w' : written n d w w' -> grows n w w'.
Proof.
  intros Hw. split_and!.
  - rewrite (written_length _ _ _ _ Hw). lia.
  - apply Hw.
  - intros x Hx Hn. eapply written_lookup_ne; eauto.
Qed.

Lemma grows_alloc n d w w' :
  heap w' = heap w ++ [d] -> engine w' = engine w -> grows n w w'.
Proof.
  intros Hh He. split_and!; auto.
  - rewrite Hh, length_app. lia.
  - intros x Hx Hn. rewrite Hh. now apply lookup_app_l.
Qed.

(** One step on the options [o], whose content [A] is known. *)
Lemma step_setitem {B} o A k x (f : unit -> M B) w r w' l :
  heap w !! o = Some A ->
  bind (setitem (VRef o) k x) f w = (r, w', l) ->
  exists w1, f tt w1 = (r, w', l)
             /\ written o (dict_set k x A) w w1
             /\ heap w1 !! o = Some (dict_set k x A).
Proof.
  intros Ho H.
  apply (bind_ok_inv _ _ _ _ _ _ _ _ _ (setitem_ok _ _ _ _ _ Ho)) in H
    as [l2 [H ->]].
  eexists. split; [exact H|]. split; [split; reflexivity|].
  simpl. apply list_lookup_insert_eq. eapply lookup_lt_Some; eauto.
Qed.

Lemma pop_default_ok o A k dflt w :
  heap w !! o = Some A ->
  pop_default (VRef o) k dflt w
  = (Ok (match dict_get k A with Some x => x | None => dflt end),
     World (<[o := dict_del k A]> (heap w)) (engine w), []).
Proof.
  intros Ho. unfold pop_default.
  rewrite (bind_ok _ _ _ _ _ _ (load_ok _ _ _ Ho)).
  destruct (dict_get k A) eqn:Hk.
  - reflexivity.
  - rewrite (dict_del_absent _ _ Hk), (list_insert_id _ _ _ Ho), world_eta.
    reflexivity.
Qed.

Lemma step_pop_default {B} o A k dflt (f : pyval -> M B) w r w' l :
  heap w !! o = Some A ->
  bind (pop_default (VRef o) k dflt) f w = (r, w', l) ->
  exists w1, f (match dict_get k A with Some x => x | None => dflt end) w1
             = (r, w', l)
             /\ written o (dict_del k A) w w1
             /\ heap w1 !! o = Some (dict_del k A).
Proof.
  intros Ho H.
  apply (bind_ok_inv _ _ _ _ _ _ _ _ _ (pop_default_ok _ _ _ _ _ Ho)) in H
    as [l2 [H ->]].
  eexists. split; [exact H|]. split; [split; reflexivity|].
  simpl. apply list_lookup_insert_eq. eapply lookup_lt_Some; eauto.
Qed.

Lemma setdefault_ok_present o A k v dflt w :
  heap w !! o = Some A -> dict_get k A = Some v ->
  setdefault (VRef o) k dflt w = (Ok tt, w, []).
Proof.
  intros Ho Hk. unfold setdefault.
  rewrite (bind_ok _ _ _ _ _ _ (load_ok _ _ _ Ho)). now rewrite Hk.
Qed.

Lemma setdefault_ok_absent o A k d w :
  heap w !! o = Some A -> dict_get k A = None ->
  setdefault (VRef o) k (alloc d) w
  = (Ok tt,
     World (<[o := dict_set k (VRef (length (heap w))) A]> (heap w ++ [d]))
       (engine w), []).
Proof.
  intros Ho Hk. unfold setdefault.
  rewrite (bind_ok _ _ _ _ _ _ (load_ok _ _ _ Ho)). rewrite Hk.
  assert (Ha : alloc d w
               = (Ok (VRef (length (heap w))), World (heap w ++ [d]) (engine w), []))
    by reflexivity.
  rewrite (bind_ok _ _ _ _ _ _ Ha).
  rewrite setitem_ok with (d := A); [reflexivity|].
  simpl. now apply lookup_app_l_Some.
Qed.

(** [setdefault] on the options [o]: the entry is there afterwards, the one
    that was, or a fresh object with the default content. *)
Lemma step_setdefault {B} o A k d (f : unit -> M B) w r w' l :
  heap w !! o = Some A ->
  bind (setdefault (VRef o) k (alloc d)) f w = (r, w', l) ->
  exists w1 A',
    f tt w1 = (r, w', l) /\ grows o w w1 /\ heap w1 !! o = Some A'
    /\ ((A' = A /\ w1 = w /\ exists v, dict_get k A = Some v)
        \/ (dict_get k A = None
            /\ A' = dict_set k (VRef (length (heap w))) A
            /\ heap w1 !! length (heap w) = Some d
            /\ length (heap w1) = S (length (heap w)))).
Proof.
  intros Ho H. pose proof (lookup_lt_Some _ _ _ Ho) as Hlt.
  destruct (dict_get k A) as [v|] eqn:Hk.
  - apply (bind_ok_inv _ _ _ _ _ _ _ _ _
             (setdefault_ok_present _ _ _ _ _ _ Ho Hk)) in H as [l2 [H ->]].
    exists w, A. split_and!; auto using grows_refl. left. eauto.
  - apply (bind_ok_inv _ _ _ _ _ _ _ _ _
             (setdefault_ok_absent _ _ _ d _ Ho Hk)) in H as [l2 [H ->]].
    eexists _, _. split; [exact H|]. simpl. split_and!.
    + split_and!; simpl.
      * rewrite length_insert, length_app. lia.
      * reflexivity.
      * intros x Hx Hn. rewrite list_lookup_insert_ne by lia.
        now apply lookup_app_l.
    + apply list_lookup_insert_eq. rewrite length_app. lia.
    + right. split_and!; auto.
      * rewrite list_lookup_insert_ne by lia. now apply list_lookup_middle.
      * rewrite length_insert, length_app. simpl. lia.
Qed.

Lemma copy_inv_ok v x w w' l :
  copy v w = (Ok x, w', l) ->
  exists o0 O0,
    v = VRef o0 /\ heap w !! o0 = Some O0 /\ x = VRef (length (heap w))
    /\ heap w' = heap w ++ [O0] /\ engine w' = engine w /\ l = [].
Proof.
  unfold copy. intros H.
  apply bind_inv_ok in H as (d & w1 & l1 & l2 & H1 & H & ->).
  apply load_inv in H1 as (-> & -> & Hd). destruct (Hd d eq_refl) as [o0 [-> Ho]].
  unfold alloc in H. inversion H; subst. exists o0, d. split_and!; auto.
Qed.

Lemma ensure_interface_inv_ok pv rv w w' l :
  ensure_interface pv w = (Ok rv, w', l) ->
  exists pp d,
    pv = VRef pp /\ (heap w ++ [[]]) !! pp = Some d
    /\ rv = VRef (length (heap w))
    /\ heap w' = heap w ++ [with_interfaces d []]
    /\ engine w' = engine w /\ l = [].
Proof.
  unfold ensure_interface. intros H.
  assert (Ha : alloc [] w
               = (Ok (VRef (length (heap w))), World (heap w ++ [[]]) (engine w), []))
    by reflexivity.
  apply (bind_ok_inv _ _ _ _ _ _ _ _ _ Ha) in H as [l2 [H ->]].
  apply bind_inv_ok in H as (d & w1 & l1 & l3 & H1 & H & ->).
  apply load_inv in H1 as (-> & -> & Hd). destruct (Hd d eq_refl) as [pp [-> Hpp]].
  simpl in Hpp.
  rewrite (bind_ok _ _ _ _ _ _
             (ensure_interface_loop (length (heap w)) d []
                (World (heap w ++ [[]]) (engine w))
                (list_lookup_middle (heap w) [] [] _ eq_refl))) in H.
  simpl in H. unfold ret in H. inversion H; subst.
  exists pp, d. split_and!; auto. simpl.
  rewrite <- (Nat.add_0_r (length (heap w))) at 1.
  now rewrite insert_app_r.
Qed.

(** The keys of the options the resolver leaves alone. *)
Definition ordinary (k : pykey) : Prop :=
  k <> KStr "only_if" /\ k <> KStr "network" /\ k <> KStr "detach"
  /\ k <> KStr "name" /\ k <> KStr "ports" /\ k <> KStr "environment"
  /\ k <> KStr "restart_policy".

(** The resolved options [O], at the address [o] of the heap [h], of a service
    [nm] whose registry entry is [O0], in the heap [h0] the resolver started
    from, of which the objects below [lim] are looked at. *)
Record entry_ok (project nm : string) (lim : ref) (h0 : list pydict)
    (O0 : pydict) (h : list pydict) (o : ref) (O : pydict) : Prop := {
  eo_name : dict_get (KStr "name") O = Some (VStr (project ++ "_" ++ nm));
  eo_ordinary : forall k, ordinary k -> dict_get k O = dict_get k O0;
  eo_refs : forall k x, dict_get k O = Some (VRef x) ->
              (o < x /\ x < length h) \/ dict_get k O0 = Some (VRef x);
  eo_ports : exists p' cont,
      dict_get (KStr "ports") O = Some (VRef p')
      /\ o < p' /\ h !! p' = Some (with_interfaces cont [])
      /\ (dict_get (KStr "ports") O0 = None -> cont = [])
      /\ (forall pp d, dict_get (KStr "ports") O0 = Some (VRef pp) ->
                       pp < lim -> h0 !! pp = Some d -> cont = d)
}.

(** What is known of the options while the resolver fills them in. *)
Definition filling (n : ref) (O0 A : pydict) (bound : nat) : Prop :=
  (forall k, ordinary k -> dict_get k A = dict_get k O0)
  /\ forall k x, dict_get k A = Some (VRef x) ->
                 (n < x /\ x < bound) \/ dict_get k O0 = Some (VRef x).

Lemma filling_del n O0 A b k :
  ~ ordinary k -> filling n O0 A b -> filling n O0 (dict_del k A) b.
Proof.
  intros Hk [Ho Hr]. split.
  - intros k' Hk'. rewrite dict_get_del_ne; auto. intros ->. contradiction.
  - intros k' x Hx. destruct (key_eqb k k') eqn:He.
    + apply key_eqb_eq in He as <-. now rewrite dict_get_del_eq in Hx.
    + apply key_eqb_neq in He. rewrite dict_get_del_ne in Hx; auto.
Qed.

Lemma filling_set n O0 A b k v :
  ~ ordinary k -> (forall x, v = VRef x -> n < x /\ x < b) ->
  filling n O0 A b -> filling n O0 (dict_set k v A) b.
Proof.
  intros Hk Hv [Ho Hr]. split.
  - intros k' Hk'. rewrite dict_get_set_ne; auto. intros ->. contradiction.
  - intros k' x Hx. destruct (key_eqb k k') eqn:He.
    + apply key_eqb_eq in He as <-. rewrite dict_get_set_eq in Hx.
      injection Hx as ->. left. now apply Hv.
    + apply key_eqb_neq in He. rewrite dict_get_set_ne in Hx; auto.
Qed.

Lemma filling_bound n O0 A b b' :
  b <= b' -> filling n O0 A b -> filling n O0 A b'.
Proof.
  intros Hb [Ho Hr]. split; [assumption|].
  intros k x Hx. destruct (Hr k x Hx) as [[? ?]|?]; [left; lia|now right].
Qed.

Lemma not_ordinary k :
  k = KStr "only_if" \/ k = KStr "network" \/ k = KStr "detach"
  \/ k = KStr "name" \/ k = KStr "ports" \/ k = KStr "environment"
  \/ k = KStr "restart_policy" -> ~ ordinary k.
Proof. unfold ordinary. intros H Ho. intuition congruence. Qed.




Lemma skip_inv test_fn t w s w' l :
  (if t : bool then bind (call_only_if test_fn) (fun r => ret (negb r))
   else ret false) w = (Ok s, w', l) ->
  w' = w /\ l = [] /\ (s = true -> test_fn = VFun false).
Proof.
  destruct t; intros H; [|inversion H; split_and!; auto; discriminate].
  unfold call_only_if, bind, ret, raise in H.
  destruct test_fn; inversion H; split_and!; auto.
  destruct b; [discriminate|reflexivity].
Qed.

Lemma grows_lookup n w w' x d :
  grows n w w' -> heap w !! x = Some d -> x <> n -> heap w' !! x = Some d.
Proof.
  intros (_ & _ & H) Hx Hn. rewrite H; auto. eapply lookup_lt_Some; eauto.
Qed.

(** One round of the resolver that returns: either the service is skipped,
    or its resolved options are a fresh object, entered in [containers]. *)
Lemma prepare_one_inv project c CS name v0 w w' l :
  heap w !! c = Some CS ->
  prepare_one project (VRef c) (name, v0) w = (Ok tt, w', l) ->
  let n := length (heap w) in
  l = [] /\ engine w' = engine w /\ n <= length (heap w')
  /\ (forall x, x < n -> x <> c -> heap w' !! x = heap w !! x)
  /\ exists o0 O0,
      v0 = VRef o0 /\ heap w !! o0 = Some O0
      /\ ((heap w' !! c = Some CS
           /\ dict_get (KStr "only_if") O0 = Some (VFun false))
          \/ exists nm O,
               name = KStr nm
               /\ heap w' !! c = Some (dict_set name (VRef n) CS)
               /\ n < length (heap w') /\ heap w' !! n = Some O
               /\ entry_ok project nm n (heap w) O0 (heap w') n O).
Proof.
  intros Hc H n. pose proof (lookup_lt_Some _ _ _ Hc) as Hcn. fold n in Hcn.
  unfold prepare_one in H.
  (* the copy *)
  apply bind_inv_ok in H as (x & w1 & l1 & l1' & H1 & H & ->).
  apply copy_inv_ok in H1 as (o0 & O0 & -> & Ho0 & -> & Hh1 & He1 & ->).
  fold n in H.
  assert (Hg1 : grows n w w1) by (eapply grows_alloc; eauto).
  assert (Hn1 : heap w1 !! n = Some O0).
  { rewrite Hh1. now apply list_lookup_middle. }
  assert (Hf1 : filling n O0 O0 (length (heap w1))) by (split; auto).
  (* only_if *)
  destruct (step_pop_default _ _ _ _ _ _ _ _ _ Hn1 H) as (w2 & H2 & Hw2 & Hn2).
  clear H. rename H2 into H.
  assert (Hg2 : grows n w w2).
  { eapply grows_trans; eauto. eapply grows_written; eauto. }
  assert (Hf2 : filling n O0 (dict_del (KStr "only_if") O0) (length (heap w2))).
  { apply filling_del; [apply not_ordinary; auto|].
    eapply filling_bound; [|exact Hf1]. rewrite (written_length _ _ _ _ Hw2). lia. }
  clear Hw2 Hn1 Hf1 Hg1 Hh1 He1. clear w1.
  apply bind_inv_ok in H as (t & w3 & l3 & l3' & H3 & H & ->).
  apply truth_inv in H3 as (_ & -> & ->).
  apply bind_inv_ok in H as (skip & w3 & l3 & l4 & H3 & H & ->).
  apply skip_inv in H3 as (-> & -> & Hskip).
  destruct skip.
  { inversion H; subst. destruct Hg2 as (Hl & He & Hx).
    split_and!; auto.
    - intros x Hxn _. apply Hx; lia.
    - exists o0, O0. split_and!; auto. left. split; [rewrite Hx; auto; lia|].
      specialize (Hskip eq_refl).
      destruct (dict_get (KStr "only_if") O0); [congruence|discriminate]. }
  (* network, detach, name *)
  destruct (step_setitem _ _ _ _ _ _ _ _ _ Hn2 H) as (w3 & H3 & Hw3 & Hn3).
  clear H. rename H3 into H.
  destruct (step_setitem _ _ _ _ _ _ _ _ _ Hn3 H) as (w4 & H4 & Hw4 & Hn4).
  clear H. rename H4 into H.
  apply bind_inv_ok in H as (nm & w5 & l5 & l5' & H5 & H & ->).
  assert (name = KStr nm /\ w5 = w4 /\ l5 = []) as (-> & -> & ->).
  { unfold key_str in H5. destruct name; inversion H5; now split. }
  clear H5.
  destruct (step_setitem _ _ _ _ _ _ _ _ _ Hn4 H) as (w5 & H5 & Hw5 & Hn5).
  clear H. rename H5 into H.
  set (A5 := dict_set (KStr "name") (VStr (project ++ "_" ++ nm))
               (dict_set (KStr "detach") (VBool true)
                  (dict_set (KStr "network") (VStr project)
                     (dict_del (KStr "only_if") O0)))) in *.
  assert (Hg5 : grows n w w5).
  { eapply grows_trans; [exact Hg2|].
    eapply grows_trans; [eapply grows_written; eauto|].
    eapply grows_trans; eapply grows_written; eauto. }
  assert (Hf5 : filling n O0 A5 (length (heap w5))).
  { unfold A5. repeat (apply filling_set;
                       [apply not_ordinary; auto 8|discriminate|]).
    eapply filling_bound; [|exact Hf2].
    rewrite (written_length _ _ _ _ Hw5), (written_length _ _ _ _ Hw4),
      (written_length _ _ _ _ Hw3). lia. }
  assert (Hname5 : dict_get (KStr "name") A5
                   = Some (VStr (project ++ "_" ++ nm))).
  { unfold A5. apply dict_get_set_eq. }
  assert (Hports5 : dict_get (KStr "ports") A5 = dict_get (KStr "ports") O0).
  { unfold A5. rewrite !dict_get_set_ne by discriminate.
    now rewrite dict_get_del_ne by discriminate. }
  clearbody A5. clear Hw3 Hw4 Hw5 Hn2 Hn3 Hn4 Hf2 Hg2. clear w2 w3 w4.
  assert (Hlen5 : n < length (heap w5)) by (eapply lookup_lt_Some; eauto).
  (* the default of the ports *)
  destruct (step_setdefault _ _ _ _ _ _ _ _ _ Hn5 H)
    as (w6 & A6 & H6 & Hg6 & Hn6 & Hc6).
  clear H. rename H6 into H.
  assert (Hf6 : filling n O0 A6 (length (heap w6))).
  { destruct Hc6 as [(-> & -> & _)|(_ & -> & _ & Hl)]; [assumption|].
    apply filling_set; [apply not_ordinary; auto 8| |].
    - intros x [= <-]. lia.
    - eapply filling_bound; [|exact Hf5]. lia. }
  assert (Hname6 : dict_get (KStr "name") A6
                   = Some (VStr (project ++ "_" ++ nm))).
  { destruct Hc6 as [(-> & _)|(_ & -> & _)]; [assumption|].
    now rewrite dict_get_set_ne by discriminate. }
  assert (Hports6 : exists p1,
             dict_get (KStr "ports") A6 = Some p1
             /\ (dict_get (KStr "ports") O0 = Some p1
                 \/ (dict_get (KStr "ports") O0 = None
                     /\ exists pa, p1 = VRef pa /\ n < pa
                                   /\ heap w6 !! pa = Some []))).
  { destruct Hc6 as [(-> & -> & v & Hv)|(Hnone & -> & Hpa & Hl)].
    - exists v. split; [assumption|]. left. congruence.
    - eexists. split; [apply dict_get_set_eq|]. right.
      split; [congruence|]. eexists. split_and!; eauto. }
  assert (Hg6' : grows n w w6) by (eapply grows_trans; eauto).
  clear Hc6 Hf5 Hname5 Hports5 Hn5 Hg5 Hg6 Hlen5. clear w5 A5.
  (* the default of the environment *)
  destruct (step_setdefault _ _ _ _ _ _ _ _ _ Hn6 H)
    as (w7 & A7 & H7 & Hg7 & Hn7 & Hc7).
  clear H. rename H7 into H.
  assert (Hl67 : length (heap w6) <= length (heap w7)) by apply Hg7.
  assert (Hf7 : filling n O0 A7 (length (heap w7))).
  { destruct Hc7 as [(-> & -> & _)|(_ & -> & _ & Hl)]; [assumption|].
    pose proof (lookup_lt_Some _ _ _ Hn6).
    apply filling_set; [apply not_ordinary; auto 8| |].
    - intros x [= <-]. lia.
    - eapply filling_bound; [|exact Hf6]. lia. }
  assert (Hname7 : dict_get (KStr "name") A7
                   = Some (VStr (project ++ "_" ++ nm))).
  { destruct Hc7 as [(-> & _)|(_ & -> & _)]; [assumption|].
    now rewrite dict_get_set_ne by discriminate. }
  assert (Hports7 : exists p1,
             dict_get (KStr "ports") A7 = Some p1
             /\ (dict_get (KStr "ports") O0 = Some p1
                 \/ (dict_get (KStr "ports") O0 = None
                     /\ exists pa, p1 = VRef pa /\ n < pa
                                   /\ heap w7 !! pa = Some []))).
  { destruct Hports6 as (p1 & Hp1 & Hcase). exists p1. split.
    - destruct Hc7 as [(-> & _)|(_ & -> & _)]; [assumption|].
      now rewrite dict_get_set_ne by discriminate.
    - destruct Hcase as [?|(Hnone & pa & -> & Hpa & Hh)]; [now left|].
      right. split; [assumption|]. exists pa. split_and!; auto.
      eapply grows_lookup; eauto. lia. }
  assert (Hg7' : grows n w w7) by (eapply grows_trans; eauto).
  clear Hc7 Hf6 Hname6 Hports6 Hn6 Hg6' Hg7 Hl67. clear w6 A6.
  (* the default of the restart policy *)
  destruct (step_setdefault _ _ _ _ _ _ _ _ _ Hn7 H)
    as (w8 & A8 & H8 & Hg8 & Hn8 & Hc8).
  clear H. rename H8 into H.
  assert (Hl78 : length (heap w7) <= length (heap w8)) by apply Hg8.
  assert (Hf8 : filling n O0 A8 (length (heap w8))).
  { destruct Hc8 as [(-> & -> & _)|(_ & -> & _ & Hl)]; [assumption|].
    pose proof (lookup_lt_Some _ _ _ Hn7).
    apply filling_set; [apply not_ordinary; auto 8| |].
    - intros x [= <-]. lia.
    - eapply filling_bound; [|exact Hf7]. lia. }
  assert (Hname8 : dict_get (KStr "name") A8
                   = Some (VStr (project ++ "_" ++ nm))).
  { destruct Hc8 as [(-> & _)|(_ & -> & _)]; [assumption|].
    now rewrite dict_get_set_ne by discriminate. }
  assert (Hports8 : exists p1,
             dict_get (KStr "ports") A8 = Some p1
             /\ (dict_get (KStr "ports") O0 = Some p1
                 \/ (dict_get (KStr "ports") O0 = None
                     /\ exists pa, p1 = VRef pa /\ n < pa
                                   /\ heap w8 !! pa = Some []))).
  { destruct Hports7 as (p1 & Hp1 & Hcase). exists p1. split.
    - destruct Hc8 as [(-> & _)|(_ & -> & _)]; [assumption|].
      now rewrite dict_get_set_ne by discriminate.
    - destruct Hcase as [?|(Hnone & pa & -> & Hpa & Hh)]; [now left|].
      right. split; [assumption|]. exists pa. split_and!; auto.
      eapply grows_lookup; eauto. lia. }
  assert (Hg8' : grows n w w8) by (eapply grows_trans; eauto).
  clear Hc8 Hf7 Hname7 Hports7 Hn7 Hg7' Hg8 Hl78. clear w7 A7.
  (* the ports *)
  destruct Hports8 as (p1 & Hp1 & Hcase).
  apply (bind_ok_inv _ _ _ _ _ _ _ _ _ (getitem_ok _ _ _ _ _ Hn8 Hp1)) in H
    as [l9 [H ->]].
  apply bind_inv_ok in H as (rv & w9 & l8 & l8' & H9 & H & ->).
  apply ensure_interface_inv_ok in H9 as (pp & d & -> & Hpp & -> & Hh9 & He9 & ->).
  assert (Hn9 : heap w9 !! n = Some A8).
  { rewrite Hh9. now apply lookup_app_l_Some. }
  destruct (step_setitem _ _ _ _ _ _ _ _ _ Hn9 H) as (w10 & H10 & Hw10 & Hn10).
  clear H. rename H10 into H.
  set (p' := length (heap w8)) in *.
  assert (Hlen8 : n < p') by (eapply lookup_lt_Some; eauto).
  assert (Hg10 : grows n w w10).
  { eapply grows_trans; [exact Hg8'|].
    eapply grows_trans; [eapply grows_alloc; eauto|].
    eapply grows_written; eauto. }
  assert (Hp10 : heap w10 !! p' = Some (with_interfaces d [])).
  { erewrite written_lookup_ne; [|exact Hw10|lia].
    rewrite Hh9. now apply list_lookup_middle. }
  assert (Hl10 : length (heap w10) = S p').
  { rewrite (written_length _ _ _ _ Hw10), Hh9, length_app. simpl. lia. }
  (* the entry *)
  assert (Hc10 : heap w10 !! c = Some CS).
  { eapply grows_lookup; eauto. lia. }
  rewrite (setitem_ok _ _ _ _ _ Hc10) in H. injection H as <- <-.
  simpl. split_and!.
  - reflexivity.
  - apply Hg10.
  - rewrite length_insert. destruct Hg10 as (Hl & _). fold n in Hl. lia.
  - intros x Hx Hxc. rewrite list_lookup_insert_ne by congruence.
    apply Hg10; fold n; lia.
  - exists o0, O0. split_and!; auto.
    right. exists nm, (dict_set (KStr "ports") (VRef p') A8).
    split_and!; auto.
    + apply list_lookup_insert_eq. eapply lookup_lt_Some; eauto.
    + rewrite length_insert. lia.
    + rewrite list_lookup_insert_ne by lia. assumption.
    + assert (Hf10 : filling n O0 (dict_set (KStr "ports") (VRef p') A8)
                       (length (heap w10))).
      { apply filling_set; [apply not_ordinary; auto 8| |].
        - intros x [= <-]. lia.
        - eapply filling_bound; [|exact Hf8]. lia. }
      split.
      * now rewrite dict_get_set_ne by discriminate.
      * apply Hf10.
      * rewrite length_insert. apply Hf10.
      * exists p', d. split_and!.
        -- apply dict_get_set_eq.
        -- assumption.
        -- rewrite list_lookup_insert_ne by lia. assumption.
        -- intros Hnone. destruct Hcase as [Hs|(_ & pa & [= ->] & Hpa & Hh)];
             [congruence|].
           rewrite lookup_app_l in Hpp by (eapply lookup_lt_Some; eauto).
           congruence.
        -- intros pp0 d0 Hpp0 Hlt Hd0.
           destruct Hcase as [Hs|(Hnone & _)]; [|congruence].
           rewrite Hpp0 in Hs. injection Hs as ->.
           assert (Hpp8 : heap w8 !! pp = Some d0).
           { eapply grows_lookup; eauto. fold n. lia. }
           rewrite (lookup_app_l_Some _ _ _ _ Hpp8) in Hpp. congruence.
Qed.


Lemma dict_get_set k k' v d :
  dict_get k (dict_set k' v d) = if key_eqb k' k then Some v else dict_get k d.
Proof.
  destruct (key_eqb k' k) eqn:He.
  - apply key_eqb_eq in He as ->. apply dict_get_set_eq.
  - apply key_eqb_neq in He. now apply dict_get_set_ne.
Qed.

(** No object of the heap refers to an address beyond it. *)
Definition closed (h : list pydict) : Prop :=
  forall r d k x, h !! r = Some d -> In (k, VRef x) d -> x < length h.

(** A service [name] of the resolved mapping [CS], at the address [c]: its
    options are an object of their own, made from the registry entry of the
    same name, and refer neither to the mapping nor to the options of any
    service. *)
Definition service_ok (project : string) (w0 : world) (reg : pydict) (c : ref)
    (w : world) (CS : pydict) (name : pykey) (v : pyval) : Prop :=
  exists nm o O o0 O0,
    name = KStr nm /\ v = VRef o /\ c < o /\ heap w !! o = Some O
    /\ In (name, VRef o0) reg /\ heap w0 !! o0 = Some O0
    /\ entry_ok project nm c (heap w0) O0 (heap w) o O
    /\ forall k x, dict_get k O = Some (VRef x) ->
         x < length (heap w) /\ x <> c
         /\ forall name' o', dict_get name' CS = Some (VRef o') -> x <> o'.

(** The world [w] the resolver leaves, from the world [w0] and the registry
    [reg], with its mapping [CS] at the address [c]. *)
Record resolved_all (project : string) (w0 : world) (reg : pydict) (c : ref)
    (w : world) (CS : pydict) : Prop := {
  ra_engine : engine w = engine w0;
  ra_old : forall x, x < c -> heap w !! x = heap w0 !! x;
  ra_cs : heap w !! c = Some CS;
  ra_services : forall name v, dict_get name CS = Some v ->
                  service_ok project w0 reg c w CS name v;
  ra_inj : forall n1 n2 o, dict_get n1 CS = Some (VRef o) ->
             dict_get n2 CS = Some (VRef o) -> n1 = n2
}.

Lemma entry_ok_frame project nm lim h0 O0 h h' c o O :
  entry_ok project nm lim h0 O0 h o O ->
  c < o -> length h <= length h' ->
  (forall x, x < length h -> x <> c -> h' !! x = h !! x) ->
  entry_ok project nm lim h0 O0 h' o O.
Proof.
  intros [Hn Ho Hr (p' & cont & Hp & Hop & Hh & Hnone & Hsome)] Hc Hl Hf. split; auto.
  - intros k x Hx. destruct (Hr k x Hx) as [[? ?]|?]; [left; lia|now right].
  - exists p', cont. split_and!; auto.
    rewrite Hf; auto; [eapply lookup_lt_Some; eauto|lia].
Qed.

Lemma service_ok_frame project w0 reg c w CS w' CS' name v :
  service_ok project w0 reg c w CS name v ->
  length (heap w) <= length (heap w') ->
  (forall x, x < length (heap w) -> x <> c -> heap w' !! x = heap w !! x) ->
  (forall name' o', dict_get name' CS' = Some (VRef o') ->
     dict_get name' CS = Some (VRef o') \/ o' = length (heap w)) ->
  service_ok project w0 reg c w' CS' name v.
Proof.
  intros (nm & o & O & o0 & O0 & -> & -> & Hco & Ho & Hin & Ho0 & He & Hr) Hl Hf HCS.
  pose proof (lookup_lt_Some _ _ _ Ho) as Holt.
  exists nm, o, O, o0, O0. split_and!; auto.
  - rewrite Hf; auto. lia.
  - eapply entry_ok_frame; eauto.
  - intros k x Hx. destruct (Hr k x Hx) as (Hxl & Hxc & Hxo).
    split_and!; auto; [lia|].
    intros name' o' Hget. destruct (HCS _ _ Hget) as [Hold| ->]; [eauto|lia].
Qed.

Lemma prepare_loop_inv project w0 R reg c its :
  c = length (heap w0) -> closed (heap w0) -> heap w0 !! R = Some reg ->
  (forall it, In it its -> In it reg) ->
  forall w CS w' l,
    resolved_all project w0 reg c w CS ->
    for_each its (prepare_one project (VRef c)) w = (Ok tt, w', l) ->
    l = []
    /\ exists CS',
        resolved_all project w0 reg c w' CS'
        /\ (forall name v, dict_get name CS = Some v ->
              exists v', dict_get name CS' = Some v')
        /\ (forall name o0 O0,
              In (name, VRef o0) its -> heap w0 !! o0 = Some O0 ->
              dict_get (KStr "only_if") O0 <> Some (VFun false) ->
              exists v', dict_get name CS' = Some v').
Proof.
  intros Hc Hclosed HR. induction its as [|[name v0] its IH]; intros Hits w CS w' l HI H.
  - simpl in H. inversion H; subst. split; [reflexivity|].
    exists CS. split_and!; eauto. intros ? ? ? [].
  - simpl in H.
    apply bind_inv_ok in H as ([] & w1 & l1 & l2 & H1 & H & ->).
    destruct HI as [Hen Hold Hcs Hsv Hinj].
    pose proof (lookup_lt_Some _ _ _ Hcs) as Hclt.
    destruct (prepare_one_inv _ _ _ _ _ _ _ _ Hcs H1)
      as (-> & He1 & Hl1 & Hf1 & o0 & O0 & -> & Ho0 & Hcase).
    assert (Hin0 : In (name, VRef o0) reg) by (apply Hits; now left).
    assert (Ho0c : o0 < c).
    { rewrite Hc. exact (Hclosed R reg name o0 HR Hin0). }
    assert (Ho0' : heap w0 !! o0 = Some O0) by (rewrite <- Hold; auto).
    assert (Hframe : forall x, x < length (heap w) -> x <> c ->
                               heap w1 !! x = heap w !! x) by auto.
    assert (HI1 : exists CS1,
               resolved_all project w0 reg c w1 CS1
               /\ (forall name' v, dict_get name' CS = Some v ->
                     exists v', dict_get name' CS1 = Some v')
               /\ (dict_get (KStr "only_if") O0 <> Some (VFun false) ->
                   exists v', dict_get name CS1 = Some v')).
    { destruct Hcase as [[Hcs1 Hskip]|(nm & O & -> & Hcs1 & Hn1 & HO & Hentry)].
      - exists CS. split_and!; eauto; [|congruence].
        split; auto.
        + congruence.
        + intros x Hx. rewrite Hf1; auto; lia.
        + intros name' v Hget. eapply service_ok_frame; eauto.
      - exists (dict_set (KStr nm) (VRef (length (heap w))) CS).
        assert (Hsub : forall name' o',
                   dict_get name' (dict_set (KStr nm) (VRef (length (heap w))) CS)
                   = Some (VRef o') ->
                   dict_get name' CS = Some (VRef o') \/ o' = length (heap w)).
        { intros name' o'. rewrite dict_get_set.
          destruct (key_eqb (KStr nm) name'); [intros [= <-]; now right|now left]. }
        assert (Holdc : forall name' o', dict_get name' CS = Some (VRef o') ->
                                         c < o' /\ o' < length (heap w)).
        { intros name' o' Hget.
          destruct (Hsv _ _ Hget) as (? & o & ? & ? & ? & _ & [= <-] & ? & Ho & _).
          split; [assumption|eapply lookup_lt_Some; eauto]. }
        split_and!.
        + split; auto.
          * congruence.
          * intros x Hx. rewrite Hf1; auto; lia.
          * intros name' v. rewrite dict_get_set.
            destruct (key_eqb (KStr nm) name') eqn:Hk.
            -- apply key_eqb_eq in Hk as <-. intros [= <-].
               exists nm, (length (heap w)), O, o0, O0. split_and!; auto.
               ++ destruct Hentry as [Hn Ho Hr (p' & cont & Hp & Hop & Hh & Hnone & Hsome)].
                  split; auto. exists p', cont. split_and!; auto.
                  intros pp d Hpp Hlt Hd. eapply Hsome; eauto; [lia|].
                  rewrite Hold; auto.
               ++ intros k x Hx.
                  destruct (eo_refs _ _ _ _ _ _ _ _ Hentry k x Hx) as [[Hx1 Hx2]|Hx0].
                  ** split_and!; auto; [lia|].
                     intros name' o' Hget. destruct (Hsub _ _ Hget) as [Hg| ->]; [|lia].
                     destruct (Holdc _ _ Hg). lia.
                  ** assert (x < c).
                     { rewrite Hc. apply (Hclosed o0 O0 k x Ho0').
                       now apply dict_get_In. }
                     split_and!; [lia|lia|].
                     intros name' o' Hget. destruct (Hsub _ _ Hget) as [Hg| ->]; [|lia].
                     destruct (Holdc _ _ Hg). lia.
            -- intros Hget. eapply service_ok_frame; eauto.
          * intros n1 n2 o. rewrite !dict_get_set.
            destruct (key_eqb (KStr nm) n1) eqn:H1';
              destruct (key_eqb (KStr nm) n2) eqn:H2'.
            -- apply key_eqb_eq in H1', H2'. congruence.
            -- intros [= <-] Hg. destruct (Holdc _ _ Hg). lia.
            -- intros Hg [= <-]. destruct (Holdc _ _ Hg). lia.
            -- apply Hinj.
        + intros name' v Hget. rewrite dict_get_set.
          destruct (key_eqb (KStr nm) name'); eauto.
        + intros _. rewrite dict_get_set_eq. eauto. }
    destruct HI1 as (CS1 & HI1 & Hkeep & Hnew).
    destruct (IH (fun it Hit => Hits it (or_intror Hit)) _ _ _ _ HI1 H)
      as (-> & CS' & HI' & Hkeep' & Hnew').
    split; [reflexivity|]. exists CS'. split_and!; auto.
    + intros name' v Hget. destruct (Hkeep _ _ Hget) as [v1 Hv1]. eauto.
    + intros name' o1 O1 [[= -> ->]|Hin] Ho1 Hen1.
      * rewrite Ho0' in Ho1. injection Ho1 as <-.
        destruct (Hnew Hen1) as [v1 Hv1]. eauto.
      * eauto.
Qed.


Lemma prepare_containers_inv project silent R reg w cs w' l :
  closed (heap w) -> SENTRY_DEVSERVICES settings = VRef R ->
  heap w !! R = Some reg ->
  _prepare_containers project silent w = (Ok cs, w', l) ->
  let c := length (heap w) in
  cs = VRef c /\ l = []
  /\ exists CS,
      resolved_all project w reg c w' CS
      /\ forall name o0 O0,
           In (name, VRef o0) reg -> heap w !! o0 = Some O0 ->
           dict_get (KStr "only_if") O0 <> Some (VFun false) ->
           exists v', dict_get name CS = Some v'.
Proof.
  intros Hclosed HS HR H c. subst c. unfold _prepare_containers in H.
  assert (Ha : alloc [] w
               = (Ok (VRef (length (heap w))), World (heap w ++ [[]]) (engine w), []))
    by reflexivity.
  apply (bind_ok_inv _ _ _ _ _ _ _ _ _ Ha) in H as [l1 [H ->]].
  rewrite HS in H.
  assert (Hl : items (VRef R) (World (heap w ++ [[]]) (engine w))
               = (Ok reg, World (heap w ++ [[]]) (engine w), [])).
  { apply load_ok. simpl. now apply lookup_app_l_Some. }
  apply (bind_ok_inv _ _ _ _ _ _ _ _ _ Hl) in H as [l2 [H ->]].
  apply bind_inv_ok in H as ([] & w1 & l3 & l4 & H1 & H & ->).
  unfold ret in H. injection H as <- <- <-.
  assert (HI0 : resolved_all project w reg (length (heap w))
                  (World (heap w ++ [[]]) (engine w)) []).
  { split; simpl; auto.
    - intros x Hx. now apply lookup_app_l.
    - now apply list_lookup_middle.
    - intros name v [=].
    - intros n1 n2 o [=]. }
  destruct (prepare_loop_inv project w R reg (length (heap w)) reg eq_refl
              Hclosed HR (fun it Hit => Hit) _ _ _ _ HI0 H1)
    as (-> & CS & HI & _ & Hnew).
  split_and!; auto. exists CS. split; auto.
Qed.

(** *** Commands that use the heap only *)

(** [m] issues no call, leaves the engine alone and does not depend on it. *)
Definition heap_only {A} (m : M A) : Prop :=
  forall h, exists r h', forall e, m (World h e) = (r, World h' e, []).

Lemma heap_only_ret {A} (a : A) : heap_only (ret a).
Proof. intros h. now exists (Ok a), h. Qed.

Lemma heap_only_raise {A} e : heap_only (@raise A e).
Proof. intros h. now exists (Raise e), h. Qed.

Lemma heap_only_bind {A B} (m : M A) (f : A -> M B) :
  heap_only m -> (forall a, heap_only (f a)) -> heap_only (bind m f).
Proof.
  intros Hm Hf h. destruct (Hm h) as (r & h1 & H1). destruct r as [a|e].
  - destruct (Hf a h1) as (r2 & h2 & H2). exists r2, h2. intros e.
    unfold bind. now rewrite H1, H2.
  - exists (Raise e), h1. intros e0. unfold bind. now rewrite H1.
Qed.

Lemma heap_only_for_each {A} (body : A -> M unit) (xs : list A) :
  (forall x, heap_only (body x)) -> heap_only (for_each xs body).
Proof.
  intros Hb. induction xs as [|x xs IH]; simpl.
  - apply heap_only_ret.
  - apply heap_only_bind; auto.
Qed.

Lemma heap_only_load v : heap_only (load v).
Proof.
  intros h. unfold load. destruct v; try (now exists (Raise TypeError), h).
  simpl. destruct (h !! r) as [d|];
    [now exists (Ok d), h|now exists (Raise TypeError), h].
Qed.

Lemma heap_only_store v d : heap_only (store v d).
Proof.
  intros h. unfold store. destruct v; try (now exists (Raise TypeError), h).
  now exists (Ok tt), (<[r := d]> h).
Qed.

Lemma heap_only_alloc d : heap_only (alloc d).
Proof. intros h. now exists (Ok (VRef (length h))), (h ++ [d]). Qed.

Lemma heap_only_truth v : heap_only (truth v).
Proof. intros h. now exists (Ok (truthy h v)), h. Qed.

Lemma heap_only_getitem v k : heap_only (getitem v k).
Proof.
  unfold getitem. apply heap_only_bind; [apply heap_only_load|].
  intros d. destruct (dict_get k d); [apply heap_only_ret|apply heap_only_raise].
Qed.

Lemma heap_only_setitem v k x : heap_only (setitem v k x).
Proof.
  unfold setitem. apply heap_only_bind; [apply heap_only_load|].
  intros d. apply heap_only_store.
Qed.

Lemma heap_only_pop_default v k dflt : heap_only (pop_default v k dflt).
Proof.
  unfold pop_default. apply heap_only_bind; [apply heap_only_load|].
  intros d. destruct (dict_get k d); [|apply heap_only_ret].
  apply heap_only_bind; [apply heap_only_store|]. intros. apply heap_only_ret.
Qed.

Lemma heap_only_setdefault v k dflt :
  heap_only dflt -> heap_only (setdefault v k dflt).
Proof.
  intros Hd. unfold setdefault. apply heap_only_bind; [apply heap_only_load|].
  intros d. destruct (dict_get k d); [apply heap_only_ret|].
  apply heap_only_bind; [assumption|]. intros. apply heap_only_setitem.
Qed.

Lemma heap_only_ensure_interface v : heap_only (ensure_interface v).
Proof.
  unfold ensure_interface. apply heap_only_bind; [apply heap_only_alloc|].
  intros rv. apply heap_only_bind; [apply heap_only_load|].
  intros its. apply heap_only_bind; [|intros; apply heap_only_ret].
  apply heap_only_for_each. intros. apply heap_only_setitem.
Qed.

Lemma heap_only_prepare_one project containers item :
  heap_only (prepare_one project containers item).
Proof.
  unfold prepare_one. destruct item as [name options].
  apply heap_only_bind;
    [unfold copy; apply heap_only_bind;
     [apply heap_only_load|intros; apply heap_only_alloc]|].
  intros o. apply heap_only_bind; [apply heap_only_pop_default|].
  intros test_fn. apply heap_only_bind; [apply heap_only_truth|].
  intros t. apply heap_only_bind.
  { destruct t; [|apply heap_only_ret].
    apply heap_only_bind; [|intros; apply heap_only_ret].
    unfold call_only_if. destruct test_fn;
      first [apply heap_only_ret|apply heap_only_raise]. }
  intros skip. destruct skip; [apply heap_only_ret|].
  apply heap_only_bind; [apply heap_only_setitem|]. intros _.
  apply heap_only_bind; [apply heap_only_setitem|]. intros _.
  apply heap_only_bind.
  { unfold key_str. destruct name; [apply heap_only_ret|apply heap_only_raise]. }
  intros nm. apply heap_only_bind; [apply heap_only_setitem|]. intros _.
  apply heap_only_bind; [apply heap_only_setdefault, heap_only_alloc|]. intros _.
  apply heap_only_bind; [apply heap_only_setdefault, heap_only_alloc|]. intros _.
  apply heap_only_bind; [apply heap_only_setdefault, heap_only_alloc|]. intros _.
  apply heap_only_bind; [apply heap_only_getitem|]. intros p.
  apply heap_only_bind; [apply heap_only_ensure_interface|]. intros p'.
  apply heap_only_bind; [apply heap_only_setitem|]. intros _.
  apply heap_only_setitem.
Qed.

Lemma heap_only_prepare_containers project silent :
  heap_only (_prepare_containers project silent).
Proof.
  unfold _prepare_containers. apply heap_only_bind; [apply heap_only_alloc|].
  intros c. apply heap_only_bind; [apply heap_only_load|].
  intros its. apply heap_only_bind; [|intros; apply heap_only_ret].
  apply heap_only_for_each. intros. apply heap_only_prepare_one.
Qed.

Lemma heap_only_contains v k : heap_only (contains v k).
Proof.
  unfold contains. apply heap_only_bind; [apply heap_only_load|].
  intros. apply heap_only_ret.
Qed.

(** What a heap-only command does in a world. *)
Lemma heap_only_inv {A} (m : M A) w r w' l :
  heap_only m -> m w = (r, w', l) ->
  l = [] /\ engine w' = engine w
  /\ forall e, m (World (heap w) e) = (r, World (heap w') e, []).
Proof.
  intros Hm H. destruct (Hm (heap w)) as (r1 & h1 & H1).
  pose proof (H1 (engine w)) as Hw. rewrite world_eta, H in Hw.
  inversion Hw; subst. split_and!; auto.
Qed.


(** ** What one run of [_start_service] touches *)

(** The calls that change a container change [cn]. *)
Definition targets (cn : string) (c : call) : Prop :=
  match c with
  | ContainersCreate n | ContainerStart n | ContainerStop n | ContainerRemove n =>
      n = cn
  | _ => True
  end.


(** The calls that replace a container. *)
Definition is_recreate (c : call) : bool :=
  match c with
  | ContainersCreate _ | ContainerStop _ | ContainerRemove _ => true
  | _ => false
  end.

Lemma has_container_others n cn e :
  n <> cn ->
  has_container n e
  = existsb (fun c => (cname c =? n)%string) (others cn e).
Proof.
  intros Hn. unfold has_container, others.
  induction (conts e) as [|c cs IH]; simpl; [reflexivity|].
  destruct (cname c =? cn)%string eqn:Hc; simpl.
  - apply String.eqb_eq in Hc. rewrite IH.
    replace (cname c =? n)%string with false; [reflexivity|].
    symmetry. apply String.eqb_neq. congruence.
  - now rewrite IH.
Qed.

Lemma only_container_has n cn w w' :
  only_container cn w w' -> n <> cn ->
  has_container n (engine w') = has_container n (engine w).
Proof.
  intros (_ & _ & _ & _ & _ & Ho) Hn.
  now rewrite !(has_container_others n cn) by assumption; rewrite Ho.
Qed.

Lemma phase1_targets o O fast w w1 l1 cn :
  phase1 o O fast w w1 l1 -> Forall (targets cn) l1.
Proof.
  intros (_ & _ & HL & _). eapply List.Forall_impl; [|exact HL].
  intros c [Hc|Hc]; destruct c; simpl in *; tauto.
Qed.

Lemma start_calls_targets bw a cn : Forall (targets cn) (start_calls bw a cn).
Proof. unfold start_calls. destruct (bw && negb a); repeat constructor. Qed.

Lemma start_service_effects name c o O cn project fast always_start w r w' l :
  resolved w c name o O cn ->
  _start_service name (VRef c) project fast always_start w = (r, w', l) ->
  touches_only (footprint o O) w w'
  /\ (forall n, n <> cn -> has_container n (engine w') = has_container n (engine w))
  /\ Forall (targets cn) l
  /\ (forall x, r = Ok x ->
        x = cn /\ has_container cn (engine w') = true
        /\ (always_start = true ->
            is_running cn (engine w') = true
            /\ exists l0, l = l0 ++ [ContainerStart cn])).
Proof.
  intros [[CS [Hcs Hn]] Ho Hself Hcn] H.
  destruct (start_service_inv _ _ _ _ _ _ _ _ _ _ _ _ _ Hcs Hn Ho Hself Hcn H)
    as (w1 & l1 & l2 & -> & Hp1 & Hcase).
  pose proof Hp1 as (Ht & [Hconts _] & _ & _).
  destruct Hcase as [[e (-> & -> & ->)]|(O1 & Ho1 & Hcn1 & Hrec & _)].
  { split_and!; auto.
    - intros n _. unfold has_container. now rewrite Hconts.
    - rewrite app_nil_r. eapply phase1_targets; eauto.
    - discriminate. }
  destruct (reconcile_inv _ _ _ _ _ _ _ _ _ _ _ Ho1 Hcn1 Hrec)
    as (Hoc & calls & -> & Hc).
  split_and!.
  - destruct Ht as [Hl Hx]. destruct Hoc as [Hh _]. split; rewrite Hh; auto.
  - intros n Hne. rewrite (only_container_has _ _ _ _ Hoc Hne).
    unfold has_container. now rewrite Hconts.
  - apply Forall_app. split; [eapply phase1_targets; eauto|].
    constructor; [exact I|].
    destruct (has_container cn (engine w1)
              && (negb (truthy (heap w1) (popped O "pull"))
                  || truthy (heap w1) (popped O "with_devserver") || fast)).
    + destruct Hc as (_ & -> & _). apply start_calls_targets.
    + destruct Hc as [(_ & -> & _)|[e (_ & -> & _)]].
      * apply Forall_app. split.
        -- destruct (has_container cn (engine w1)); repeat constructor.
        -- constructor; [reflexivity|apply start_calls_targets].
      * destruct (has_container cn (engine w1)); repeat constructor.
  - intros x ->.
    assert (Hok : exists calls',
               has_container cn (engine w') = true
               /\ calls = calls' ++ start_calls
                            (truthy (heap w1) (popped O "with_devserver"))
                            always_start cn
               /\ (truthy (heap w1) (popped O "with_devserver")
                   && negb always_start = false ->
                   is_running cn (engine w') = true)
               /\ x = cn).
    { destruct (has_container cn (engine w1)
                && (negb (truthy (heap w1) (popped O "pull"))
                    || truthy (heap w1) (popped O "with_devserver") || fast)).
      - destruct Hc as ([= ->] & -> & Hh & Hrun). exists []. auto.
      - destruct Hc as [([= ->] & -> & Hh & Hrun)|[e [? _]]]; [|discriminate].
        eexists (_ ++ [ContainersCreate cn]). split_and!; auto.
        now rewrite <- app_assoc. }
    destruct Hok as (calls' & Hh & -> & Hrun & ->). split_and!; auto.
    intros ->. rewrite andb_false_r in Hrun. split; [auto|].
    unfold start_calls. rewrite andb_false_r.
    exists (l1 ++ ContainersGet cn :: calls').
    rewrite <- app_assoc. reflexivity.
Qed.


Lemma start_service_reuses name c o O cn bp bw project fast always_start
    w r w' l :
  resolved w c name o O cn ->
  flag_of O "pull" = Some bp -> flag_of O "with_devserver" = Some bw ->
  has_container cn (engine w) = true ->
  negb bp || bw || fast = true ->
  _start_service name (VRef c) project fast always_start w = (r, w', l) ->
  Forall (fun c => is_recreate c = false) l
  /\ has_container cn (engine w') = true.
Proof.
  intros [[CS [Hcs Hn]] Ho Hself Hcn] Hbp Hbw Hhas Hreuse H.
  destruct (start_service_inv _ _ _ _ _ _ _ _ _ _ _ _ _ Hcs Hn Ho Hself Hcn H)
    as (w1 & l1 & l2 & -> & Hp1 & Hcase).
  assert (HL1 : Forall (fun c => is_recreate c = false) l1).
  { destruct Hp1 as (_ & _ & HL & _). eapply List.Forall_impl; [|exact HL].
    intros c0 [Hc|Hc]; destruct c0; simpl in *; tauto. }
  assert (Hhas1 : has_container cn (engine w1) = true).
  { now rewrite (phase1_has_container _ _ _ _ _ _ _ Hp1). }
  destruct Hcase as [[e (_ & -> & ->)]|(O1 & Ho1 & Hcn1 & Hrec & _)].
  { split; [|assumption]. now rewrite app_nil_r. }
  destruct (reconcile_inv _ _ _ _ _ _ _ _ _ _ _ Ho1 Hcn1 Hrec)
    as (_ & calls & -> & Hc).
  rewrite (flag_truthy _ _ _ _ Hbp), (flag_truthy _ _ _ _ Hbw), Hhas1, Hreuse in Hc.
  simpl in Hc. destruct Hc as (_ & -> & Hh & _). split; [|assumption].
  apply Forall_app. split; [assumption|]. constructor; [reflexivity|].
  unfold start_calls. destruct (bw && negb always_start); repeat constructor.
Qed.


(** ** The loop of [up] *)

(** While [up] runs, the resolved mapping is as the resolver left it, and so
    are the options of the services still to come. *)
Definition pending_ok (wp w : world) (c : ref) (CS : pydict)
    (rest : list pykey) : Prop :=
  heap w !! c = Some CS
  /\ forall name o, In name rest -> dict_get name CS = Some (VRef o) ->
                    heap w !! o = heap wp !! o.

Lemma ordinary_flag k :
  k = "pull" \/ k = "with_devserver" -> ordinary (KStr k).
Proof. intros [-> | ->]; unfold ordinary; split_and!; discriminate. Qed.

Lemma flag_of_ordinary O O0 k :
  (forall k, ordinary k -> dict_get k O = dict_get k O0) ->
  k = "pull" \/ k = "with_devserver" ->
  flag_of O k = flag_of O0 k.
Proof. intros H Hk. unfold flag_of. now rewrite H by now apply ordinary_flag. Qed.

(** A service still to come is a resolved service. *)
Lemma service_resolved project w0 reg c wp CS w rest name v :
  resolved_all project w0 reg c wp CS ->
  pending_ok wp w c CS rest -> In name rest ->
  dict_get name CS = Some v ->
  exists nm o O o0 O0,
    name = KStr nm /\ v = VRef o
    /\ resolved w c name o O (project ++ "_" ++ nm)
    /\ In (name, VRef o0) reg /\ heap w0 !! o0 = Some O0
    /\ (forall k, ordinary k -> dict_get k O = dict_get k O0)
    /\ (forall x, footprint o O x ->
          x <> c
          /\ forall name' o', name' <> name ->
               dict_get name' CS = Some (VRef o') -> x <> o').
Proof.
  intros HI [Hcs Hpend] Hin Hget.
  destruct (ra_services _ _ _ _ _ _ HI _ _ Hget)
    as (nm & o & O & o0 & O0 & -> & -> & Hco & Ho & Hreg & Ho0 & He & Hr).
  exists nm, o, O, o0, O0. split_and!; auto.
  - split.
    + now exists CS.
    + rewrite (Hpend _ _ Hin Hget). assumption.
    + intros [k Hk]. destruct (Hr k o Hk) as (_ & _ & Hne).
      now apply (Hne _ _ Hget).
    + apply He.
  - apply He.
  - intros x [->|[k Hk]].
    + split; [lia|]. intros name' o' Hne Hget' ->.
      apply Hne. eapply ra_inj; eauto.
    + destruct (Hr k x Hk) as (_ & Hxc & Hne). split; [assumption|].
      intros name' o' _ Hget'. eauto.
Qed.

Lemma contains_ok c CS name w :
  heap w !! c = Some CS ->
  contains (VRef c) name w
  = (Ok (match dict_get name CS with Some _ => true | None => false end), w, []).
Proof.
  intros Hc. unfold contains. now rewrite (bind_ok _ _ _ _ _ _ (load_ok _ _ _ Hc)).
Qed.

(** One round of [up]: the service is skipped, or reconciled as a resolved
    service; either way the services still to come are not touched. *)
Lemma up_one_step project exclude fast w0 reg c wp CS name v rest w r w' l :
  resolved_all project w0 reg c wp CS ->
  pending_ok wp w c CS (name :: rest) -> ~ In name rest ->
  up_one project exclude fast (VRef c) (name, v) w = (r, w', l) ->
  pending_ok wp w' c CS rest
  /\ ((r = Ok tt /\ w' = w /\ l = []
       /\ (key_in name exclude = true \/ dict_get name CS = None))
      \/ exists nm o O o0 O0 r',
           key_in name exclude = false /\ name = KStr nm
           /\ dict_get name CS = Some (VRef o)
           /\ resolved w c name o O (project ++ "_" ++ nm)
           /\ In (name, VRef o0) reg /\ heap w0 !! o0 = Some O0
           /\ (forall k, ordinary k -> dict_get k O = dict_get k O0)
           /\ _start_service name (VRef c) project fast false w = (r', w', l)
           /\ r = match r' with Ok _ => Ok tt | Raise e => Raise e end).
Proof.
  intros HI Hp Hnin H. pose proof Hp as [Hcs Hpend].
  assert (Hrest : pending_ok wp w c CS rest).
  { split; [assumption|]. intros n o Hn. apply (Hpend n o). now right. }
  unfold up_one in H. destruct (key_in name exclude) eqn:Hex.
  { inversion H; subst. split; [assumption|]. left. auto. }
  apply (bind_ok_inv _ _ _ _ _ _ _ _ _ (contains_ok _ _ name _ Hcs)) in H
    as [l1 [H ->]].
  destruct (dict_get name CS) as [v1|] eqn:Hget; simpl in H.
  2:{ inversion H; subst. split; [assumption|]. left. auto. }
  destruct (service_resolved _ _ _ _ _ _ _ _ _ _ HI Hp (or_introl eq_refl) Hget)
    as (nm & o & O & o0 & O0 & -> & -> & Hres & Hreg & Ho0 & Hord & Hfoot).
  destruct (_start_service (KStr nm) (VRef c) project fast false w)
    as [[r' w1] l'] eqn:Hs.
  assert (r = match r' with Ok _ => Ok tt | Raise e => Raise e end
          /\ w' = w1 /\ l1 = l') as (-> & -> & ->).
  { unfold bind in H. rewrite Hs in H. destruct r'; inversion H; subst;
      rewrite ?app_nil_r; auto. }
  destruct (start_service_effects _ _ _ _ _ _ _ _ _ _ _ _ Hres Hs) as ([_ Ht] & _).
  split.
  - split.
    + rewrite Ht; [assumption|]. intros Hf. now destruct (Hfoot _ Hf).
    + intros n o' Hn Hget'. rewrite Ht; [apply (Hpend n o'); [now right|assumption]|].
      intros Hf. destruct (Hfoot _ Hf) as [_ Hne].
      apply (Hne n o'); [|assumption|reflexivity].
      intros ->. contradiction.
  - right. exists nm, o, O, o0, O0, r'. split_and!; auto.
Qed.

(** An invariant [P] of the rounds still to come and of the world, with the
    calls in [L], through the loop of [up]. *)
Lemma up_loop_invariant project exclude fast w0 reg c wp CS
    (P : list (pykey * pyval) -> world -> Prop) (L : call -> Prop) :
  resolved_all project w0 reg c wp CS ->
  (forall name v rest w r w' l,
      pending_ok wp w c CS (name :: map fst rest) -> ~ In name (map fst rest) ->
      P ((name, v) :: rest) w ->
      up_one project exclude fast (VRef c) (name, v) w = (r, w', l) ->
      Forall L l /\ (r = Ok tt -> P rest w')) ->
  forall its w r w' l,
    List.NoDup (map fst its) ->
    pending_ok wp w c CS (map fst its) -> P its w ->
    for_each its (up_one project exclude fast (VRef c)) w = (r, w', l) ->
    Forall L l /\ (r = Ok tt -> P [] w').
Proof.
  intros HI Hstep. induction its as [|[name v] its IH]; intros w r w' l Hnd Hp HP H.
  - simpl in H. inversion H; subst. split; [constructor|auto].
  - simpl in H, Hnd, Hp. inversion Hnd as [|? ? Hnin Hnd']; subst.
    apply bind_inv in H as [[e [H ->]]|[[] [w1 [l1 [l2 [H1 [H ->]]]]]]].
    + destruct (Hstep name v its _ _ _ _ Hp Hnin HP H) as [HL _].
      split; [assumption|discriminate].
    + destruct (Hstep name v its _ _ _ _ Hp Hnin HP H1) as [HL HP1].
      destruct (up_one_step _ _ _ _ _ _ _ _ name v (map fst its) _ _ _ _ HI Hp Hnin H1)
        as [Hp1 _].
      destruct (IH _ _ _ _ Hnd' Hp1 (HP1 eq_refl) H) as [HL2 HP2].
      split; [|assumption]. apply Forall_app. now split.
Qed.


Lemma NoDup_keys_inj (d : pydict) k v1 v2 :
  List.NoDup (map fst d) -> In (k, v1) d -> In (k, v2) d -> v1 = v2.
Proof.
  intros Hnd H1 H2.
  apply (In_dict_get _ _ _ Hnd) in H1. apply (In_dict_get _ _ _ Hnd) in H2.
  congruence.
Qed.

Lemma container_name_inj project a b :
  (project ++ "_" ++ a = project ++ "_" ++ b)%string -> a = b.
Proof. intros H. apply append_inj_r in H. now apply (append_inj_r "_") in H. Qed.


Definition recreates (cn : string) (c : call) : bool :=
  match c with
  | ContainersCreate n | ContainerStop n | ContainerRemove n => (n =? cn)%string
  | _ => false
  end.


Lemma targets_other_recreates cn cn' l :
  cn <> cn' -> Forall (targets cn) l -> Forall (fun c => recreates cn' c = false) l.
Proof.
  intros Hne HL. eapply List.Forall_impl; [|exact HL].
  intros c Hc. destruct c; simpl in *; auto; apply String.eqb_neq; congruence.
Qed.

Section UpLoop.

Variables (project : string) (exclude : list string) (fast : bool).
Variables (w0 : world) (reg : pydict) (c : ref) (wp : world) (CS : pydict).
Variables (s : string) (o0 : ref) (O0 : pydict).

Hypothesis HI : resolved_all project w0 reg c wp CS.
Hypothesis Hnd : List.NoDup (map fst reg).
Hypothesis Hs : In (KStr s, VRef o0) reg.
Hypothesis HO0 : heap w0 !! o0 = Some O0.

Let cn := (project ++ "_" ++ s)%string.


(** After the loop of [up] has returned, the container of a service that is
    resolved and not excluded exists. *)
Lemma up_loop_creates v w w' l :
  key_in (KStr s) exclude = false -> dict_get (KStr s) CS = Some v ->
  pending_ok wp w c CS (map fst reg) ->
  for_each reg (up_one project exclude fast (VRef c)) w = (Ok tt, w', l) ->
  has_container cn (engine w') = true.
Proof.
  intros Hex Hget Hp H.
  set (P := fun (its : list (pykey * pyval)) (w : world) =>
              In (KStr s) (map fst its) \/ has_container cn (engine w) = true).
  assert (Hstep : forall name v1 rest w r w' l,
             pending_ok wp w c CS (name :: map fst rest) ->
             ~ In name (map fst rest) -> P ((name, v1) :: rest) w ->
             up_one project exclude fast (VRef c) (name, v1) w = (r, w', l) ->
             Forall (fun _ => True) l /\ (r = Ok tt -> P rest w')).
  { clear w w' l Hp H. intros name v1 rest w r w' l Hp Hnin HP H.
    split; [apply List.Forall_forall; auto|]. intros ->.
    unfold P in HP |- *. simpl in HP.
    destruct (up_one_step _ _ _ _ _ _ _ _ _ _ _ _ _ _ _ HI Hp Hnin H)
      as [_ [( _ & -> & _ & Hskip)|
             (nm & o & O & o1 & O1 & r' & _ & -> & _ & Hres & _ & _ & _
              & Hrun & Hr)]].
    - destruct HP as [[->|Hin]|Hhas]; [|now left|now right].
      destruct Hskip; congruence.
    - destruct r' as [x|e]; [|discriminate].
      destruct (start_service_effects _ _ _ _ _ _ _ _ _ _ _ _ Hres Hrun)
        as (_ & Hother & _ & Hok).
      destruct (String.eqb_spec nm s) as [->|Hne].
      + right. now destruct (Hok x eq_refl) as (_ & Hh & _).
      + destruct HP as [[[= Heq]|Hin]|Hhas]; [congruence|now left|right].
        rewrite Hother; [assumption|].
        intros Heq. apply Hne. symmetry. eapply container_name_inj; eauto. }
  assert (HP0 : P reg w).
  { left. apply in_map_iff. now exists (KStr s, VRef o0). }
  destruct (up_loop_invariant project exclude fast w0 reg c wp CS P
              (fun _ => True) HI Hstep reg w (Ok tt) w' l Hnd Hp HP0 H) as [_ HP].
  destruct (HP eq_refl) as [[]|Hhas]. assumption.
Qed.

(** When its container exists, a service without a forced pull, or marked
    with_devserver, or any service in fast mode, is not recreated by the loop
    of [up]. *)
Lemma up_loop_reuses bp bw w r w' l :
  flag_of O0 "pull" = Some bp -> flag_of O0 "with_devserver" = Some bw ->
  negb bp || bw || fast = true ->
  (key_in (KStr s) exclude = false -> dict_get (KStr s) CS <> None ->
   has_container cn (engine w) = true) ->
  pending_ok wp w c CS (map fst reg) ->
  for_each reg (up_one project exclude fast (VRef c)) w = (r, w', l) ->
  Forall (fun c => recreates cn c = false) l.
Proof.
  intros Hbp Hbw Hreuse Hhas Hp H.
  eapply (up_loop_invariant _ _ _ _ _ _ _ _
            (fun _ w => key_in (KStr s) exclude = false ->
                        dict_get (KStr s) CS <> None ->
                        has_container cn (engine w) = true)); eauto.
  clear w r w' l Hp H Hhas. intros name v rest w r w' l Hp Hnin HP H.
  destruct (up_one_step _ _ _ _ _ _ _ _ _ _ _ _ _ _ _ HI Hp Hnin H)
    as [_ [( _ & -> & -> & _)|
           (nm & o & O & o1 & O1 & r' & Hex & -> & Hget & Hres & Hreg & Ho1 & Hord
            & Hrun & _)]]; [split; [constructor|auto]|].
  destruct (String.eqb_spec nm s) as [->|Hne].
  - assert (o1 = o0) as ->.
    { assert (VRef o1 = VRef o0) by (eapply NoDup_keys_inj; eauto). congruence. }
    rewrite HO0 in Ho1. injection Ho1 as <-.
    assert (Hfp : flag_of O "pull" = Some bp).
    { rewrite (flag_of_ordinary _ _ _ Hord); auto. }
    assert (Hfw : flag_of O "with_devserver" = Some bw).
    { rewrite (flag_of_ordinary _ _ _ Hord); auto. }
    assert (Hh : has_container cn (engine w) = true).
    { apply HP; [assumption|congruence]. }
    destruct (start_service_reuses _ _ _ _ _ _ _ _ _ _ _ _ _ _
                Hres Hfp Hfw Hh Hreuse Hrun) as [HL Hh'].
    split; [|auto].
    eapply List.Forall_impl; [|exact HL].
    intros c0 Hc0. destruct c0; simpl in *; auto; discriminate.
  - destruct (start_service_effects _ _ _ _ _ _ _ _ _ _ _ _ Hres Hrun)
      as (_ & Hother & HL & _).
    assert (Hcn : (project ++ "_" ++ nm)%string <> cn).
    { intros Heq. apply Hne. eapply container_name_inj; eauto. }
    split; [eapply targets_other_recreates; eauto|].
    intros _ Hex' Hget'. rewrite Hother; auto.
Qed.

End UpLoop.


(** ** The commands [up] and [attach] *)

Definition prelude_call (c : call) : Prop :=
  match c with
  | Ping | NetworksGet _ | NetworksCreate _ => True
  | _ => False
  end.

Lemma get_or_create_network_inv n w r w' l :
  get_or_create Network n w = (r, w', l) ->
  heap w' = heap w /\ conts (engine w') = conts (engine w)
  /\ Forall prelude_call l.
Proof.
  unfold get_or_create, try_except. intros H. prim_inv H;
    split_and!; auto; now repeat constructor.
Qed.

Lemma pending_ok_refl wp c CS rest :
  heap wp !! c = Some CS -> pending_ok wp wp c CS rest.
Proof. intros H. split; auto. Qed.

(** [up] until its loop: the prelude, then the resolver, which does not
    depend on the engine. *)
Lemma up_inv project exclude fast R reg w r w' l :
  closed (heap w) -> SENTRY_DEVSERVICES settings = VRef R ->
  heap w !! R = Some reg ->
  up project exclude fast w = (r, w', l) ->
  exists la lb,
    l = la ++ lb /\ Forall prelude_call la
    /\ ((exists e, r = Raise e /\ lb = []
                   /\ conts (engine w') = conts (engine w))
        \/ exists wa wp CS,
             heap wa = heap w /\ conts (engine wa) = conts (engine w)
             /\ engine wp = engine wa
             /\ (forall e, exists r0,
                   _prepare_containers project false (World (heap w) e)
                   = (r0, World (heap wp) e, []))
             /\ resolved_all project wa reg (length (heap w)) wp CS
             /\ (forall name o0 O0,
                   In (name, VRef o0) reg -> heap w !! o0 = Some O0 ->
                   dict_get (KStr "only_if") O0 <> Some (VFun false) ->
                   exists v', dict_get name CS = Some v')
             /\ for_each reg
                  (up_one project (flat_map split_comma exclude) fast
                     (VRef (length (heap w)))) wp = (r, w', lb)).
Proof.
  intros Hclosed HS HR H. unfold up in H.
  apply bind_inv in H as [[e [H ->]]|[[] [w1 [l1 [l1' [H1 [H ->]]]]]]].
  { apply get_docker_client_inv in H as [-> ->].
    exists [Ping], []. split_and!; [reflexivity|now repeat constructor|left; eauto]. }
  apply get_docker_client_inv in H1 as [-> ->].
  apply bind_inv in H as [[e [H ->]]|[net [wa [l2 [l2' [H2 [H ->]]]]]]].
  { apply get_or_create_network_inv in H as (_ & Hc & HL).
    exists ([Ping] ++ l1'), []. split_and!; [now rewrite app_nil_r| |left; eauto].
    apply Forall_app. split; [now repeat constructor|assumption]. }
  apply get_or_create_network_inv in H2 as (Hha & Hca & HLa).
  assert (HLpre : Forall prelude_call ([Ping] ++ l2)).
  { apply Forall_app. split; [now repeat constructor|assumption]. }
  apply bind_inv in H as [[e [H ->]]|[cs [wp [l3 [l3' [H3 [H ->]]]]]]].
  { destruct (heap_only_inv _ _ _ _ _ (heap_only_prepare_containers project false) H)
      as (-> & He & _).
    exists ([Ping] ++ l2), []. split_and!; [now rewrite !app_nil_r|assumption|].
    left. exists e. split_and!; auto. now rewrite He. }
  destruct (heap_only_inv _ _ _ _ _ (heap_only_prepare_containers project false) H3)
    as (-> & Hep & Hdet).
  assert (Hclosed' : closed (heap wa)) by now rewrite Hha.
  assert (HR' : heap wa !! R = Some reg) by now rewrite Hha.
  destruct (prepare_containers_inv _ _ _ _ _ _ _ _ Hclosed' HS HR' H3)
    as (-> & _ & CS & HI & Hnew).
  rewrite Hha in *.
  assert (Hitems : items (SENTRY_DEVSERVICES settings) wp = (Ok reg, wp, [])).
  { rewrite HS. apply load_ok. rewrite (ra_old _ _ _ _ _ _ HI).
    - now rewrite Hha.
    - eapply lookup_lt_Some; eauto. }
  apply (bind_ok_inv _ _ _ _ _ _ _ _ _ Hitems) in H as [l4 [H ->]].
  exists ([Ping] ++ l2), l4. split_and!; [now rewrite !app_nil_l|assumption|].
  right. exists wa, wp, CS. split_and!; eauto.
Qed.



Lemma prelude_no_container_call l (f : call -> bool) :
  (forall c, prelude_call c -> f c = false) ->
  Forall prelude_call l -> Forall (fun c => f c = false) l.
Proof. intros Hf HL. eapply List.Forall_impl; [|exact HL]. exact Hf. Qed.

(** C3, amended: for a service without a forced pull flag, or marked
    with_devserver, or when the second run is in fast mode, [up] run for the
    same project and with the same exclusions on the engine that a previous
    [up] that returned has left, with the registry as it was, issues no
    create, stop or remove call for the container of the service, whether
    this second run returns or raises: of the calls that change a container,
    it at most starts it. *)
Theorem second_up_reuses_the_container
    (project s : string) (exclude : list string) (fast1 fast2 bp bw : bool)
    (R o0 : ref) (reg O0 : pydict) (w w1 w2 : world) (r2 : result unit)
    (l1 l2 : list call) :
  closed (heap w) ->
  SENTRY_DEVSERVICES settings = VRef R -> heap w !! R = Some reg ->
  List.NoDup (dict_keys reg) ->
  In (KStr s, VRef o0) reg -> heap w !! o0 = Some O0 ->
  flag_of O0 "pull" = Some bp -> flag_of O0 "with_devserver" = Some bw ->
  negb bp || bw || fast2 = true ->
  up project exclude fast1 w = (Ok tt, w1, l1) ->
  up project exclude fast2 (World (heap w) (engine w1)) = (r2, w2, l2) ->
  let cn := (project ++ "_" ++ s)%string in
  ~ In (ContainersCreate cn) l2
  /\ ~ In (ContainerStop cn) l2
  /\ ~ In (ContainerRemove cn) l2.
Proof.
  intros Hclosed HS HR Hnd Hin Ho0 Hbp Hbw Hreuse Hup1 Hup2 cn.
  assert (HL : Forall (fun c => recreates cn c = false) l2).
  { destruct (up_inv _ _ _ _ _ _ _ _ _ Hclosed HS HR Hup1)
      as (la1 & lb1 & -> & _ & [[e [? _]]|
          (wa1 & wp1 & CS1 & Hha1 & Hca1 & Hep1 & Hdet1 & HI1 & _ & Hloop1)]);
      [discriminate|].
    destruct (up_inv project exclude fast2 R reg (World (heap w) (engine w1))
                _ _ _ Hclosed HS HR Hup2)
      as (la2 & lb2 & -> & HLa & Hcase).
    assert (HLa' : Forall (fun c => recreates cn c = false) la2).
    { apply prelude_no_container_call; [|assumption]. now intros []. }
    destruct Hcase as [[e (_ & -> & _)]|
        (wa2 & wp2 & CS2 & Hha2 & Hca2 & Hep2 & Hdet2 & HI2 & _ & Hloop2)].
    { now rewrite app_nil_r. }
    simpl in *.
    assert (Hheap : heap wp2 = heap wp1).
    { destruct (Hdet1 (engine w)) as [r1 E1]. destruct (Hdet2 (engine w)) as [r0 E2].
      rewrite E1 in E2. now injection E2. }
    assert (HCS : CS2 = CS1).
    { pose proof (ra_cs _ _ _ _ _ _ HI1) as E1.
      pose proof (ra_cs _ _ _ _ _ _ HI2) as E2. rewrite Hheap in E2. congruence. }
    subst CS2.
    apply Forall_app. split; [assumption|].
    assert (Ho0a : heap wa2 !! o0 = Some O0) by now rewrite Hha2.
    assert (Ho0b : heap wa1 !! o0 = Some O0) by now rewrite Hha1.
    eapply (up_loop_reuses project _ fast2 wa2 reg _ wp2 CS1 s o0 O0); eauto.
    - intros Hex Hget. destruct (dict_get (KStr s) CS1) as [v|] eqn:Hv; [|congruence].
      unfold has_container. rewrite Hep2, Hca2.
      apply (up_loop_creates project _ fast1 wa1 reg _ wp1 CS1 s o0 HI1 Hnd Hin
               v wp1 w1 lb1 Hex Hv); [|assumption].
      apply pending_ok_refl. apply (ra_cs _ _ _ _ _ _ HI1).
    - apply pending_ok_refl. apply (ra_cs _ _ _ _ _ _ HI2). }
  rewrite List.Forall_forall in HL.
  split_and!; intros Hc; apply HL in Hc; simpl in Hc;
    now rewrite String.eqb_refl in Hc.
Qed.

(** C5: in the options the resolver returns for a service, the port bindings
    are those of the registry with every value that is not a tuple replaced
    by the pair of the loopback address and that value, and every tuple as it
    was. *)
Theorem bare_ports_bind_to_loopback
    (project s : string) (silent : bool) (R o0 pp : ref) (reg O0 d : pydict)
    (w w' : world) (c o : ref) (CS O : pydict) (l : list call) :
  closed (heap w) ->
  SENTRY_DEVSERVICES settings = VRef R -> heap w !! R = Some reg ->
  List.NoDup (dict_keys reg) ->
  In (KStr s, VRef o0) reg -> heap w !! o0 = Some O0 ->
  dict_get (KStr "ports") O0 = Some (VRef pp) -> heap w !! pp = Some d ->
  List.NoDup (dict_keys d) ->
  _prepare_containers project silent w = (Ok (VRef c), w', l) ->
  heap w' !! c = Some CS -> dict_get (KStr s) CS = Some (VRef o) ->
  heap w' !! o = Some O ->
  exists p',
    dict_get (KStr "ports") O = Some (VRef p')
    /\ heap w' !! p' =
         Some (map (fun kv =>
                      (fst kv,
                       match snd kv with
                       | VTuple _ => snd kv
                       | port => VTuple [VStr "127.0.0.1"; port]
                       end)) d).
Proof.
  intros Hclosed HS HR Hnd Hin Ho0 Hports Hpp Hndd H Hc Hget HO.
  destruct (prepare_containers_inv _ _ _ _ _ _ _ _ Hclosed HS HR H)
    as ([= ->] & _ & CS' & HI & _).
  rewrite (ra_cs _ _ _ _ _ _ HI) in Hc. injection Hc as ->.
  destruct (ra_services _ _ _ _ _ _ HI _ _ Hget)
    as (nm & o' & O' & o1 & O1 & [= <-] & [= <-] & _ & HO' & Hin1 & Ho1 & He & _).
  rewrite HO in HO'. injection HO' as <-.
  assert (o1 = o0) as ->.
  { pose proof (NoDup_keys_inj reg (KStr s) _ _ Hnd Hin1 Hin). congruence. }
  rewrite Ho0 in Ho1. injection Ho1 as <-.
  destruct (eo_ports _ _ _ _ _ _ _ _ He) as (p' & cont & Hp' & _ & Hh & _ & Hsome).
  exists p'. split; [assumption|]. rewrite Hh.
  rewrite (Hsome pp d Hports (lookup_lt_Some _ _ _ Hpp) Hpp).
  rewrite (with_interfaces_map d Hndd []) by (intros k _ []).
  simpl. f_equal. apply map_ext. now intros [k []].
Qed.


(** ** Further properties of the commands *)

(** *** The engine check and [get_or_create] *)

Lemma get_docker_client_unreachable w :
  reachable (engine w) = false ->
  get_docker_client w
  = (Raise (ClickException "Make sure Docker is running."), w, [Ping]).
Proof.
  intros H. unfold get_docker_client, try_except, ping, bind, log, get_engine.
  simpl. rewrite H. simpl. now destruct w.
Qed.

(** X1: when the engine does not answer, [up], [attach], [down] and an
    accepted [rm] all stop at the first step: they raise the click error
    "Make sure Docker is running.", have issued the ping and nothing else,
    and leave the heap and the engine as they were. *)
Theorem commands_stop_without_engine (project : string)
    (exclude service : list string) (fast : bool) (s : string) (w : world) :
  reachable (engine w) = false ->
  up project exclude fast w
  = (Raise (ClickException "Make sure Docker is running."), w, [Ping])
  /\ attach project fast s w
     = (Raise (ClickException "Make sure Docker is running."), w, [Ping])
  /\ down project service w
     = (Raise (ClickException "Make sure Docker is running."), w, [Ping])
  /\ rm true project service w
     = (Raise (ClickException "Make sure Docker is running."), w, [Ping]).
Proof.
  intros H. pose proof (get_docker_client_unreachable w H) as E.
  split_and!.
  - unfold up. now rewrite (bind_raise _ _ _ _ _ _ E).
  - unfold attach. now rewrite (bind_raise _ _ _ _ _ _ E).
  - unfold down. now rewrite (bind_raise _ _ _ _ _ _ E).
  - unfold rm, confirm.
    rewrite (bind_ok _ _ w tt w [] eq_refl).
    now rewrite (bind_raise _ _ _ _ _ _ E).
Qed.

Definition thing_exists (t : thing) (n : string) (e : docker) : bool :=
  match t with
  | Network => str_in n (networks e)
  | Volume => str_in n (volumes e)
  end.

Definition get_call (t : thing) (n : string) : call :=
  match t with Network => NetworksGet n | Volume => VolumesGet n end.

Definition create_call (t : thing) (n : string) : call :=
  match t with Network => NetworksCreate n | Volume => VolumesCreate n end.

Lemma str_in_app_r x xs : str_in x (xs ++ [x]) = true.
Proof.
  unfold str_in. rewrite existsb_app. simpl.
  rewrite String.eqb_refl. now rewrite orb_true_r.
Qed.

Lemma get_or_create_present t n w :
  thing_exists t n (engine w) = true ->
  get_or_create t n w = (Ok n, w, [get_call t n]).
Proof.
  intros H. unfold get_or_create, try_except, thing_get, bind, get_engine, log.
  destruct t; simpl in *; rewrite H; simpl; now destruct w.
Qed.

(** X2: [get_or_create] never raises and returns the name it was given; the
    network or volume exists afterwards; it issues the lookup, followed by
    the creation exactly when the thing did not exist, and changes nothing
    when it did; a second call finds the thing and creates nothing. *)
Theorem get_or_create_creates_once (t : thing) (n : string) (w : world) :
  exists w1,
    get_or_create t n w
    = (Ok n, w1,
       get_call t n
         :: (if thing_exists t n (engine w) then [] else [create_call t n]))
    /\ thing_exists t n (engine w1) = true
    /\ (thing_exists t n (engine w) = true -> w1 = w)
    /\ get_or_create t n w1 = (Ok n, w1, [get_call t n]).
Proof.
  destruct (thing_exists t n (engine w)) eqn:H.
  - exists w. rewrite (get_or_create_present t n w H). auto.
  - assert (E : exists w1,
               get_or_create t n w = (Ok n, w1, [get_call t n; create_call t n])
               /\ thing_exists t n (engine w1) = true).
    { unfold get_or_create, try_except, thing_get, thing_create, bind,
        get_engine, put_engine, log.
      destruct t; simpl in *; rewrite H; simpl; eexists; split;
        try reflexivity; simpl; apply str_in_app_r. }
    destruct E as (w1 & E & H1). exists w1. split_and!; auto; [discriminate|].
    now apply get_or_create_present.
Qed.


(** *** [ensure_interface] and the resolver *)

Definition is_tuple (v : pyval) : Prop :=
  match v with VTuple _ => True | _ => False end.

Lemma default_interface_tuple v : is_tuple (default_interface v).
Proof. now destruct v. Qed.

Lemma default_interface_fixed v : is_tuple v -> default_interface v = v.
Proof. now destruct v. Qed.

(** X3: [ensure_interface] builds a new mapping and leaves every object of
    the heap, its argument included, as it was; the new mapping has the keys
    of the argument, in their order, and tuples as values; given its own
    result it returns an equal mapping. *)
Theorem ensure_interface_fresh_and_idempotent (pp : ref) (d : pydict) (w : world) :
  heap w !! pp = Some d -> List.NoDup (dict_keys d) ->
  let rv := length (heap w) in
  exists w1 d1,
    ensure_interface (VRef pp) w = (Ok (VRef rv), w1, [])
    /\ heap w1 !! rv = Some d1
    /\ (forall x, x < rv -> heap w1 !! x = heap w !! x)
    /\ engine w1 = engine w
    /\ dict_keys d1 = dict_keys d
    /\ Forall (fun kv => is_tuple (snd kv)) d1
    /\ exists w2,
         ensure_interface (VRef rv) w1 = (Ok (VRef (S rv)), w2, [])
         /\ heap w2 !! S rv = Some d1.
Proof.
  intros Hpp Hnd rv.
  set (d1 := map (fun kv : pykey * pyval => (fst kv, default_interface (snd kv))) d).
  assert (Hd1 : with_interfaces d [] = d1).
  { rewrite (with_interfaces_map d Hnd []) by (intros k _ []). reflexivity. }
  assert (Hk : dict_keys d1 = dict_keys d).
  { unfold d1, dict_keys. rewrite map_map. reflexivity. }
  assert (Ht : Forall (fun kv : pykey * pyval => is_tuple (snd kv)) d1).
  { unfold d1. apply List.Forall_forall. intros kv Hkv.
    apply in_map_iff in Hkv as [kv0 [<- _]]. apply default_interface_tuple. }
  assert (Hfix : with_interfaces d1 [] = d1).
  { rewrite (with_interfaces_map d1) by (rewrite ?Hk; auto; intros k _ []).
    simpl. clear Hd1 Hk. induction Ht as [|[k v] l Hv _ IH]; simpl; [reflexivity|].
    simpl in Hv. rewrite (default_interface_fixed v Hv). now f_equal. }
  exists (World (heap w ++ [d1]) (engine w)), d1.
  rewrite (ensure_interface_ok pp d w Hpp), Hd1.
  split_and!; auto.
  - simpl. now apply list_lookup_middle.
  - intros x Hx. simpl. now apply lookup_app_l.
  - exists (World ((heap w ++ [d1]) ++ [d1]) (engine w)).
    assert (Hrv : heap (World (heap w ++ [d1]) (engine w)) !! rv = Some d1).
    { simpl. now apply list_lookup_middle. }
    rewrite (ensure_interface_ok rv d1 _ Hrv), Hfix. simpl.
    rewrite length_app. simpl.
    replace (length (heap w) + 1) with (S rv) by (unfold rv; lia).
    split; [reflexivity|]. apply list_lookup_middle. rewrite length_app. simpl.
    unfold rv. lia.
Qed.

(** X4: the resolver issues no engine call and leaves the engine as it was,
    whether it returns or raises; when it returns, every object the heap held
    before, the registry and the options of its services included, is as it
    was: what the resolver builds is new. *)
Theorem resolver_leaves_heap_and_engine (project : string) (silent : bool)
    (R : ref) (reg : pydict) (w w' : world) (r : result pyval) (l : list call) :
  closed (heap w) -> SENTRY_DEVSERVICES settings = VRef R ->
  heap w !! R = Some reg ->
  _prepare_containers project silent w = (r, w', l) ->
  l = [] /\ engine w' = engine w
  /\ (forall cs, r = Ok cs ->
        cs = VRef (length (heap w)) /\ length (heap w) < length (heap w')
        /\ forall x, x < length (heap w) -> heap w' !! x = heap w !! x).
Proof.
  intros Hclosed HS HR H.
  destruct (heap_only_inv _ _ _ _ _ (heap_only_prepare_containers project silent) H)
    as (-> & He & _).
  split_and!; auto. intros cs ->.
  destruct (prepare_containers_inv _ _ _ _ _ _ _ _ Hclosed HS HR H)
    as (-> & _ & CS & HI & _).
  split_and!; auto.
  - eapply lookup_lt_Some. apply (ra_cs _ _ _ _ _ _ HI).
  - apply (ra_old _ _ _ _ _ _ HI).
Qed.

(** X5: in the mapping the resolver returns, every service of the registry
    that is not disabled by its only_if test has options of its own, a new
    object: their name is the project, an underscore and the service name,
    and every option other than only_if, network, detach, name, ports,
    environment and restart_policy is the one of the registry. *)
Theorem resolver_names_and_passes_options (project nm : string) (silent : bool)
    (R o0 c : ref) (reg O0 CS : pydict) (w w' : world) (l : list call) :
  closed (heap w) -> SENTRY_DEVSERVICES settings = VRef R ->
  heap w !! R = Some reg -> List.NoDup (dict_keys reg) ->
  In (KStr nm, VRef o0) reg -> heap w !! o0 = Some O0 ->
  dict_get (KStr "only_if") O0 <> Some (VFun false) ->
  _prepare_containers project silent w = (Ok (VRef c), w', l) ->
  heap w' !! c = Some CS ->
  exists o O,
    dict_get (KStr nm) CS = Some (VRef o) /\ heap w' !! o = Some O
    /\ length (heap w) < o
    /\ dict_get (KStr "name") O = Some (VStr (project ++ "_" ++ nm))
    /\ forall k, ordinary k -> dict_get k O = dict_get k O0.
Proof.
  intros Hclosed HS HR Hnd Hin Ho0 Hen H Hc.
  destruct (prepare_containers_inv _ _ _ _ _ _ _ _ Hclosed HS HR H)
    as ([= ->] & _ & CS' & HI & Hnew).
  rewrite (ra_cs _ _ _ _ _ _ HI) in Hc. injection Hc as ->.
  destruct (Hnew _ _ _ Hin Ho0 Hen) as [v Hv].
  destruct (ra_services _ _ _ _ _ _ HI _ _ Hv)
    as (nm' & o & O & o1 & O1 & [= <-] & -> & Hlt & HO & Hin1 & Ho1 & He & _).
  assert (o1 = o0) as ->.
  { pose proof (NoDup_keys_inj reg (KStr nm) _ _ Hnd Hin1 Hin). congruence. }
  rewrite Ho0 in Ho1. injection Ho1 as <-.
  exists o, O. split_and!; auto.
  - apply (eo_name _ _ _ _ _ _ _ _ He).
  - apply (eo_ordinary _ _ _ _ _ _ _ _ He).
Qed.


(** *** Services the resolver leaves out *)

Lemma copy_ok o0 O0 w :
  heap w !! o0 = Some O0 ->
  copy (VRef o0) w
  = (Ok (VRef (length (heap w))), World (heap w ++ [O0]) (engine w), []).
Proof.
  intros H. unfold copy. now rewrite (bind_ok _ _ _ _ _ _ (load_ok _ _ _ H)).
Qed.

(** A service whose only_if test fails is skipped: the copy of its options is
    all the round leaves. *)
Lemma prepare_one_skip project c name o0 O0 w :
  heap w !! o0 = Some O0 ->
  dict_get (KStr "only_if") O0 = Some (VFun false) ->
  exists w',
    prepare_one project (VRef c) (name, VRef o0) w = (Ok tt, w', [])
    /\ engine w' = engine w
    /\ forall x, x < length (heap w) -> heap w' !! x = heap w !! x.
Proof.
  intros Ho Hf. unfold prepare_one.
  rewrite (bind_ok _ _ _ _ _ _ (copy_ok _ _ _ Ho)).
  assert (H1 : heap (World (heap w ++ [O0]) (engine w)) !! length (heap w) = Some O0).
  { simpl. now apply list_lookup_middle. }
  rewrite (bind_ok _ _ _ _ _ _
             (pop_default_ok _ _ (KStr "only_if") VNone _ H1)), Hf.
  simpl. eexists. split_and!; [reflexivity|reflexivity|].
  intros x Hx. simpl. rewrite list_lookup_insert_ne by lia.
  now apply lookup_app_l.
Qed.

(** Every name of the mapping the loop of the resolver leaves was there
    before or is the name of a registry entry whose only_if test does not
    fail. *)
Lemma prepare_loop_enabled project w0 R reg c its :
  c = length (heap w0) -> closed (heap w0) -> heap w0 !! R = Some reg ->
  (forall it, In it its -> In it reg) ->
  forall w CS w' l,
    resolved_all project w0 reg c w CS ->
    for_each its (prepare_one project (VRef c)) w = (Ok tt, w', l) ->
    forall CS' name v,
      heap w' !! c = Some CS' -> dict_get name CS' = Some v ->
      (exists v0, dict_get name CS = Some v0)
      \/ exists o0 O0,
           In (name, VRef o0) its /\ heap w0 !! o0 = Some O0
           /\ dict_get (KStr "only_if") O0 <> Some (VFun false).
Proof.
  intros -> Hclosed HR.
  induction its as [|[name0 v0] its IH];
    intros Hsub w CS w' l HI H CS' name v Hc Hget.
  - simpl in H. injection H as <- <-.
    rewrite (ra_cs _ _ _ _ _ _ HI) in Hc. injection Hc as <-. left; eauto.
  - simpl in H. apply bind_inv_ok in H as ([] & w1 & l1 & l2 & H1 & H & ->).
    assert (Hone : for_each [(name0, v0)] (prepare_one project (VRef (length (heap w0)))) w
                   = (Ok tt, w1, l1 ++ [])).
    { simpl. now rewrite (bind_ok _ _ _ _ _ _ H1). }
    assert (Hsub1 : forall it, In it [(name0, v0)] -> In it reg).
    { intros it [<-|[]]. apply Hsub. now left. }
    destruct (prepare_loop_inv project w0 R reg _ [(name0, v0)] eq_refl Hclosed HR
                Hsub1 _ _ _ _ HI Hone) as (_ & CS1 & HI1 & _ & _).
    assert (Hsub' : forall it, In it its -> In it reg).
    { intros it Hit. apply Hsub. now right. }
    destruct (IH Hsub' _ _ _ _ HI1 H CS' name v Hc Hget)
      as [[v1 Hv1]|(o0 & O0 & Hin & Ho0 & Hen)].
    2:{ right. exists o0, O0. split_and!; auto. now right. }
    destruct (prepare_one_inv project _ CS name0 v0 w w1 l1
                (ra_cs _ _ _ _ _ _ HI) H1)
      as (_ & _ & _ & _ & o0 & O0 & -> & Ho0 & Hcase).
    pose proof (ra_cs _ _ _ _ _ _ HI1) as Hc1.
    assert (Hlt : o0 < length (heap w0)).
    { apply (Hclosed R reg name0 o0 HR). apply Hsub. now left. }
    assert (Ho0' : heap w0 !! o0 = Some O0).
    { rewrite <- (ra_old _ _ _ _ _ _ HI o0 Hlt). exact Ho0. }
    destruct Hcase as [[Hsame _]|(nm & O & -> & Hset & _)].
    { rewrite Hsame in Hc1. injection Hc1 as <-. left; eauto. }
    rewrite Hset in Hc1. injection Hc1 as <-.
    rewrite dict_get_set in Hv1.
    destruct (key_eqb (KStr nm) name) eqn:Hk; [|left; eauto].
    apply key_eqb_eq in Hk as <-. right. exists o0, O0.
    split_and!; auto; [now left|]. intros Hf.
    destruct (prepare_one_skip project (length (heap w0)) (KStr nm) o0 O0 w Ho0 Hf)
      as (w1' & Hrun & _ & Hold).
    assert (Heq : (Ok tt, w1', @nil call) = (Ok tt, w1, l1))
      by (rewrite <- Hrun; exact H1).
    injection Heq as -> _.
    assert (Hcw : length (heap w0) < length (heap w)).
    { eapply lookup_lt_Some. apply (ra_cs _ _ _ _ _ _ HI). }
    rewrite (Hold _ Hcw), (ra_cs _ _ _ _ _ _ HI) in Hset.
    injection Hset as Hset.
    assert (Hn : dict_get (KStr nm) CS = Some (VRef (length (heap w)))).
    { rewrite Hset. apply dict_get_set_eq. }
    destruct (ra_services _ _ _ _ _ _ HI _ _ Hn)
      as (? & o & ? & ? & ? & _ & [= <-] & _ & HO & _).
    apply lookup_lt_Some in HO. lia.
Qed.

(** The names of the resolved mapping are names of registry entries whose
    only_if test does not fail. *)
Lemma prepare_containers_enabled project silent R reg w cs w' l CS name v :
  closed (heap w) -> SENTRY_DEVSERVICES settings = VRef R ->
  heap w !! R = Some reg ->
  _prepare_containers project silent w = (Ok cs, w', l) ->
  heap w' !! length (heap w) = Some CS -> dict_get name CS = Some v ->
  exists o0 O0,
    In (name, VRef o0) reg /\ heap w !! o0 = Some O0
    /\ dict_get (KStr "only_if") O0 <> Some (VFun false).
Proof.
  intros Hclosed HS HR H Hc Hget. unfold _prepare_containers in H.
  assert (Ha : alloc [] w
               = (Ok (VRef (length (heap w))), World (heap w ++ [[]]) (engine w), []))
    by reflexivity.
  apply (bind_ok_inv _ _ _ _ _ _ _ _ _ Ha) in H as [l1 [H ->]].
  rewrite HS in H.
  assert (Hl : items (VRef R) (World (heap w ++ [[]]) (engine w))
               = (Ok reg, World (heap w ++ [[]]) (engine w), [])).
  { apply load_ok. simpl. now apply lookup_app_l_Some. }
  apply (bind_ok_inv _ _ _ _ _ _ _ _ _ Hl) in H as [l2 [H ->]].
  apply bind_inv_ok in H as ([] & w1 & l3 & l4 & H1 & H & ->).
  unfold ret in H. injection H as <- <- <-.
  assert (HI0 : resolved_all project w reg (length (heap w))
                  (World (heap w ++ [[]]) (engine w)) []).
  { split; simpl; auto.
    - intros x Hx. now apply lookup_app_l.
    - now apply list_lookup_middle.
    - intros name' v' [=].
    - intros n1 n2 o [=]. }
  destruct (prepare_loop_enabled project w R reg (length (heap w)) reg eq_refl
              Hclosed HR (fun it Hit => Hit) _ _ _ _ HI0 H1 CS name v Hc Hget)
    as [[v0 [=]]|Hen].
  exact Hen.
Qed.


(** *** What a run of [_start_service] may do *)

(** The calls [_start_service] may issue for the container [cn]: about
    images unless in fast mode, about volumes, and about this container,
    which it stops and removes only when not in fast mode. *)
Definition service_call (fast : bool) (cn : string) (c : call) : Prop :=
  match c with
  | ImagesGet _ | ImagesPull _ => fast = false
  | VolumesGet _ | VolumesCreate _ => True
  | ContainersGet n | ContainersCreate n | ContainerStart n => n = cn
  | ContainerStop n | ContainerRemove n => n = cn /\ fast = false
  | _ => False
  end.

Lemma start_calls_service fast bw a cn :
  Forall (service_call fast cn) (start_calls bw a cn).
Proof. unfold start_calls. destruct (bw && negb a); now repeat constructor. Qed.

Lemma start_service_calls name c o O cn project fast always_start w r w' l :
  resolved w c name o O cn ->
  _start_service name (VRef c) project fast always_start w = (r, w', l) ->
  Forall (service_call fast cn) l.
Proof.
  intros [[CS [Hcs Hn]] Ho Hself Hcn] H.
  destruct (start_service_inv _ _ _ _ _ _ _ _ _ _ _ _ _ Hcs Hn Ho Hself Hcn H)
    as (w1 & l1 & l2 & -> & Hp1 & Hcase).
  apply Forall_app. split.
  - destruct Hp1 as (_ & _ & HL & Hfast). destruct fast.
    + eapply List.Forall_impl; [|exact (Hfast eq_refl)].
      intros [] Hc; simpl in *; tauto.
    + eapply List.Forall_impl; [|exact HL].
      intros [] Hc; simpl in *; tauto.
  - destruct Hcase as [[e (_ & _ & ->)]|(O1 & Ho1 & Hcn1 & Hrec & _)];
      [constructor|].
    destruct (reconcile_inv _ _ _ _ _ _ _ _ _ _ _ Ho1 Hcn1 Hrec)
      as (_ & calls & -> & Hc).
    constructor; [reflexivity|]. simpl in Hc.
    destruct (has_container cn (engine w1)) eqn:Hhad; simpl in Hc.
    + destruct (negb (truthy (heap w1) (popped O "pull"))
                || truthy (heap w1) (popped O "with_devserver") || fast) eqn:Hre.
      * destruct Hc as (_ & -> & _). apply start_calls_service.
      * assert (fast = false) as -> by (destruct fast; auto; now rewrite !orb_true_r in Hre).
        destruct Hc as [(_ & -> & _)|[e (_ & -> & _)]].
        -- repeat (constructor; [simpl; auto|]). apply start_calls_service.
        -- now repeat constructor.
    + destruct Hc as [(_ & -> & _)|[e (_ & -> & _)]]; [|constructor].
      simpl. constructor; [reflexivity|]. apply start_calls_service.
Qed.

(** The engine after a run of [_start_service]: its networks and every
    container but the service's own are as they were. *)
Lemma start_service_frame name c o O cn project fast always_start w r w' l :
  resolved w c name o O cn ->
  _start_service name (VRef c) project fast always_start w = (r, w', l) ->
  networks (engine w') = networks (engine w)
  /\ others cn (engine w') = others cn (engine w).
Proof.
  intros [[CS [Hcs Hn]] Ho Hself Hcn] H.
  destruct (start_service_inv _ _ _ _ _ _ _ _ _ _ _ _ _ Hcs Hn Ho Hself Hcn H)
    as (w1 & l1 & l2 & -> & (_ & [Hc1 Hn1] & _) & Hcase).
  destruct Hcase as [[e (_ & -> & _)]|(O1 & Ho1 & Hcn1 & Hrec & _)].
  - split; [assumption|]. unfold others. now rewrite Hc1.
  - destruct (reconcile_inv _ _ _ _ _ _ _ _ _ _ _ Ho1 Hcn1 Hrec)
      as ((_ & _ & Hn2 & _ & _ & Ho2) & _).
    split; [congruence|]. rewrite Ho2. unfold others. now rewrite Hc1.
Qed.

(** A service that is not left to the devserver is running when
    [_start_service] returns. *)
Lemma start_service_started name c o O cn project fast always_start w x w' l :
  resolved w c name o O cn ->
  flag_of O "with_devserver" = Some false ->
  _start_service name (VRef c) project fast always_start w = (Ok x, w', l) ->
  is_running cn (engine w') = true.
Proof.
  intros [[CS [Hcs Hn]] Ho Hself Hcn] Hbw H.
  destruct (start_service_inv _ _ _ _ _ _ _ _ _ _ _ _ _ Hcs Hn Ho Hself Hcn H)
    as (w1 & l1 & l2 & -> & _ & [[e [? _]]|(O1 & Ho1 & Hcn1 & Hrec & _)]);
    [discriminate|].
  destruct (reconcile_inv _ _ _ _ _ _ _ _ _ _ _ Ho1 Hcn1 Hrec)
    as (_ & calls & _ & Hc).
  simpl in Hc. rewrite (flag_truthy _ _ _ _ Hbw) in Hc. simpl in Hc.
  destruct (has_container cn (engine w1)
            && (negb (truthy (heap w1) (popped O "pull")) || false || fast)).
  - destruct Hc as (_ & _ & _ & Hr). now apply Hr.
  - destruct Hc as [(_ & _ & _ & Hr)|[e [? _]]]; [now apply Hr|discriminate].
Qed.

Lemma find_filter {A} (p q : A -> bool) (l : list A) :
  (forall x, p x = true -> q x = true) ->
  find p (List.filter q l) = find p l.
Proof.
  intros Hpq. induction l as [|a l IH]; simpl; [reflexivity|].
  destruct (q a) eqn:Hq; simpl.
  - now rewrite IH.
  - destruct (p a) eqn:Hp; [|assumption].
    rewrite (Hpq a Hp) in Hq. discriminate.
Qed.

Lemma is_running_others n cn e e' :
  n <> cn -> others cn e' = others cn e -> is_running n e' = is_running n e.
Proof.
  intros Hne Ho. unfold is_running, find_container.
  assert (Hf : forall d, find (fun c => (cname c =? n)%string) (conts d)
                         = find (fun c => (cname c =? n)%string) (others cn d)).
  { intros d. unfold others. symmetry. apply find_filter.
    intros x Hx. apply String.eqb_eq in Hx. apply negb_true_iff, String.eqb_neq.
    congruence. }
  now rewrite (Hf e'), (Hf e), Ho.
Qed.


(** *** [up], from the engine check to its rounds *)

Lemma get_or_create_network_ok n w :
  exists wa,
    get_or_create Network n w
    = (Ok n, wa,
       NetworksGet n :: (if str_in n (networks (engine w)) then []
                         else [NetworksCreate n]))
    /\ heap wa = heap w /\ conts (engine wa) = conts (engine w)
    /\ networks (engine wa)
       = (if str_in n (networks (engine w)) then networks (engine w)
          else networks (engine w) ++ [n]).
Proof.
  unfold get_or_create, try_except, thing_get, thing_create, bind,
    get_engine, put_engine, log. simpl.
  destruct (str_in n (networks (engine w))) eqn:H; simpl;
    eexists; split_and!; reflexivity.
Qed.

Definition network_call (project : string) (c : call) : Prop :=
  c = NetworksGet project \/ c = NetworksCreate project.

(** A service [up] serves: in the registry, not disabled, not excluded. *)
Definition served (project : string) (reg : pydict) (h : list pydict)
    (exclude : list string) (n : string) : Prop :=
  exists nm o0 O0,
    n = (project ++ "_" ++ nm)%string
    /\ In (KStr nm, VRef o0) reg /\ h !! o0 = Some O0
    /\ dict_get (KStr "only_if") O0 <> Some (VFun false)
    /\ key_in (KStr nm) (flat_map split_comma exclude) = false.

Lemma up_run project exclude fast R reg w r w' l :
  closed (heap w) -> SENTRY_DEVSERVICES settings = VRef R ->
  heap w !! R = Some reg ->
  up project exclude fast w = (r, w', l) ->
  exists lnet lb,
    l = Ping :: lnet ++ lb /\ Forall (network_call project) lnet
    /\ ((exists e, r = Raise e /\ lb = [])
        \/ exists wa wp CS,
             heap wa = heap w /\ conts (engine wa) = conts (engine w)
             /\ networks (engine wa)
                = (if str_in project (networks (engine w))
                   then networks (engine w)
                   else networks (engine w) ++ [project])
             /\ engine wp = engine wa
             /\ resolved_all project wa reg (length (heap w)) wp CS
             /\ (forall name o0 O0,
                   In (name, VRef o0) reg -> heap w !! o0 = Some O0 ->
                   dict_get (KStr "only_if") O0 <> Some (VFun false) ->
                   exists v', dict_get name CS = Some v')
             /\ (forall name v, dict_get name CS = Some v ->
                   exists o0 O0,
                     In (name, VRef o0) reg /\ heap w !! o0 = Some O0
                     /\ dict_get (KStr "only_if") O0 <> Some (VFun false))
             /\ for_each reg
                  (up_one project (flat_map split_comma exclude) fast
                     (VRef (length (heap w)))) wp = (r, w', lb)).
Proof.
  intros Hclosed HS HR H. unfold up in H.
  apply bind_inv in H as [[e [H ->]]|[[] [w1 [l1 [l1' [H1 [H ->]]]]]]].
  { apply get_docker_client_inv in H as [_ ->].
    exists [], []. split_and!; [reflexivity|constructor|left; eauto]. }
  apply get_docker_client_inv in H1 as [-> ->].
  destruct (get_or_create_network_ok project w) as (wa & Hnet & Hha & Hca & Hna).
  destruct (bind_ok_inv _ _ _ _ _ _ _ _ _ Hnet H) as [l2 [H' ->]].
  clear H; rename H' into H.
  set (lnet := NetworksGet project
                 :: (if str_in project (networks (engine w)) then []
                     else [NetworksCreate project])).
  assert (HLnet : Forall (network_call project) lnet).
  { unfold lnet, network_call.
    destruct (str_in project (networks (engine w)));
      repeat (constructor; [auto|]); constructor. }
  apply bind_inv in H as [[e [H ->]]|[cs [wp [l3 [l3' [H3 [H ->]]]]]]].
  { destruct (heap_only_inv _ _ _ _ _ (heap_only_prepare_containers project false) H)
      as (-> & _ & _).
    exists lnet, []. split_and!; [reflexivity|assumption|left; eauto]. }
  destruct (heap_only_inv _ _ _ _ _ (heap_only_prepare_containers project false) H3)
    as (-> & Hep & _).
  assert (Hclosed' : closed (heap wa)) by now rewrite Hha.
  assert (HR' : heap wa !! R = Some reg) by now rewrite Hha.
  destruct (prepare_containers_inv _ _ _ _ _ _ _ _ Hclosed' HS HR' H3)
    as (-> & _ & CS & HI & Hnew).
  assert (Hen : forall name v, dict_get name CS = Some v ->
                  exists o0 O0,
                    In (name, VRef o0) reg /\ heap wa !! o0 = Some O0
                    /\ dict_get (KStr "only_if") O0 <> Some (VFun false)).
  { intros name v Hget.
    apply (prepare_containers_enabled _ _ _ _ _ _ _ _ CS name v Hclosed' HS HR' H3);
      [|assumption].
    apply (ra_cs _ _ _ _ _ _ HI). }
  rewrite Hha in *.
  assert (Hitems : items (SENTRY_DEVSERVICES settings) wp = (Ok reg, wp, [])).
  { rewrite HS. apply load_ok. rewrite (ra_old _ _ _ _ _ _ HI).
    - now rewrite Hha.
    - eapply lookup_lt_Some; eauto. }
  apply (bind_ok_inv _ _ _ _ _ _ _ _ _ Hitems) in H as [l4 [H ->]].
  exists lnet, l4. split_and!; [reflexivity|assumption|].
  right. exists wa, wp, CS. split_and!; eauto.
Qed.

(** The calls [up] may issue. *)
Definition up_call (project : string) (reg : pydict) (h : list pydict)
    (exclude : list string) (fast : bool) (c : call) : Prop :=
  match c with
  | Ping | VolumesGet _ | VolumesCreate _ => True
  | NetworksGet n | NetworksCreate n => n = project
  | ImagesGet _ | ImagesPull _ => fast = false
  | ContainersGet n | ContainersCreate n | ContainerStart n =>
      served project reg h exclude n
  | ContainerStop n | ContainerRemove n =>
      served project reg h exclude n /\ fast = false
  | _ => False
  end.

Lemma service_call_up project reg h exclude fast cn c :
  served project reg h exclude cn -> service_call fast cn c ->
  up_call project reg h exclude fast c.
Proof. destruct c; simpl; intuition (subst; auto). Qed.

Lemma up_calls project exclude fast R reg w r w' l :
  closed (heap w) -> SENTRY_DEVSERVICES settings = VRef R ->
  heap w !! R = Some reg -> List.NoDup (dict_keys reg) ->
  up project exclude fast w = (r, w', l) ->
  Forall (up_call project reg (heap w) exclude fast) l.
Proof.
  intros Hclosed HS HR Hnd H.
  destruct (up_run _ _ _ _ _ _ _ _ _ Hclosed HS HR H)
    as (lnet & lb & -> & HLnet & Hcase).
  constructor; [exact I|]. apply Forall_app. split.
  { eapply List.Forall_impl; [|exact HLnet]. now intros c [->| ->]. }
  destruct Hcase as [[e [_ ->]]|
      (wa & wp & CS & Hha & _ & _ & _ & HI & _ & Hen & Hloop)]; [constructor|].
  refine (proj1 (up_loop_invariant project _ fast wa reg _ wp CS (fun _ _ => True)
                   _ HI _ reg wp r w' lb Hnd
                   (pending_ok_refl wp _ CS _ (ra_cs _ _ _ _ _ _ HI)) I Hloop)).
  intros name v rest w1 r1 w1' l1 Hp Hnin _ H1.
  split; [|auto].
  destruct (up_one_step _ _ _ _ _ _ _ _ _ _ _ _ _ _ _ HI Hp Hnin H1)
    as [_ [( _ & _ & -> & _)|
           (nm & o & O & o1 & O1 & r' & Hex & -> & Hget & Hres & _ & _ & _
            & Hrun & _)]]; [constructor|].
  destruct (Hen _ _ Hget) as (o0 & O0 & Hin & Ho0 & Honly).
  eapply List.Forall_impl; [|exact (start_service_calls _ _ _ _ _ _ _ _ _ _ _ _ Hres Hrun)].
  intros c. apply service_call_up. exists nm, o0, O0. split_and!; auto.
Qed.


(** The container a call is about. *)
Definition container_of (c : call) : option string :=
  match c with
  | ContainersGet n | ContainersCreate n | ContainerStart n
  | ContainerStop n | ContainerRemove n => Some n
  | _ => None
  end.

(** The calls that list or remove what the engine holds beside containers. *)
Definition lists_or_removes (c : call) : bool :=
  match c with
  | NetworkRemove _ | VolumeRemove _ | VolumesList | ContainersList => true
  | _ => false
  end.

(** X6: every call of [up] about a container is about the container of a
    service that is in the registry, is not disabled by its only_if test and
    is not excluded, the exclusions being split at commas; [up] removes no
    network and no volume and lists nothing. *)
Theorem up_serves_only_selected_services (project : string)
    (exclude : list string) (fast : bool) (R : ref) (reg : pydict)
    (w w' : world) (r : result unit) (l : list call) :
  closed (heap w) -> SENTRY_DEVSERVICES settings = VRef R ->
  heap w !! R = Some reg -> List.NoDup (dict_keys reg) ->
  up project exclude fast w = (r, w', l) ->
  forall c, In c l ->
    lists_or_removes c = false
    /\ forall n, container_of c = Some n ->
         exists nm o0 O0,
           n = (project ++ "_" ++ nm)%string
           /\ In (KStr nm, VRef o0) reg /\ heap w !! o0 = Some O0
           /\ dict_get (KStr "only_if") O0 <> Some (VFun false)
           /\ str_in nm (flat_map split_comma exclude) = false.
Proof.
  intros Hclosed HS HR Hnd H c Hc.
  pose proof (up_calls _ _ _ _ _ _ _ _ _ Hclosed HS HR Hnd H) as HL.
  rewrite List.Forall_forall in HL. apply HL in Hc.
  split.
  - destruct c; simpl in *; auto; contradiction.
  - intros n Hn. destruct c; simpl in *; try discriminate;
      injection Hn as ->; unfold served in Hc; simpl in Hc; tauto.
Qed.

(** The calls fast mode rules out. *)
Definition refreshes_or_replaces (c : call) : bool :=
  match c with
  | ImagesGet _ | ImagesPull _ | ContainerStop _ | ContainerRemove _ => true
  | _ => false
  end.

(** X7: in fast mode [up] looks up and pulls no image and stops and removes
    no container, whatever the pull flags of the services and whether it
    returns or raises. *)
Theorem fast_up_never_pulls_or_replaces (project : string)
    (exclude : list string) (R : ref) (reg : pydict)
    (w w' : world) (r : result unit) (l : list call) :
  closed (heap w) -> SENTRY_DEVSERVICES settings = VRef R ->
  heap w !! R = Some reg -> List.NoDup (dict_keys reg) ->
  up project exclude true w = (r, w', l) ->
  List.filter refreshes_or_replaces l = [].
Proof.
  intros Hclosed HS HR Hnd H.
  pose proof (up_calls _ _ _ _ _ _ _ _ _ Hclosed HS HR Hnd H) as HL.
  clear H. induction HL as [|c l0 Hc _ IH]; simpl; [reflexivity|].
  destruct c; simpl in *; auto; try discriminate; now destruct Hc.
Qed.

Lemma up_loop_running project exclude fast w0 reg c wp CS s o0 O0 v w w' l :
  resolved_all project w0 reg c wp CS -> List.NoDup (map fst reg) ->
  In (KStr s, VRef o0) reg -> heap w0 !! o0 = Some O0 ->
  flag_of O0 "with_devserver" = Some false ->
  key_in (KStr s) exclude = false -> dict_get (KStr s) CS = Some v ->
  pending_ok wp w c CS (map fst reg) ->
  for_each reg (up_one project exclude fast (VRef c)) w = (Ok tt, w', l) ->
  is_running (project ++ "_" ++ s) (engine w') = true.
Proof.
  intros HI Hnd Hs HO0 Hflag Hex Hget Hp H.
  set (cn := (project ++ "_" ++ s)%string).
  set (P := fun (its : list (pykey * pyval)) (w : world) =>
              In (KStr s) (map fst its) \/ is_running cn (engine w) = true).
  assert (Hstep : forall name v1 rest w r w' l,
             pending_ok wp w c CS (name :: map fst rest) ->
             ~ In name (map fst rest) -> P ((name, v1) :: rest) w ->
             up_one project exclude fast (VRef c) (name, v1) w = (r, w', l) ->
             Forall (fun _ => True) l /\ (r = Ok tt -> P rest w')).
  { clear w w' l Hp H. intros name v1 rest w r w' l Hp Hnin HP H.
    split; [apply List.Forall_forall; auto|]. intros ->.
    unfold P in HP |- *. simpl in HP.
    destruct (up_one_step _ _ _ _ _ _ _ _ _ _ _ _ _ _ _ HI Hp Hnin H)
      as [_ [( _ & -> & _ & Hskip)|
             (nm & o & O & o1 & O1 & r' & _ & -> & _ & Hres & Hreg & Ho1 & Hord
              & Hrun & Hr)]].
    - destruct HP as [[->|Hin]|Hrun]; [|now left|now right].
      destruct Hskip; congruence.
    - destruct r' as [x|e]; [|discriminate].
      destruct (String.eqb_spec nm s) as [->|Hne].
      + right.
        assert (o1 = o0) as ->.
        { pose proof (NoDup_keys_inj reg (KStr s) _ _ Hnd Hreg Hs). congruence. }
        rewrite HO0 in Ho1. injection Ho1 as <-.
        assert (Hfw : flag_of O "with_devserver" = Some false).
        { rewrite (flag_of_ordinary _ _ _ Hord); auto. }
        exact (start_service_started _ _ _ _ _ _ _ _ _ _ _ _ Hres Hfw Hrun).
      + destruct HP as [[[= Heq]|Hin]|Hr']; [congruence|now left|right].
        destruct (start_service_frame _ _ _ _ _ _ _ _ _ _ _ _ Hres Hrun)
          as [_ Hoth].
        rewrite (is_running_others cn (project ++ "_" ++ nm) (engine w) (engine w'));
          [assumption| |assumption].
        intros Heq. apply Hne. symmetry. eapply container_name_inj; eauto. }
  assert (HP0 : P reg w).
  { left. apply in_map_iff. now exists (KStr s, VRef o0). }
  destruct (up_loop_invariant project exclude fast w0 reg c wp CS P
              (fun _ => True) HI Hstep reg w (Ok tt) w' l Hnd Hp HP0 H) as [_ HP].
  destruct (HP eq_refl) as [[]|Hr]. assumption.
Qed.

(** X8: when [up] returns, the container of every service that is in the
    registry, is not disabled, is not excluded and is not left to the
    devserver exists and is running. *)
Theorem up_leaves_its_services_running (project s : string)
    (exclude : list string) (fast : bool) (R o0 : ref) (reg O0 : pydict)
    (w w' : world) (l : list call) :
  closed (heap w) -> SENTRY_DEVSERVICES settings = VRef R ->
  heap w !! R = Some reg -> List.NoDup (dict_keys reg) ->
  In (KStr s, VRef o0) reg -> heap w !! o0 = Some O0 ->
  dict_get (KStr "only_if") O0 <> Some (VFun false) ->
  str_in s (flat_map split_comma exclude) = false ->
  flag_of O0 "with_devserver" = Some false ->
  up project exclude fast w = (Ok tt, w', l) ->
  has_container (project ++ "_" ++ s) (engine w') = true
  /\ is_running (project ++ "_" ++ s) (engine w') = true.
Proof.
  intros Hclosed HS HR Hnd Hin Ho0 Hen Hex Hflag H.
  destruct (up_run _ _ _ _ _ _ _ _ _ Hclosed HS HR H)
    as (lnet & lb & -> & _ & [[e [? _]]|
        (wa & wp & CS & Hha & _ & _ & _ & HI & Hnew & _ & Hloop)]);
    [discriminate|].
  destruct (Hnew _ _ _ Hin Ho0 Hen) as [v Hv].
  assert (Ho0a : heap wa !! o0 = Some O0) by now rewrite Hha.
  assert (Hrun : is_running (project ++ "_" ++ s) (engine w') = true).
  { eapply (up_loop_running project _ fast wa reg _ wp CS s o0 O0 v wp w' lb);
      eauto.
    apply pending_ok_refl, (ra_cs _ _ _ _ _ _ HI). }
  split; [|assumption].
  unfold is_running, find_container in Hrun. unfold has_container.
  destruct (find _ _) as [x|] eqn:Hf; [|discriminate].
  apply find_some in Hf as [Hx Hn]. apply existsb_exists. eauto.
Qed.

(** X9: a run of [up] that returns has created the network of the project
    exactly when it did not exist, and has changed the networks of the engine
    in no other way. *)
Theorem up_creates_the_network_when_absent (project : string)
    (exclude : list string) (fast : bool) (R : ref) (reg : pydict)
    (w w' : world) (l : list call) :
  closed (heap w) -> SENTRY_DEVSERVICES settings = VRef R ->
  heap w !! R = Some reg -> List.NoDup (dict_keys reg) ->
  up project exclude fast w = (Ok tt, w', l) ->
  networks (engine w')
  = (if str_in project (networks (engine w)) then networks (engine w)
     else networks (engine w) ++ [project])
  /\ List.filter (fun c => match c with NetworksCreate _ => true | _ => false end) l
     = (if str_in project (networks (engine w)) then []
        else [NetworksCreate project]).
Proof.
  intros Hclosed HS HR Hnd H.
  unfold up in H.
  apply bind_inv_ok in H as ([] & w1 & l1 & l1' & H1 & H & ->).
  apply get_docker_client_inv in H1 as [-> ->].
  destruct (get_or_create_network_ok project w) as (wa & Hnet & Hha & Hca & Hna).
  destruct (bind_ok_inv _ _ _ _ _ _ _ _ _ Hnet H) as [l2 [H' ->]].
  clear H; rename H' into H.
  apply bind_inv_ok in H as (cs & wp & l3 & l3' & H3 & H & ->).
  destruct (heap_only_inv _ _ _ _ _ (heap_only_prepare_containers project false) H3)
    as (-> & Hep & _).
  assert (Hclosed' : closed (heap wa)) by now rewrite Hha.
  assert (HR' : heap wa !! R = Some reg) by now rewrite Hha.
  destruct (prepare_containers_inv _ _ _ _ _ _ _ _ Hclosed' HS HR' H3)
    as (-> & _ & CS & HI & _).
  assert (Hitems : items (SENTRY_DEVSERVICES settings) wp = (Ok reg, wp, [])).
  { rewrite HS. apply load_ok. rewrite (ra_old _ _ _ _ _ _ HI); [assumption|].
    rewrite Hha. eapply lookup_lt_Some; eauto. }
  destruct (bind_ok_inv _ _ _ _ _ _ _ _ _ Hitems H) as [l4 [Hloop ->]].
  assert (Hinv : Forall (fun c => match c with NetworksCreate _ => False | _ => True end) l4
                 /\ (Ok tt = Ok tt -> networks (engine w') = networks (engine wp))).
  2: destruct Hinv as [HL4 HP].
  { apply (up_loop_invariant project (flat_map split_comma exclude) fast wa reg
             (length (heap wa)) wp CS
             (fun _ w1 => networks (engine w1) = networks (engine wp))
             (fun c => match c with NetworksCreate _ => False | _ => True end)
             HI) with (its := reg) (w := wp); auto;
      [|apply pending_ok_refl, (ra_cs _ _ _ _ _ _ HI)].
    intros name v rest w1 r1 w1' l1 Hp Hnin HP H1.
    destruct (up_one_step _ _ _ _ _ _ _ _ _ _ _ _ _ _ _ HI Hp Hnin H1)
      as [_ [( _ & -> & -> & _)|
             (nm & o & O & o1 & O1 & r' & _ & -> & _ & Hres & _ & _ & _
              & Hrun & _)]]; [split; [constructor|auto]|].
    split.
    - eapply List.Forall_impl;
        [|exact (start_service_calls _ _ _ _ _ _ _ _ _ _ _ _ Hres Hrun)].
      now intros [].
    - intros _. destruct (start_service_frame _ _ _ _ _ _ _ _ _ _ _ _ Hres Hrun)
        as [Hn _]. congruence. }
  split.
  - rewrite (HP eq_refl), Hep. exact Hna.
  - simpl. rewrite !List.filter_app. simpl.
    assert (E : List.filter
                  (fun c => match c with NetworksCreate _ => true | _ => false end) l4
                = []).
    { clear -HL4. induction HL4 as [|c l0 Hc _ IH]; simpl; [reflexivity|].
      destruct c; simpl in *; auto; contradiction. }
    rewrite E. now destruct (str_in project (networks (engine w))).
Qed.


(** *** [attach] *)

Lemma attach_inv project fast s R reg w r w' l :
  closed (heap w) -> SENTRY_DEVSERVICES settings = VRef R ->
  heap w !! R = Some reg -> List.NoDup (dict_keys reg) ->
  attach project fast s w = (r, w', l) ->
  (exists e, r = Raise e /\ l = [Ping] /\ engine w' = engine w
             /\ forall cs wp lp,
                  reachable (engine w) = true ->
                  _prepare_containers project true w = (Ok cs, wp, lp) ->
                  e = ClickException
                        ("Service " ++ s ++ " is not known or not enabled.")
                  /\ w' = wp)
  \/ exists wp o O o0 O0 lb,
       l = Ping :: lb /\ engine wp = engine w
       /\ resolved wp (length (heap w)) (KStr s) o O (project ++ "_" ++ s)
       /\ In (KStr s, VRef o0) reg /\ heap w !! o0 = Some O0
       /\ dict_get (KStr "only_if") O0 <> Some (VFun false)
       /\ (forall k, ordinary k -> dict_get k O = dict_get k O0)
       /\ _start_service (KStr s) (VRef (length (heap w))) project fast true wp
          = (r, w', lb).
Proof.
  intros Hclosed HS HR Hnd H. unfold attach in H.
  apply bind_inv in H as [[e [H ->]]|[[] [w1 [l1 [l1' [H1 [H ->]]]]]]].
  { pose proof H as H0. apply get_docker_client_inv in H as [-> ->].
    left. exists e. split_and!; auto. intros cs wp lp Hr _.
    rewrite (get_docker_client_ok w Hr) in H0. discriminate. }
  apply get_docker_client_inv in H1 as [-> ->].
  apply bind_inv in H as [[e [H ->]]|[cs [wp [l2 [l2' [H2 [H ->]]]]]]].
  { destruct (heap_only_inv _ _ _ _ _ (heap_only_prepare_containers project true) H)
      as (-> & He & _).
    left. exists e. split_and!; auto. intros cs wp lp _ Hp.
    rewrite Hp in H. discriminate. }
  destruct (heap_only_inv _ _ _ _ _ (heap_only_prepare_containers project true) H2)
    as (-> & Hep & _).
  destruct (prepare_containers_inv _ _ _ _ _ _ _ _ Hclosed HS HR H2)
    as (-> & _ & CS & HI & _).
  destruct (bind_ok_inv _ _ _ _ _ _ _ _ _
              (contains_ok _ _ (KStr s) _ (ra_cs _ _ _ _ _ _ HI)) H)
    as [l3 [H' ->]]. clear H; rename H' into H.
  destruct (dict_get (KStr s) CS) as [v|] eqn:Hget; simpl in H.
  2:{ unfold raise in H. injection H as <- <- <-. left.
      eexists. split_and!; eauto. intros cs wp' lp _ Hp.
      rewrite Hp in H2. now injection H2 as _ ->. }
  destruct (prepare_containers_enabled _ _ _ _ _ _ _ _ CS (KStr s) v
              Hclosed HS HR H2 (ra_cs _ _ _ _ _ _ HI) Hget)
    as (o0 & O0 & Hin & Ho0 & Hen).
  pose proof (pending_ok_refl wp _ CS [KStr s] (ra_cs _ _ _ _ _ _ HI)) as Hp.
  destruct (service_resolved _ _ _ _ _ _ _ _ _ _ HI Hp (or_introl eq_refl) Hget)
    as (nm & o & O & o1 & O1 & [= <-] & -> & Hres & Hin1 & Ho1 & Hord & _).
  assert (o1 = o0) as ->.
  { pose proof (NoDup_keys_inj reg (KStr s) _ _ Hnd Hin1 Hin). congruence. }
  rewrite Ho0 in Ho1. injection Ho1 as <-.
  right. exists wp, o, O, o0, O0, l3. split_and!; auto.
Qed.

(** ** A service left to the devserver *)







(** X10: [attach] acts on one service: after the ping, its calls are about
    images (none in fast mode), about volumes and about the container of the
    service it was given; it issues no call about a network and leaves the
    networks and every other container of the engine as they were. *)
Theorem attach_acts_on_one_service (project s : string) (fast : bool)
    (R : ref) (reg : pydict) (w w' : world) (r : result string) (l : list call) :
  closed (heap w) -> SENTRY_DEVSERVICES settings = VRef R ->
  heap w !! R = Some reg -> List.NoDup (dict_keys reg) ->
  attach project fast s w = (r, w', l) ->
  let cn := (project ++ "_" ++ s)%string in
  (exists lb, l = Ping :: lb /\ Forall (service_call fast cn) lb)
  /\ networks (engine w') = networks (engine w)
  /\ List.filter (fun c => negb (cname c =? cn)%string) (conts (engine w'))
     = List.filter (fun c => negb (cname c =? cn)%string) (conts (engine w)).
Proof.
  intros Hclosed HS HR Hnd H cn.
  destruct (attach_inv _ _ _ _ _ _ _ _ _ Hclosed HS HR Hnd H)
    as [(e & _ & -> & -> & _)|
        (wp & o & O & o0 & O0 & lb & -> & Hep & Hres & _ & _ & _ & _ & Hrun)].
  - split_and!; auto. exists []. split; [reflexivity|constructor].
  - destruct (start_service_frame _ _ _ _ _ _ _ _ _ _ _ _ Hres Hrun) as [Hn Ho].
    rewrite Hep in Hn. unfold others in Ho. rewrite Hep in Ho.
    split_and!; auto. exists lb. split; [reflexivity|].
    exact (start_service_calls _ _ _ _ _ _ _ _ _ _ _ _ Hres Hrun).
Qed.

(** X11: with the engine answering and the registry resolved, [attach] on a
    name that is not in the registry, or on a service disabled by its only_if
    test, raises the click error that the service is not known or not
    enabled; it has issued the ping only. *)
Theorem attach_refuses_unserved_service (project s : string) (fast : bool)
    (R : ref) (reg : pydict) (w wp : world) (cs : pyval) (lp : list call) :
  closed (heap w) -> SENTRY_DEVSERVICES settings = VRef R ->
  heap w !! R = Some reg -> List.NoDup (dict_keys reg) ->
  reachable (engine w) = true ->
  _prepare_containers project true w = (Ok cs, wp, lp) ->
  (dict_get (KStr s) reg = None
   \/ exists o0 O0,
        dict_get (KStr s) reg = Some (VRef o0) /\ heap w !! o0 = Some O0
        /\ dict_get (KStr "only_if") O0 = Some (VFun false)) ->
  attach project fast s w
  = (Raise (ClickException ("Service " ++ s ++ " is not known or not enabled.")),
     wp, [Ping]).
Proof.
  intros Hclosed HS HR Hnd Hr Hp Hout.
  destruct (attach project fast s w) as [[r w'] l] eqn:H.
  destruct (attach_inv _ _ _ _ _ _ _ _ _ Hclosed HS HR Hnd H)
    as [(e & -> & -> & _ & Hmsg)|
        (_ & o & O & o0 & O0 & lb & _ & _ & _ & Hin & Ho0 & Hen & _)].
  - destruct (Hmsg _ _ _ Hr Hp) as [-> ->]. reflexivity.
  - exfalso. apply (In_dict_get _ _ _ Hnd) in Hin.
    destruct Hout as [Hnone|(o1 & O1 & Hget & Ho1 & Hf)]; [congruence|].
    rewrite Hin in Hget. injection Hget as <-.
    rewrite Ho0 in Ho1. injection Ho1 as <-. contradiction.
Qed.


(** *** [down] and [rm], run again *)

Lemma down_run project service w :
  reachable (engine w) = true ->
  down project service w =
    (Ok tt,
     World (heap w)
       (with_conts (engine w)
          (map (stop_if (hit project service)) (conts (engine w)))),
     Ping :: ContainersList
       :: map ContainerStop
            (List.filter (hit project service) (map cname (conts (engine w))))).
Proof.
  intros Hr. unfold down.
  rewrite (bind_ok _ _ _ _ _ _ (get_docker_client_ok w Hr)).
  assert (Hl : containers_list w
               = (Ok (map cname (conts (engine w))), w, [ContainersList]))
    by reflexivity.
  rewrite (bind_ok _ _ _ _ _ _ Hl).
  rewrite (down_loop (project ++ "_") service (hit project service)).
  - simpl. f_equal. f_equal. f_equal. f_equal. apply map_ext_in.
    intros c Hc. unfold stop_if.
    replace (str_in (cname c) (map cname (conts (engine w)))) with true.
    + now rewrite andb_true_r.
    + symmetry. apply str_in_In. now apply in_map.
  - apply hit_target.
  - intros n Hn. now apply has_container_In.
Qed.

Lemma rm_run project service w :
  reachable (engine w) = true ->
  List.NoDup (map cname (conts (engine w))) ->
  List.NoDup (volumes (engine w)) ->
  let e := engine w in
  let target := hit project service in
  rm true project service w =
    (Ok tt,
     World (heap w)
       (Docker (reachable e)
          (match service with
           | [] => List.filter (fun n => negb (n =? project)%string) (networks e)
           | _ => networks e
           end)
          (List.filter (fun n => negb (target n)) (volumes e))
          (images e)
          (List.filter (fun c => negb (target (cname c))) (conts e))),
     Ping :: ContainersList
       :: flat_map (fun n => [ContainerStop n; ContainerRemove n])
            (List.filter target (map cname (conts e)))
       ++ VolumesList
       :: map VolumeRemove (List.filter target (volumes e))
       ++ match service with
          | [] => NetworksGet project
                    :: (if str_in project (networks e)
                        then [NetworkRemove project] else [])
          | _ => []
          end).
Proof.
  intros Hr Hnc Hnv e target. unfold rm.
  assert (Hc : confirm true w = (Ok tt, w, [])) by reflexivity.
  rewrite (bind_ok _ _ _ _ _ _ Hc).
  rewrite (bind_ok _ _ _ _ _ _ (get_docker_client_ok w Hr)).
  assert (Hl : containers_list w
               = (Ok (map cname (conts (engine w))), w, [ContainersList]))
    by reflexivity.
  rewrite (bind_ok _ _ _ _ _ _ Hl).
  rewrite (bind_ok _ _ _ _ _ _
             (rm_container_loop (project ++ "_") service target
                (map cname (conts (engine w)))
                (hit_target project service) w Hnc
                (fun n Hn => proj2 (has_container_In n (engine w)) Hn))).
  match goal with
  | |- context [bind volumes_list _ ?w1] =>
      assert (Hv : volumes_list w1 = (Ok (volumes (engine w)), w1, [VolumesList]))
        by reflexivity;
      rewrite (bind_ok _ _ _ _ _ _ Hv)
  end.
  match goal with
  | |- context [bind (for_each _ (rm_volume _ _)) _ ?w1] =>
      rewrite (bind_ok _ _ _ _ _ _
                 (rm_volume_loop (project ++ "_") service target
                    (volumes (engine w))
                    (hit_target project service) w1 Hnv (fun n Hn => Hn)))
  end.
  assert (Hvs : List.filter (fun v => negb (target v && str_in v (volumes e))) (volumes e)
                = List.filter (fun n => negb (target n)) (volumes e)).
  { apply filter_ext_in. intros v Hv'.
    replace (str_in v (volumes e)) with true; [now rewrite andb_true_r|].
    symmetry. now apply str_in_In. }
  assert (Hcs : List.filter
                  (fun c => negb (target (cname c)
                                  && str_in (cname c) (map cname (conts e))))
                  (conts e)
                = List.filter (fun c => negb (target (cname c))) (conts e)).
  { apply filter_ext_in. intros c Hcin.
    replace (str_in (cname c) (map cname (conts e))) with true;
      [now rewrite andb_true_r|].
    symmetry. apply str_in_In. now apply in_map. }
  destruct service as [|s0 service].
  - rewrite network_part_ok. simpl. fold e.
    unfold with_networks, with_volumes, with_conts. simpl. fold e.
    now rewrite Hvs, Hcs.
  - simpl. fold e. unfold with_networks, with_volumes, with_conts. simpl. fold e.
    rewrite Hvs, Hcs, !app_nil_r. reflexivity.
Qed.

Lemma hit_all project n : hit project [] n = startswith n (project ++ "_").
Proof. unfold hit. apply andb_true_r. Qed.

(** C10, amended: [down] and [rm] for a project [P] never remove the network
    of a distinct project [Q]; they never stop or remove a container or a
    volume named [Q_s], for a project [Q] and a service [s], when that name
    does not start with [P_]; and when it does, [down] and a confirmed [rm]
    for [P] without service names, on a reachable engine, stop and remove the
    container and the volume of that name that the engine holds. *)
Theorem project_isolation (P Q s : string) (answer : bool)
    (service : list string) (w : world) :
  let name := (Q ++ "_" ++ s)%string in
  let after_down := down P service w in
  let after_rm := rm answer P service w in
  (P <> Q ->
   ~ In (NetworkRemove Q) (snd after_down)
   /\ ~ In (NetworkRemove Q) (snd after_rm))
  /\ (startswith name (P ++ "_") = false ->
      ~ In (ContainerStop name) (snd after_down)
      /\ ~ In (ContainerRemove name) (snd after_down)
      /\ ~ In (VolumeRemove name) (snd after_down)
      /\ ~ In (ContainerStop name) (snd after_rm)
      /\ ~ In (ContainerRemove name) (snd after_rm)
      /\ ~ In (VolumeRemove name) (snd after_rm))
  /\ (startswith name (P ++ "_") = true ->
      reachable (engine w) = true ->
      (has_container name (engine w) = true ->
       In (ContainerStop name) (snd (down P [] w)))
      /\ (List.NoDup (map cname (conts (engine w))) ->
          List.NoDup (volumes (engine w)) ->
          (has_container name (engine w) = true ->
           In (ContainerStop name) (snd (rm true P [] w))
           /\ In (ContainerRemove name) (snd (rm true P [] w)))
          /\ (str_in name (volumes (engine w)) = true ->
              In (VolumeRemove name) (snd (rm true P [] w))))).
Proof.
  intros name after_down after_rm.
  assert (Hd : Forall (within_project P) (snd after_down)).
  { unfold after_down. destruct (down P service w) as [[r w'] l] eqn:H.
    simpl. eapply down_calls; eauto. }
  assert (Hm : Forall (within_project P) (snd after_rm)).
  { unfold after_rm. destruct (rm answer P service w) as [[r w'] l] eqn:H.
    simpl. now destruct (rm_within_project answer P service w r w' l I H). }
  rewrite List.Forall_forall in Hd, Hm.
  split_and!.
  - intros HPQ. split; intros Hin;
      [apply Hd in Hin|apply Hm in Hin]; simpl in Hin; congruence.
  - intros Hpre.
    split_and!; intros Hin;
      first [apply Hd in Hin | apply Hm in Hin]; simpl in Hin;
      unfold name in *; congruence.
  - intros Hpre Hr. split.
    + intros Hhas. rewrite (down_run P [] w Hr). simpl.
      right. right. apply in_map. apply filter_In. split.
      * now apply has_container_In.
      * now rewrite hit_all.
    + intros Hnc Hnv.
      pose proof (rm_run P [] w Hr Hnc Hnv) as Hrun. simpl in Hrun.
      rewrite Hrun. simpl. split.
      * intros Hhas.
        assert (Hin : In name (List.filter (hit P [])
                                 (map cname (conts (engine w))))).
        { apply filter_In. split; [now apply has_container_In|].
          now rewrite hit_all. }
        split; right; right; apply in_or_app; left;
          apply in_flat_map; exists name; (split; [exact Hin|]); simpl; auto.
      * intros Hvol. right. right. apply in_or_app. right. right.
        apply in_or_app. left. apply in_map. apply filter_In. split.
        -- now apply str_in_In.
        -- now rewrite hit_all.
Qed.

Lemma filter_negb_filter {A} (f : A -> bool) (l : list A) :
  List.filter f (List.filter (fun x => negb (f x)) l) = [].
Proof.
  induction l as [|a l IH]; simpl; [reflexivity|].
  destruct (f a) eqn:Hf; simpl; [assumption|]. now rewrite Hf.
Qed.

Lemma filter_idem {A} (f : A -> bool) (l : list A) :
  List.filter f (List.filter f l) = List.filter f l.
Proof.
  induction l as [|a l IH]; simpl; [reflexivity|].
  destruct (f a) eqn:Hf; simpl; [|assumption]. now rewrite Hf, IH.
Qed.

Lemma map_filter_comm {A B} (g : A -> B) (f : B -> bool) (l : list A) :
  map g (List.filter (fun x => f (g x)) l) = List.filter f (map g l).
Proof.
  induction l as [|a l IH]; simpl; [reflexivity|].
  destruct (f (g a)); simpl; now rewrite IH.
Qed.

Lemma NoDup_filter_list {A} (f : A -> bool) (l : list A) :
  List.NoDup l -> List.NoDup (List.filter f l).
Proof.
  induction 1 as [|a l Hin _ IH]; simpl; [constructor|].
  destruct (f a); [|assumption]. constructor; [|assumption].
  intros Hf. apply filter_In in Hf. tauto.
Qed.

(** X12: with the engine reachable and its names unique, an accepted [rm]
    with service names stops and removes exactly the containers, and removes
    exactly the volumes, whose name starts with the project prefix and,
    without it, is one of the names given; networks, images and everything
    else are as they were. *)
Theorem rm_removes_exactly_the_selected (project : string)
    (service : list string) (w : world) :
  reachable (engine w) = true ->
  List.NoDup (map cname (conts (engine w))) ->
  List.NoDup (volumes (engine w)) ->
  service <> [] ->
  let prefix := (project ++ "_")%string in
  let chosen n :=
    startswith n prefix && str_in (str_drop (String.length prefix) n) service in
  let e := engine w in
  rm true project service w =
    (Ok tt,
     World (heap w)
       (Docker (reachable e) (networks e)
          (List.filter (fun n => negb (chosen n)) (volumes e))
          (images e)
          (List.filter (fun c => negb (chosen (cname c))) (conts e))),
     Ping :: ContainersList
       :: flat_map (fun n => [ContainerStop n; ContainerRemove n])
            (List.filter chosen (map cname (conts e)))
       ++ VolumesList :: map VolumeRemove (List.filter chosen (volumes e))).
Proof.
  intros Hr Hnc Hnv Hs prefix chosen e.
  rewrite (rm_run project service w Hr Hnc Hnv).
  destruct service as [|s0 service]; [contradiction|].
  rewrite app_nil_r. reflexivity.
Qed.

(** X13: [down] run again changes nothing: after a [down] on a reachable
    engine no container it selects is running, and a second [down] with the
    same arguments issues the same calls and leaves the world as the first
    left it. *)
Theorem down_again_changes_nothing (project : string) (service : list string)
    (w w1 : world) (r : result unit) (l : list call) :
  reachable (engine w) = true ->
  down project service w = (r, w1, l) ->
  (forall c, In c (conts (engine w1)) ->
     hit project service (cname c) = true -> crunning c = false)
  /\ down project service w1 = (Ok tt, w1, l).
Proof.
  intros Hr H. rewrite (down_run project service w Hr) in H.
  injection H as <- <- <-. split.
  - simpl. intros c Hc Hhit. apply in_map_iff in Hc as (c0 & <- & _).
    unfold stop_if in *. destruct (hit project service (cname c0)) eqn:Hh.
    + reflexivity.
    + rewrite Hh in Hhit. discriminate.
  - rewrite down_run by assumption. simpl.
    assert (Hmap : map (stop_if (hit project service))
                     (map (stop_if (hit project service)) (conts (engine w)))
                   = map (stop_if (hit project service)) (conts (engine w))).
    { rewrite map_map. apply map_ext. intros c. unfold stop_if.
      destruct (hit project service (cname c)) eqn:Hh; simpl; now rewrite Hh. }
    assert (Hnames : map cname (map (stop_if (hit project service)) (conts (engine w)))
                     = map cname (conts (engine w))).
    { rewrite map_map. apply map_ext. intros c. unfold stop_if.
      now destruct (hit project service (cname c)). }
    unfold with_conts. simpl. now rewrite Hmap, Hnames.
Qed.

(** X14: an accepted [rm] leaves nothing for a second [rm] or for a [down]
    with the same arguments: on the world it leaves, [rm] lists the
    containers and the volumes, looks the network up when no service name was
    given, removes nothing and changes nothing, and [down] stops nothing. *)
Theorem rm_again_removes_nothing (project : string) (service : list string)
    (w w1 : world) (r : result unit) (l : list call) :
  reachable (engine w) = true ->
  List.NoDup (map cname (conts (engine w))) ->
  List.NoDup (volumes (engine w)) ->
  rm true project service w = (r, w1, l) ->
  rm true project service w1
  = (Ok tt, w1,
     Ping :: ContainersList :: VolumesList
       :: match service with [] => [NetworksGet project] | _ => [] end)
  /\ down project service w1 = (Ok tt, w1, [Ping; ContainersList]).
Proof.
  intros Hr Hnc Hnv H. rewrite (rm_run project service w Hr Hnc Hnv) in H.
  injection H as <- <- <-.
  set (e := engine w). set (target := hit project service).
  set (cs1 := List.filter (fun c => negb (target (cname c))) (conts e)).
  set (vs1 := List.filter (fun n => negb (target n)) (volumes e)).
  assert (Hnames : map cname cs1
                   = List.filter (fun n => negb (target n)) (map cname (conts e))).
  { apply (map_filter_comm cname (fun n => negb (target n))). }
  assert (Hsel : List.filter target (map cname cs1) = []).
  { rewrite Hnames. apply filter_negb_filter. }
  split.
  - rewrite rm_run; simpl; fold e target cs1 vs1.
    + rewrite Hsel. unfold vs1 at 2. rewrite filter_negb_filter. simpl.
      unfold vs1. rewrite (filter_idem (fun n => negb (target n))).
      unfold cs1. rewrite (filter_idem (fun c => negb (target (cname c)))).
      destruct service as [|s0 service]; [|reflexivity].
      rewrite (filter_idem (fun n => negb (n =? project)%string)).
      replace (str_in project
                 (List.filter (fun n => negb (n =? project)%string) (networks e)))
        with false; [reflexivity|].
      symmetry. apply str_in_false. intros Hin. apply filter_In in Hin as [_ Hne].
      now rewrite String.eqb_refl in Hne.
    + assumption.
    + rewrite Hnames. now apply NoDup_filter_list.
    + now apply NoDup_filter_list.
  - rewrite down_run by assumption. simpl. fold e target cs1.
    rewrite Hsel. simpl. f_equal. f_equal. f_equal. unfold with_conts. simpl.
    f_equal. rewrite <- (map_id cs1) at 2. apply map_ext_in.
    intros c Hc. unfold stop_if. apply filter_In in Hc as [_ Hc].
    fold target. now destruct (target (cname c)).
Qed.


(** *** The exclusions of [up] *)

Lemma split_comma_go_app cur a b :
  split_comma_go cur (a ++ String ","%char b)
  = split_comma_go cur a ++ split_comma_go "" b.
Proof.
  revert cur. induction a as [|c a IH]; intros cur; simpl; [reflexivity|].
  destruct (Ascii.eqb c ","%char); simpl; now rewrite IH.
Qed.

Lemma for_each_ext {A} (f g : A -> M unit) (xs : list A) w :
  (forall x w, f x w = g x w) -> for_each xs f w = for_each xs g w.
Proof.
  intros Hfg. revert w. induction xs as [|x xs IH]; intros w; simpl; [reflexivity|].
  unfold bind. rewrite Hfg. destruct (g x w) as [[[[]|e] w1] l1]; [|reflexivity].
  now rewrite IH.
Qed.

Lemma up_same_exclusions project e1 e2 fast w :
  (forall x, In x (flat_map split_comma e1) <-> In x (flat_map split_comma e2)) ->
  up project e1 fast w = up project e2 fast w.
Proof.
  intros Hsame. unfold up, bind.
  destruct (get_docker_client w) as [[[[]|e] w1] l1]; [|reflexivity].
  destruct (get_or_create Network project w1) as [[[n|e] w2] l2]; [|reflexivity].
  destruct (_prepare_containers project false w2) as [[[cs|e] w3] l3]; [|reflexivity].
  destruct (items (SENTRY_DEVSERVICES settings) w3) as [[[its|e] w4] l4];
    [|reflexivity].
  rewrite (for_each_ext
             (up_one project (flat_map split_comma e1) fast cs)
             (up_one project (flat_map split_comma e2) fast cs)); [reflexivity|].
  intros [name options] w5. unfold up_one.
  replace (key_in name (flat_map split_comma e1))
    with (key_in name (flat_map split_comma e2)); [reflexivity|].
  destruct name as [s|z]; simpl; [|reflexivity].
  destruct (str_in s (flat_map split_comma e2)) eqn:H2; symmetry.
  - apply str_in_In. apply Hsame. now apply str_in_In.
  - apply str_in_false. intros H1. apply Hsame in H1.
    apply str_in_In in H1. congruence.
Qed.

(** X15: [up] takes its exclusions as a set of names separated by commas:
    one argument "a,b" stands for the two arguments "a" and "b", wherever it
    is in the list, and two lists of exclusions that hold the same names,
    in any order and any number of times, give the same run. *)
Theorem up_exclusions_are_a_set_of_names (project : string)
    (e1 e2 xs ys : list string) (a b : string) (fast : bool) (w : world) :
  (forall x, In x (flat_map split_comma e1) <-> In x (flat_map split_comma e2)) ->
  up project e1 fast w = up project e2 fast w
  /\ up project (xs ++ (a ++ "," ++ b)%string :: ys) fast w
     = up project (xs ++ a :: b :: ys) fast w.
Proof.
  intros Hsame. split; [now apply up_same_exclusions|].
  apply up_same_exclusions. intros x.
  rewrite !flat_map_app. simpl. unfold split_comma at 2.
  change ("," ++ b)%string with (String ","%char b).
  rewrite split_comma_go_app. fold (split_comma a) (split_comma b).
  now rewrite <- app_assoc.
Qed.

(** *** A container that does not exist yet *)

(** X16: for a resolved service whose container does not exist, a run of
    [_start_service] that returns has looked the container up, created it
    and, unless the service is left to the devserver, started it; it has
    stopped and removed nothing, and the container exists afterwards. *)
Theorem absent_container_created_and_started
    (name : pykey) (containers o : ref) (O : pydict) (cn project : string)
    (bw fast always_start : bool) (w w' : world) (c : string) (l : list call) :
  resolved w containers name o O cn ->
  flag_of O "with_devserver" = Some bw ->
  has_container cn (engine w) = false ->
  _start_service name (VRef containers) project fast always_start w = (Ok c, w', l) ->
  c = cn
  /\ List.filter (fun x => match container_of x with Some _ => true | None => false end) l
     = ContainersGet cn :: ContainersCreate cn
         :: (if bw && negb always_start then [] else [ContainerStart cn])
  /\ has_container cn (engine w') = true
  /\ is_running cn (engine w') = negb (bw && negb always_start).
Proof.
  intros [[CS [Hcs Hn]] Ho Hself Hcn] Hbw Hhas H.
  destruct (start_service_inv _ _ _ _ _ _ _ _ _ _ _ _ _ Hcs Hn Ho Hself Hcn H)
    as (w1 & l1 & l2 & -> & Hp1 & [[e [? _]]|(O1 & Ho1 & Hcn1 & Hrec & _)]);
    [discriminate|].
  assert (Hl1 : List.filter
                  (fun x => match container_of x with Some _ => true | None => false end)
                  l1 = []).
  { destruct Hp1 as (_ & _ & HL & _). clear -HL.
    induction HL as [|x l Hx _ IH]; simpl; [reflexivity|].
    destruct x; simpl in *; auto; tauto. }
  pose proof (phase1_has_container _ _ _ _ _ _ cn Hp1) as Hsame.
  unfold reconcile in Hrec.
  rewrite (bind_ok _ _ _ _ _ _ (lookup_container_ok _ _ _ _ Ho1 Hcn1)) in Hrec.
  rewrite Hsame, Hhas in Hrec.
  assert (Hret : @ret (option string) None w1 = (Ok None, w1, [])) by reflexivity.
  rewrite (bind_ok _ _ _ _ _ _ Hret) in Hrec.
  destruct (create_and_start (VRef o) (popped O "with_devserver") always_start w1)
    as [[r2 w2] l3] eqn:Hcreate.
  simpl in Hrec. injection Hrec as -> -> <-.
  assert (Hhas1 : has_container cn (engine w1) = false) by congruence.
  destruct (create_and_start_inv _ _ _ _ _ _ _ _ _ Ho1 Hcn1 Hhas1 Hcreate)
    as [(Hr & -> & Honly & Hh & Hrun)|[e [? _]]]; [|discriminate].
  injection Hr as ->. simpl in Hrun. rewrite (flag_truthy _ _ _ _ Hbw) in *.
  split_and!; auto.
  - rewrite List.filter_app, Hl1. simpl. f_equal. f_equal.
    unfold start_calls. now destruct (bw && negb always_start).
  - destruct (bw && negb always_start) eqn:Hd; simpl; [|now apply Hrun].
    revert Hcreate. unfold create_and_start.
    intros Hcreate.
    apply bind_inv_ok in Hcreate as (x0 & wa & la & lb & Hg & Hcreate & _).
    apply getitem_inv in Hg as (-> & _ & _).
    apply bind_inv_ok in Hcreate as (x1 & wb & lc & ld & Hc & Hcreate & _).
    destruct (containers_create_inv _ _ _ _ _ _ _ Ho1 Hcn1 Hhas1 Hc)
      as [[e [? _]]|(i & ports & _ & _ & ->)]; [discriminate|].
    apply bind_inv_ok in Hcreate as (x2 & wc & le & lf & Ht & Hcreate & _).
    apply truth_inv in Ht as ([= ->] & -> & _).
    simpl in Hcreate. rewrite (flag_truthy _ _ _ _ Hbw), Hd in Hcreate.
    injection Hcreate as _ <- _. unfold is_running, find_container. simpl.
    now rewrite String.eqb_refl.
Qed.


Lemma is_running_stopped n e :
  is_running n (with_conts e (map (set_running n false) (conts e))) = false.
Proof.
  unfold is_running, find_container. simpl.
  induction (conts e) as [|c cs IH]; simpl; [reflexivity|].
  rewrite cname_set_running. destruct (cname c =? n)%string eqn:Hc; [|exact IH].
  unfold set_running. now rewrite Hc.
Qed.

(** X17: the container [attach] returns is the one its exit handler stops:
    run on the world [attach] leaves, the handler issues one stop call for
    the container of the service and returns; the container then still
    exists and is not running, and nothing else has changed. *)
Theorem attach_exit_handler_stops_the_container (project s : string)
    (fast : bool) (R : ref) (reg : pydict) (w w1 : world) (c : string)
    (l : list call) :
  closed (heap w) -> SENTRY_DEVSERVICES settings = VRef R ->
  heap w !! R = Some reg -> List.NoDup (dict_keys reg) ->
  attach project fast s w = (Ok c, w1, l) ->
  let cn := (project ++ "_" ++ s)%string in
  exists w2,
    exit_handler c w1 = (Ok tt, w2, [ContainerStop cn])
    /\ is_running cn (engine w1) = true
    /\ is_running cn (engine w2) = false
    /\ has_container cn (engine w2) = true
    /\ only_container cn w1 w2.
Proof.
  intros Hclosed HS HR Hnd H cn.
  destruct (attach_inv _ _ _ _ _ _ _ _ _ Hclosed HS HR Hnd H)
    as [(e & ? & _)|
        (wp & o & O & o0 & O0 & lb & -> & Hep & Hres & _ & _ & _ & _ & Hrun)];
    [discriminate|].
  destruct (start_service_effects _ _ _ _ _ _ _ _ _ _ _ _ Hres Hrun)
    as (_ & _ & _ & Hok).
  destruct (Hok c eq_refl) as (-> & Hhas & Hr).
  destruct (Hr eq_refl) as [Hrunning _].
  eexists. unfold exit_handler, try_except.
  rewrite (container_stop_ok _ _ Hhas).
  split_and!; auto.
  - apply is_running_stopped.
  - simpl. now rewrite has_container_set_running.
  - apply only_container_set_running.
Qed.


(** *** The names [up] and [attach] use *)

(** Every call of [m], from any world and whatever the outcome, is in [L]. *)
Definition issues {A} (L : call -> Prop) (m : M A) : Prop :=
  forall w r w' l, m w = (r, w', l) -> Forall L l.

Lemma issues_ret {A} L (a : A) : issues L (ret a).
Proof. intros w r w' l [= <- <- <-]. constructor. Qed.

Lemma issues_raise {A} L e : issues L (@raise A e).
Proof. intros w r w' l [= <- <- <-]. constructor. Qed.

Lemma issues_bind {A B} L (m : M A) (f : A -> M B) :
  issues L m -> (forall a, issues L (f a)) -> issues L (bind m f).
Proof.
  intros Hm Hf w r w' l H.
  apply bind_inv in H as [[e [H _]]|(a & w1 & l1 & l2 & H1 & H2 & ->)].
  - exact (Hm _ _ _ _ H).
  - apply Forall_app. split; [exact (Hm _ _ _ _ H1)|exact (Hf _ _ _ _ _ H2)].
Qed.

Lemma issues_for_each {A} L (body : A -> M unit) (xs : list A) :
  (forall x, issues L (body x)) -> issues L (for_each xs body).
Proof.
  intros Hb. induction xs as [|x xs IH]; simpl.
  - apply issues_ret.
  - apply issues_bind; [apply Hb|intros _; exact IH].
Qed.

Lemma issues_try_except {A} L (m h : M A) catches :
  issues L m -> issues L h -> issues L (try_except m catches h).
Proof.
  intros Hm Hh w r w' l H.
  apply try_except_inv in H as [[H _]|(e & w1 & l1 & l2 & H1 & _ & H2 & ->)].
  - exact (Hm _ _ _ _ H).
  - apply Forall_app. split; [exact (Hm _ _ _ _ H1)|exact (Hh _ _ _ _ H2)].
Qed.

Lemma issues_silent {A} L (m : M A) :
  (forall w r w' l, m w = (r, w', l) -> l = []) -> issues L m.
Proof. intros Hm w r w' l H. rewrite (Hm _ _ _ _ H). constructor. Qed.

Lemma issues_heap_only {A} L (m : M A) : heap_only m -> issues L m.
Proof.
  intros Hm. apply issues_silent. intros w r w' l H.
  now destruct (heap_only_inv _ _ _ _ _ Hm H).
Qed.

Lemma issues_one {A} L (m : M A) c :
  (forall w r w' l, m w = (r, w', l) -> l = [c]) -> L c -> issues L m.
Proof. intros Hm Hc w r w' l H. rewrite (Hm _ _ _ _ H). now repeat constructor. Qed.

Lemma issues_pop L v k : issues L (pop v k).
Proof. apply issues_silent. intros w r w' l H. now apply pop_inv in H. Qed.

Lemma issues_as_str L v : issues L (as_str v).
Proof. apply issues_silent. intros w r w' l H. now apply as_str_inv in H. Qed.

Lemma issues_key_str L k : issues L (key_str k).
Proof. apply issues_silent. intros w r w' l H. now apply key_str_inv in H. Qed.

Lemma issues_format_value L v cs : issues L (format_value v cs).
Proof. apply issues_silent. intros w r w' l H. now apply format_value_inv in H. Qed.

Lemma issues_volume_keys L options : issues L (volume_keys options).
Proof. apply issues_silent. intros w r w' l H. now apply volume_keys_inv in H. Qed.

Lemma issues_listening L options : issues L (listening options).
Proof. apply issues_silent. intros w r w' l H. now apply listening_inv in H. Qed.

Lemma issues_image_of L options : issues L (image_of options).
Proof. apply issues_silent. intros w r w' l H. now apply image_of_inv in H. Qed.

Lemma issues_thing_get L t n : L (get_call t n) -> issues L (thing_get t n).
Proof.
  apply issues_one. intros w r w' l H.
  apply thing_get_inv in H as (_ & -> & _). now destruct t.
Qed.

Lemma issues_thing_create L t n : L (create_call t n) -> issues L (thing_create t n).
Proof.
  apply issues_one. intros w r w' l H. destruct t; now prim_inv H.
Qed.

Lemma issues_images_get L i : L (ImagesGet i) -> issues L (images_get i).
Proof. apply issues_one. intros w r w' l H. now apply images_get_inv in H. Qed.

Lemma issues_images_pull L i : L (ImagesPull i) -> issues L (images_pull i).
Proof. apply issues_one. intros w r w' l H. now apply images_pull_inv in H. Qed.

Lemma issues_containers_get L n : L (ContainersGet n) -> issues L (containers_get n).
Proof. apply issues_one. intros w r w' l H. now prim_inv H. Qed.

Lemma issues_container_start L n : L (ContainerStart n) -> issues L (container_start n).
Proof. apply issues_one. intros w r w' l H. now prim_inv H. Qed.

Lemma issues_container_stop L n : L (ContainerStop n) -> issues L (container_stop n).
Proof. apply issues_one. intros w r w' l H. now apply container_stop_inv in H. Qed.

Lemma issues_container_remove L n :
  L (ContainerRemove n) -> issues L (container_remove n).
Proof. apply issues_one. intros w r w' l H. now apply container_remove_inv in H. Qed.

Lemma issues_get_docker_client L : L Ping -> issues L get_docker_client.
Proof.
  apply issues_one. intros w r w' l H. now apply get_docker_client_inv in H.
Qed.

Lemma issues_get_or_create L t n :
  L (get_call t n) -> L (create_call t n) -> issues L (get_or_create t n).
Proof.
  intros Hg Hc. apply issues_try_except;
    [now apply issues_thing_get|now apply issues_thing_create].
Qed.

Lemma issues_log L c : L c -> issues L (log c).
Proof. intros Hc w r w' l [= <- <- <-]. now repeat constructor. Qed.

Lemma issues_get_engine L : issues L get_engine.
Proof. intros w r w' l [= <- <- <-]. constructor. Qed.

Lemma issues_put_engine L e : issues L (put_engine e).
Proof. intros w r w' l [= <- <- <-]. constructor. Qed.

Lemma issues_store L v d : issues L (store v d).
Proof. apply issues_heap_only, heap_only_store. Qed.

(** The structure of a command, taken apart down to its primitives. *)
Ltac issues_structure :=
  repeat first
    [ apply issues_ret
    | apply issues_raise
    | apply issues_bind; [|intros ?]
    | apply issues_for_each; intros ?
    | apply issues_try_except
    | match goal with
      | |- issues _ (if ?b then _ else _) => destruct b
      | |- issues _ (match ?x with _ => _ end) => destruct x
      | |- issues _ (let '(_, _) := ?x in _) => destruct x
      end ].

Ltac issues_prim :=
  first
    [ apply issues_heap_only;
      first [ apply heap_only_load | apply heap_only_getitem
            | apply heap_only_setitem | apply heap_only_pop_default
            | apply heap_only_truth | apply heap_only_contains
            | apply heap_only_prepare_containers | apply heap_only_alloc ]
    | apply issues_pop | apply issues_as_str | apply issues_key_str
    | apply issues_format_value | apply issues_volume_keys
    | apply issues_listening | apply issues_image_of
    | apply issues_images_get | apply issues_images_pull
    | apply issues_containers_get | apply issues_container_start
    | apply issues_container_stop | apply issues_container_remove
    | apply issues_get_docker_client | apply issues_get_or_create
    | apply issues_get_engine | apply issues_put_engine | apply issues_store
    | apply issues_log ].

(** The calls of [up] and [attach], as far as their names are fixed by the
    project alone: the network is the project's, a volume is named with the
    project prefix, nothing is listed and no network or volume is removed. *)
Definition in_namespace (project : string) (c : call) : Prop :=
  match c with
  | NetworksGet n | NetworksCreate n => n = project
  | VolumesGet n | VolumesCreate n => startswith n (project ++ "_") = true
  | NetworkRemove _ | VolumeRemove _ | VolumesList | ContainersList => False
  | _ => True
  end.

Lemma volume_in_namespace project m :
  startswith (project ++ "_" ++ m) (project ++ "_") = true.
Proof. rewrite <- append_assoc. apply startswith_app. Qed.

Lemma issues_containers_create project options :
  issues (in_namespace project) (containers_create options).
Proof.
  unfold containers_create. apply issues_bind.
  { apply issues_heap_only, heap_only_load. }
  intros d. destruct (negb (all_str_keys d)); [apply issues_raise|].
  destruct (dict_get (KStr "image") d) as [[]|]; try apply issues_raise.
  destruct (dict_get (KStr "name") d) as [[]|]; try apply issues_raise.
  apply issues_bind.
  { destruct (dict_get (KStr "ports") d) as [[]|]; try apply issues_ret.
    apply issues_heap_only, heap_only_load. }
  intros ports. intros w r w' l H. prim_inv H; now repeat constructor.
Qed.

Lemma issues_start_service name containers project fast always_start :
  issues (in_namespace project)
    (_start_service name containers project fast always_start).
Proof.
  unfold _start_service, snuba_override, interpolate_environment,
    interpolate_one, refresh_image, materialize_volumes, materialize_one,
    reconcile, lookup_container, reuse_or_remove, create_and_start, items.
  issues_structure;
    try (issues_prim; simpl; auto);
    try apply issues_containers_create;
    apply (volume_in_namespace project).
Qed.

Lemma issues_up project exclude fast :
  issues (in_namespace project) (up project exclude fast).
Proof.
  unfold up.
  apply issues_bind; [apply issues_get_docker_client; exact I|intros _].
  apply issues_bind; [apply issues_get_or_create; reflexivity|intros _].
  apply issues_bind;
    [apply issues_heap_only, heap_only_prepare_containers|intros cs].
  apply issues_bind; [apply issues_heap_only, heap_only_load|intros its].
  apply issues_for_each. intros [name options]. unfold up_one.
  destruct (key_in name (flat_map split_comma exclude)); [apply issues_ret|].
  apply issues_bind; [apply issues_heap_only, heap_only_contains|intros known].
  destruct (negb known); [apply issues_ret|].
  apply issues_bind; [apply issues_start_service|intros _; apply issues_ret].
Qed.

Lemma issues_attach project fast s :
  issues (in_namespace project) (attach project fast s).
Proof.
  unfold attach.
  apply issues_bind; [apply issues_get_docker_client; exact I|intros _].
  apply issues_bind;
    [apply issues_heap_only, heap_only_prepare_containers|intros cs].
  apply issues_bind; [apply issues_heap_only, heap_only_contains|intros known].
  destruct (negb known); [apply issues_raise|apply issues_start_service].
Qed.

(** X18: whatever the heap and the engine hold, and whether they return or
    raise, [up] and [attach] for a project look up and create no network but
    the project's and no volume whose name does not start with the project
    prefix, list nothing, and remove no network and no volume. *)
Theorem up_and_attach_stay_in_the_namespace (project s : string)
    (exclude : list string) (fast : bool) (w : world) :
  Forall (in_namespace project) (snd (up project exclude fast w))
  /\ Forall (in_namespace project) (snd (attach project fast s w)).
Proof.
  split.
  - destruct (up project exclude fast w) as [[r w'] l] eqn:H.
    exact (issues_up _ _ _ _ _ _ _ H).
  - destruct (attach project fast s w) as [[r w'] l] eqn:H.
    exact (issues_attach _ _ _ _ _ _ _ H).
Qed.


(** *** What [up] may rewrite in the heap it was given *)

(** [x] is held as the value of an option of a service of the registry. *)
Definition held_by_options (reg : pydict) (h : list pydict) (x : ref) : Prop :=
  exists name o0 O0 k,
    In (name, VRef o0) reg /\ h !! o0 = Some O0 /\ dict_get k O0 = Some (VRef x).

Lemma up_one_frame project exclude fast w0 reg c wp CS name v rest w r w' l x :
  resolved_all project w0 reg c wp CS ->
  pending_ok wp w c CS (name :: rest) -> ~ In name rest ->
  up_one project exclude fast (VRef c) (name, v) w = (r, w', l) ->
  x < c -> ~ held_by_options reg (heap w0) x ->
  heap w' !! x = heap w !! x.
Proof.
  intros HI Hp Hnin H Hx Hfree.
  destruct (up_one_step _ _ _ _ _ _ _ _ _ _ _ _ _ _ _ HI Hp Hnin H)
    as [_ [( _ & -> & _ & _)|
           (nm & o & O & o1 & O1 & r' & _ & -> & Hget & Hres & _ & _ & _
            & Hrun & _)]]; [reflexivity|].
  destruct (start_service_effects _ _ _ _ _ _ _ _ _ _ _ _ Hres Hrun)
    as ([_ Ht] & _).
  apply Ht. intros Hfoot.
  destruct (ra_services _ _ _ _ _ _ HI _ _ Hget)
    as (nm' & o' & O' & o0 & O0 & _ & [= <-] & Hco & HO' & Hin & Ho0 & He & _).
  destruct Hp as [_ Hpend].
  assert (HO : heap w !! o = Some O) by apply (res_options _ _ _ _ _ _ Hres).
  rewrite (Hpend (KStr nm) o (or_introl eq_refl) Hget), HO' in HO.
  injection HO as ->.
  destruct Hfoot as [->|[k Hk]]; [lia|].
  destruct (eo_refs _ _ _ _ _ _ _ _ He k x Hk) as [[Hlt _]|Hreg]; [lia|].
  apply Hfree. exists (KStr nm), o0, O0, k. auto.
Qed.

Lemma up_loop_frame project exclude fast w0 reg c wp CS x :
  resolved_all project w0 reg c wp CS ->
  x < c -> ~ held_by_options reg (heap w0) x ->
  forall its w r w' l,
    List.NoDup (map fst its) ->
    pending_ok wp w c CS (map fst its) ->
    for_each its (up_one project exclude fast (VRef c)) w = (r, w', l) ->
    heap w' !! x = heap w !! x.
Proof.
  intros HI Hx Hfree.
  induction its as [|[name v] its IH]; intros w r w' l Hnd Hp H.
  - simpl in H. now injection H as _ <- _.
  - simpl in H, Hnd, Hp. inversion Hnd as [|? ? Hnin Hnd']; subst.
    apply bind_inv in H as [[e [H _]]|[[] [w1 [l1 [l2 [H1 [H _]]]]]]].
    + exact (up_one_frame project exclude fast w0 reg c wp CS name v
               (map fst its) w _ _ _ x HI Hp Hnin H Hx Hfree).
    + destruct (up_one_step _ _ _ _ _ _ _ _ name v (map fst its) _ _ _ _
                  HI Hp Hnin H1) as [Hp1 _].
      rewrite (IH _ _ _ _ Hnd' Hp1 H).
      exact (up_one_frame project exclude fast w0 reg c wp CS name v
               (map fst its) w _ _ _ x HI Hp Hnin H1 Hx Hfree).
Qed.

(** X19: when the registry resolves, [up] rewrites, of the objects the heap
    held before, at most those that are held as the value of an option of a
    service, such as the mappings of its environment and of its volumes:
    every other object, the registry and the options of each service among
    them when no option holds them, is as it was, whether [up] returns or
    raises. *)
Theorem up_rewrites_only_option_values (project : string)
    (exclude : list string) (fast : bool) (R : ref) (reg : pydict)
    (w w' wr : world) (r : result unit) (cs : pyval) (l lr : list call)
    (x : ref) :
  closed (heap w) -> SENTRY_DEVSERVICES settings = VRef R ->
  heap w !! R = Some reg -> List.NoDup (dict_keys reg) ->
  _prepare_containers project false w = (Ok cs, wr, lr) ->
  up project exclude fast w = (r, w', l) ->
  x < length (heap w) ->
  (forall name o0 O0 k,
     In (name, VRef o0) reg -> heap w !! o0 = Some O0 ->
     dict_get k O0 <> Some (VRef x)) ->
  heap w' !! x = heap w !! x.
Proof.
  intros Hclosed HS HR Hnd Hres H Hx Hfree.
  destruct (up_run _ _ _ _ _ _ _ _ _ Hclosed HS HR H)
    as (lnet & lb & -> & _ & Hcase).
  assert (Hfree' : forall wa, heap wa = heap w ->
                     ~ held_by_options reg (heap wa) x).
  { intros wa Hha (name & o0 & O0 & k & Hin & Ho0 & Hk). rewrite Hha in Ho0.
    exact (Hfree _ _ _ _ Hin Ho0 Hk). }
  destruct Hcase as [[e [-> _]]|
      (wa & wp & CS & Hha & _ & _ & _ & HI & _ & _ & Hloop)].
  - (* no round was run: the engine check or the resolver raised *)
    unfold up in H.
    apply bind_inv in H as [[e1 [H _]]|[[] [w1 [l1 [l1' [H1 [H _]]]]]]].
    { now apply get_docker_client_inv in H as [-> _]. }
    apply get_docker_client_inv in H1 as [-> _].
    destruct (get_or_create_network_ok project w) as (wa & Hnet & Hha & _).
    destruct (bind_ok_inv _ _ _ _ _ _ _ _ _ Hnet H) as [l2 [H' _]].
    clear H; rename H' into H.
    destruct (heap_only_inv _ _ _ _ _ (heap_only_prepare_containers project false) Hres)
      as (_ & _ & Hdet).
    specialize (Hdet (engine wa)). rewrite <- Hha, world_eta in Hdet.
    rewrite (bind_ok _ _ _ _ _ _ Hdet) in H. rewrite HS in H.
    destruct (prepare_containers_inv _ _ _ _ _ _ _ _ Hclosed HS HR Hres)
      as (-> & _ & CS & HI & _).
    assert (Hitems : items (VRef R) (World (heap wr) (engine wa))
                     = (Ok reg, World (heap wr) (engine wa), [])).
    { apply load_ok. simpl. rewrite (ra_old _ _ _ _ _ _ HI); [assumption|].
      eapply lookup_lt_Some; eauto. }
    rewrite (bind_ok _ _ _ _ _ _ Hitems) in H.
    destruct (for_each reg _ _) as [[r2 w2] l3] eqn:Hloop in H.
    injection H as _ <- _.
    assert (HIa : resolved_all project wa reg (length (heap w))
                    (World (heap wr) (engine wa)) CS).
    { destruct HI as [He Hold Hcs Hsv Hinj]. split; simpl; auto.
      - intros y Hy. rewrite Hha. now apply Hold.
      - intros name v Hget. destruct (Hsv name v Hget)
          as (nm & o & O & o0 & O0 & ? & ? & ? & ? & ? & ? & ? & ?).
        exists nm, o, O, o0, O0. rewrite Hha. split_and!; auto. }
    rewrite (up_loop_frame _ _ _ _ _ _ _ _ x HIa Hx (Hfree' wa Hha)
               reg _ _ _ _ Hnd
               (pending_ok_refl _ _ CS _ (ra_cs _ _ _ _ _ _ HIa)) Hloop).
    simpl. now apply (ra_old _ _ _ _ _ _ HI).
  - rewrite (up_loop_frame _ _ _ _ _ _ _ _ x HI Hx (Hfree' wa Hha)
               reg _ _ _ _ Hnd
               (pending_ok_refl _ _ CS _ (ra_cs _ _ _ _ _ _ HI)) Hloop).
    rewrite (ra_old _ _ _ _ _ _ HI) by assumption. now rewrite Hha.
Qed.


(** *** Named volumes *)

Lemma heap_only_pop v k : heap_only (pop v k).
Proof.
  unfold pop. apply heap_only_bind; [apply heap_only_load|].
  intros d. destruct (dict_get k d); [|apply heap_only_raise].
  apply heap_only_bind; [apply heap_only_store|]. intros. apply heap_only_ret.
Qed.

Lemma get_or_create_volume_ok n w :
  exists wa,
    get_or_create Volume n w
    = (Ok n, wa,
       VolumesGet n :: (if str_in n (volumes (engine w)) then []
                        else [VolumesCreate n]))
    /\ heap wa = heap w
    /\ volumes (engine wa)
       = (if str_in n (volumes (engine w)) then volumes (engine w)
          else volumes (engine w) ++ [n]).
Proof.
  unfold get_or_create, try_except, thing_get, thing_create, bind,
    get_engine, put_engine, log. simpl.
  destruct (str_in n (volumes (engine w))) eqn:H; simpl;
    eexists; split_and!; reflexivity.
Qed.

(** The volumes of [w] are volumes of [w']. *)
Definition volumes_kept (w w' : world) : Prop :=
  forall n, str_in n (volumes (engine w)) = true ->
            str_in n (volumes (engine w')) = true.

(** A call about the volume of the mount [mount] of the project. *)
Definition mount_call (project : string) (mount : pykey) (c : call) : Prop :=
  exists m,
    mount = KStr m /\ str_contains "/" m = false
    /\ (c = VolumesGet (project ++ "_" ++ m)
        \/ c = VolumesCreate (project ++ "_" ++ m)).

Lemma materialize_one_volume options project mount w r w' l :
  materialize_one options project mount w = (r, w', l) ->
  volumes_kept w w'
  /\ Forall (mount_call project mount) l
  /\ (forall m, r = Ok tt -> mount = KStr m -> str_contains "/" m = false ->
        str_in (project ++ "_" ++ m) (volumes (engine w')) = true).
Proof.
  intros H. unfold materialize_one in H.
  apply bind_inv in H as [[e [H ->]]|(m & wm & lm & lm' & Hm & H & ->)].
  { apply key_str_inv in H as [-> ->].
    split_and!; [now intros n|constructor|discriminate]. }
  destruct mount as [m0|z]; [|discriminate]. injection Hm as <- <- <-. simpl.
  destruct (str_contains "/" m0) eqn:Hslash; simpl in H.
  { injection H as <- <- <-.
    split_and!; [now intros n|constructor|]. intros m _ [= <-]. congruence. }
  destruct (get_or_create_volume_ok (project ++ "_" ++ m0) w)
    as (wa & Hgo & Hha & Hva).
  destruct (bind_ok_inv _ _ _ _ _ _ _ _ _ Hgo H) as [l2 [H' ->]].
  clear H; rename H' into H.
  assert (Hrest : l2 = [] /\ engine w' = engine wa).
  { refine ((fun P => conj (proj1 P) (proj1 (proj2 P)))
              (heap_only_inv _ _ _ _ _ _ H)).
    apply heap_only_bind; [apply heap_only_getitem|intros vols].
    apply heap_only_bind; [apply heap_only_pop|intros x].
    apply heap_only_bind; [apply heap_only_getitem|intros vols'].
    apply heap_only_setitem. }
  destruct Hrest as [-> He]. rewrite app_nil_r.
  assert (Hin : str_in (project ++ "_" ++ m0) (volumes (engine w')) = true).
  { rewrite He, Hva. destruct (str_in _ (volumes (engine w))) eqn:Hs; [exact Hs|].
    apply str_in_app_r. }
  split_and!.
  - intros n Hn. rewrite He, Hva.
    destruct (str_in (project ++ "_" ++ m0) (volumes (engine w))); [exact Hn|].
    unfold str_in in *. rewrite existsb_app, Hn. reflexivity.
  - assert (Hc : forall c, c = VolumesGet (project ++ "_" ++ m0)
                           \/ c = VolumesCreate (project ++ "_" ++ m0) ->
                           mount_call project (KStr m0) c).
    { intros c Hc. exists m0. auto. }
    destruct (str_in _ (volumes (engine w)));
      repeat (constructor; [apply Hc; auto|]); constructor.
  - intros m _ [= <-] _. exact Hin.
Qed.

Lemma materialize_loop_volume options project ks :
  forall w r w' l,
    for_each ks (materialize_one options project) w = (r, w', l) ->
    volumes_kept w w'
    /\ Forall (fun c => exists k, In k ks /\ mount_call project k c) l
    /\ (r = Ok tt -> forall m, In (KStr m) ks -> str_contains "/" m = false ->
          str_in (project ++ "_" ++ m) (volumes (engine w')) = true).
Proof.
  induction ks as [|k ks IH]; intros w r w' l H; simpl in H.
  { injection H as <- <- <-. split_and!; [now intros n|constructor|].
    intros _ m []. }
  apply bind_inv in H as [[e [H ->]]|([] & w1 & l1 & l2 & H1 & H & ->)].
  - destruct (materialize_one_volume _ _ _ _ _ _ _ H) as (Hk & HL & _).
    split_and!; [assumption| |discriminate].
    eapply List.Forall_impl; [|exact HL]. intros c Hc. exists k. split; [now left|auto].
  - destruct (materialize_one_volume _ _ _ _ _ _ _ H1) as (Hk1 & HL1 & Hin1).
    destruct (IH _ _ _ _ H) as (Hk2 & HL2 & Hin2).
    split_and!.
    + intros n Hn. apply Hk2, Hk1, Hn.
    + apply Forall_app. split.
      * eapply List.Forall_impl; [|exact HL1]. intros c Hc. exists k.
        split; [now left|auto].
      * eapply List.Forall_impl; [|exact HL2]. intros c (k' & Hk' & Hc).
        exists k'. split; [now right|auto].
    + intros -> m [->|Hm] Hs.
      * apply Hk2. now apply (Hin1 m).
      * now apply Hin2.
Qed.

(** X20: the volumes of a service, as [_start_service] prepares them: for
    every mount of the options that is a name, not a path with a slash, the
    volume named with the project prefix is looked up and created when it is
    missing, so that it exists when the block returns; the calls are about
    these volumes only, a mount that is a path causes no call, and no volume
    of the engine is lost. *)
Theorem named_volumes_exist_after_materialize (project : string) (o v : ref)
    (O V : pydict) (w w' : world) (l : list call) :
  heap w !! o = Some O ->
  dict_get (KStr "volumes") O = Some (VRef v) -> heap w !! v = Some V ->
  materialize_volumes (VRef o) project w = (Ok tt, w', l) ->
  (forall m, In (KStr m) (dict_keys V) -> str_contains "/" m = false ->
     str_in (project ++ "_" ++ m) (volumes (engine w')) = true)
  /\ (forall n, str_in n (volumes (engine w)) = true ->
        str_in n (volumes (engine w')) = true)
  /\ Forall (fun c => exists m,
               In (KStr m) (dict_keys V) /\ str_contains "/" m = false
               /\ (c = VolumesGet (project ++ "_" ++ m)
                   \/ c = VolumesCreate (project ++ "_" ++ m))) l.
Proof.
  intros Ho Hv HV H. unfold materialize_volumes in H.
  assert (Hkeys : volume_keys (VRef o) w = (Ok (dict_keys V), w, [])).
  { unfold volume_keys. rewrite (bind_ok _ _ _ _ _ _ (load_ok _ _ _ Ho)), Hv.
    unfold keys. now rewrite (bind_ok _ _ _ _ _ _ (load_ok _ _ _ HV)). }
  destruct (bind_ok_inv _ _ _ _ _ _ _ _ _ Hkeys H) as [l2 [H' ->]].
  destruct (materialize_loop_volume _ _ _ _ _ _ _ H') as (Hk & HL & Hin).
  split_and!; [exact (Hin eq_refl)|exact Hk|].
  simpl. eapply List.Forall_impl; [|exact HL].
  intros c (k & Hkin & m & -> & Hs & Hc). exists m. auto.
Qed.

(** *** A service without an image *)

(** X21: outside fast mode, [_start_service] on a resolved service whose
    options hold no image does not return: it raises before any call about a
    container, and the containers of the engine are as they were. *)
Theorem service_without_image_is_not_created
    (name : pykey) (containers o : ref) (O : pydict) (cn project : string)
    (bp always_start : bool) (w w' : world) (r : result string) (l : list call) :
  resolved w containers name o O cn ->
  flag_of O "pull" = Some bp ->
  dict_get (KStr "image") O = None ->
  _start_service name (VRef containers) project false always_start w = (r, w', l) ->
  (exists e, r = Raise e)
  /\ List.filter
       (fun x => match container_of x with Some _ => true | None => false end) l
     = []
  /\ conts (engine w') = conts (engine w).
Proof.
  intros [[CS [Hcs Hn]] Ho Hself Hcn] Hbp Himg H.
  destruct (start_service_inv _ _ _ _ _ _ _ _ _ _ _ _ _ Hcs Hn Ho Hself Hcn H)
    as (w1 & l1 & l2 & -> & Hp1 & Hcase).
  destruct Hcase as [(e & -> & -> & ->)|(O1 & _ & _ & _ & Hpull)].
  - split_and!; [eauto| |].
    + rewrite app_nil_r. destruct Hp1 as (_ & _ & HL & _). clear -HL.
      induction HL as [|x l Hx _ IH]; simpl; [reflexivity|].
      destruct x; simpl in *; auto; tauto.
    + now destruct Hp1 as (_ & [Hc _] & _).
  - destruct (Hpull eq_refl bp Hbp) as (i & Hi & _). congruence.
Qed.

(** *** [down] for one service *)

Lemma startswith_refl s : startswith s s = true.
Proof. induction s as [|a s IH]; simpl; [reflexivity|]. now rewrite Ascii.eqb_refl. Qed.

Lemma hit_one_service project s n :
  hit project [s] n = (n =? project ++ "_" ++ s)%string.
Proof.
  unfold hit, str_in. simpl. rewrite orb_false_r.
  destruct (startswith n (project ++ "_")) eqn:Hp; simpl.
  - apply startswith_split in Hp as [rest ->].
    rewrite str_drop_app.
    destruct (String.eqb_spec rest s) as [->|Hne].
    + symmetry. apply String.eqb_eq. apply append_assoc.
    + symmetry. apply String.eqb_neq. intros Heq. apply Hne.
      rewrite append_assoc in Heq. apply append_inj_r in Heq.
      simpl in Heq. now injection Heq.
  - symmetry. apply String.eqb_neq. intros ->.
    pose proof (volume_in_namespace project s) as Hq. simpl in Hq. congruence.
Qed.

(** X22: [down] with one service name stops the container whose name is the
    project, an underscore and that name, and no other: the prefix test and
    the comparison of the rest of the name amount to the equality of the
    whole name. *)
Theorem down_one_service_stops_its_container (project s : string) (w : world) :
  reachable (engine w) = true ->
  let cn := (project ++ "_" ++ s)%string in
  down project [s] w =
    (Ok tt,
     World (heap w)
       (with_conts (engine w)
          (map (fun c => if (cname c =? cn)%string then stopped c else c)
             (conts (engine w)))),
     Ping :: ContainersList
       :: map ContainerStop
            (List.filter (fun n => (n =? cn)%string)
               (map cname (conts (engine w))))).
Proof.
  intros Hr cn. rewrite (down_run project [s] w Hr).
  f_equal; [f_equal; f_equal; f_equal|f_equal; f_equal; f_equal].
  - apply map_ext. intros c. unfold stop_if. now rewrite hit_one_service.
  - apply filter_ext. intros n. apply hit_one_service.
Qed.

End Devservices.

(** ** The sample configuration, run *)

Lemma run_eta {A} (x : result A * world * list call) :
  x = (fst (fst x), snd (fst x), snd x).
Proof. now destruct x as [[? ?] ?]. Qed.

Lemma sample_heap_closed : closed sample_heap.
Proof.
  intros r d k x Hr Hin. apply lookup_lt_Some in Hr as Hlt. simpl in Hlt.
  assert (Hall : Forall (Forall (fun kv : pykey * pyval =>
                           match snd kv with VRef y => y < 8 | _ => True end))
                   sample_heap).
  { unfold sample_heap.
    repeat match goal with
           | |- Forall _ [] => constructor
           | |- Forall _ (_ :: _) => constructor; simpl
           | |- True => exact I
           | |- _ < _ => lia
           end. }
  rewrite List.Forall_forall in Hall.
  assert (Hd : In d sample_heap).
  { apply list_elem_of_In. eapply list_elem_of_lookup_2; eauto. }
  apply Hall in Hd. clear Hr; rename Hd into Hr.
  rewrite List.Forall_forall in Hr. exact (Hr _ Hin).
Qed.

Lemma shared_names_unique :
  List.NoDup (map cname (conts shared_engine))
  /\ List.NoDup (volumes shared_engine).
Proof.
  split; simpl;
    repeat (constructor; [simpl; intuition discriminate|]); constructor.
Qed.

(** [down] for "demo" with the service "db" on the shared host: one stop. *)
Lemma down_stops_exactly_the_selected_witness :
  reachable (engine shared_world) = true
  /\ down "demo" ["db"] shared_world =
       (Ok tt,
        World []
          (with_conts shared_engine
             [ Container "demo_db" "pg:1" [] false;
               Container "demo_web" "web:1" [] true;
               Container "demo_test_db" "pg:1" [] true;
               Container "other_db" "pg:1" [] true ]),
        [Ping; ContainersList; ContainerStop "demo_db"]).
Proof.
  split; [reflexivity|].
  exact (down_stops_exactly_the_selected "demo" ["db"] shared_world eq_refl).
Defined.

(** An accepted [rm] for "demo_test" on the shared host. *)
Lemma rm_removes_the_project_witness :
  reachable (engine shared_world) = true
  /\ rm true "demo_test" [] shared_world =
       (Ok tt,
        World []
          (Docker true ["demo"] ["demo_pg"; "pg"] []
             [ Container "demo_db" "pg:1" [] true;
               Container "demo_web" "web:1" [] true;
               Container "other_db" "pg:1" [] true ]),
        [Ping; ContainersList;
         ContainerStop "demo_test_db"; ContainerRemove "demo_test_db";
         VolumesList; VolumeRemove "demo_test_pg";
         NetworksGet "demo_test"; NetworkRemove "demo_test"]).
Proof.
  split; [reflexivity|].
  exact (proj1 (rm_removes_the_project "demo_test" shared_world eq_refl
                  (proj1 shared_names_unique) (proj2 shared_names_unique))).
Defined.

(** C10, as stated, fails on two projects where the name of one starts with
    the name of the other followed by an underscore: [down] and [rm] for
    "demo" stop and remove the container and the volume of the service "db"
    and "pg" of the project "demo_test". *)
Lemma prefix_project_not_isolated :
  "demo" <> "demo_test"
  /\ In (ContainerStop ("demo_test" ++ "_" ++ "db"))
        (snd (down "demo" [] shared_world))
  /\ In (ContainerRemove ("demo_test" ++ "_" ++ "db"))
        (snd (rm true "demo" [] shared_world))
  /\ In (VolumeRemove ("demo_test" ++ "_" ++ "pg"))
        (snd (rm true "demo" [] shared_world)).
Proof.
  split; [discriminate|].
  split_and!; vm_compute; tauto.
Qed.

(** On the engine that holds the projects "demo", "demo_test" and "other":
    the project "demo" leaves the network of "demo_test" and the container
    of "other" alone, and stops and removes what "demo_test" holds. *)
Lemma project_isolation_witness :
  (~ In (NetworkRemove "demo_test") (snd (down "demo" [] shared_world))
   /\ ~ In (NetworkRemove "demo_test") (snd (rm true "demo" [] shared_world)))
  /\ (startswith "other_db" "demo_" = false
      /\ ~ In (ContainerStop "other_db") (snd (down "demo" [] shared_world))
      /\ ~ In (ContainerRemove "other_db")
             (snd (rm true "demo" [] shared_world)))
  /\ (startswith "demo_test_db" "demo_" = true
      /\ In (ContainerStop "demo_test_db") (snd (down "demo" [] shared_world))
      /\ In (ContainerRemove "demo_test_db")
            (snd (rm true "demo" [] shared_world)))
  /\ In (VolumeRemove "demo_test_pg") (snd (rm true "demo" [] shared_world)).
Proof.
  pose proof (project_isolation "demo" "demo_test" "db" true [] shared_world)
    as (Hnet & _ & Hhit).
  pose proof (project_isolation "demo" "other" "db" true [] shared_world)
    as (_ & Hmiss & _).
  pose proof (project_isolation "demo" "demo_test" "pg" true [] shared_world)
    as (_ & _ & Hvol).
  destruct (Hmiss eq_refl) as (Hs & _ & _ & _ & Hr & _).
  destruct (Hhit eq_refl eq_refl) as (Hdown & Hrm).
  destruct (Hrm (proj1 shared_names_unique) (proj2 shared_names_unique))
    as (Hc & _).
  destruct (Hvol eq_refl eq_refl) as (_ & Hrm').
  destruct (Hrm' (proj1 shared_names_unique) (proj2 shared_names_unique))
    as (_ & Hv).
  split_and!.
  - apply Hnet. discriminate.
  - apply Hnet. discriminate.
  - reflexivity.
  - exact Hs.
  - exact Hr.
  - reflexivity.
  - exact (Hdown eq_refl).
  - exact (proj2 (Hc eq_refl)).
  - exact (Hv eq_refl).
Defined.

(** The resolver on the sample, whatever the engine holds. *)
Lemma sample_resolved (e : docker) :
  _prepare_containers sample_settings "demo" false (World sample_heap e)
  = (Ok (VRef 8), World sample_resolved_heap e, []).
Proof. reflexivity. Qed.

Lemma sample_service_resolved (e : docker) (s cn : string) (o : ref) (O : pydict) :
  dict_get (KStr s) (nth 8 sample_resolved_heap []) = Some (VRef o) ->
  sample_resolved_heap !! o = Some O ->
  forallb (fun kv => match snd kv with VRef x => negb (Nat.eqb x o) | _ => true end) O
  = true ->
  dict_get (KStr "name") O = Some (VStr cn) ->
  resolved (World sample_resolved_heap e) 8 (KStr s) o O cn.
Proof.
  intros Hs HO Hself Hn. split; auto.
  - eexists. split; [reflexivity|exact Hs].
  - intros [k Hk]. apply dict_get_In in Hk.
    rewrite forallb_forall in Hself. apply Hself in Hk. simpl in Hk.
    now rewrite Nat.eqb_refl in Hk.
Qed.



(** The ports of the database of the sample: the bare one on the loopback
    address, the other as it was. *)
Lemma bare_ports_bind_to_loopback_witness :
  sample_heap !! 2 =
    Some [(KInt 5432, VInt 5432); (KInt 5433, VTuple [VStr "0.0.0.0"; VInt 5433])]
  /\ exists p',
       dict_get (KStr "ports") (nth 9 sample_resolved_heap []) = Some (VRef p')
       /\ sample_resolved_heap !! p' =
            Some [(KInt 5432, VTuple [VStr "127.0.0.1"; VInt 5432]);
                  (KInt 5433, VTuple [VStr "0.0.0.0"; VInt 5433])].
Proof.
  split; [reflexivity|].
  assert (Hnd : List.NoDup (dict_keys (nth 0 sample_heap []))
                /\ List.NoDup (dict_keys (nth 2 sample_heap []))).
  { split; simpl;
      repeat (constructor; [simpl; intuition discriminate|]); constructor. }
  exact (bare_ports_bind_to_loopback sample_settings "demo" "db" false 0 1 2
           (nth 0 sample_heap []) (nth 1 sample_heap []) (nth 2 sample_heap [])
           sample_world (World sample_resolved_heap sample_engine) 8 9
           (nth 8 sample_resolved_heap []) (nth 9 sample_resolved_heap []) []
           sample_heap_closed eq_refl eq_refl (proj1 Hnd)
           (or_introl eq_refl) eq_refl eq_refl eq_refl (proj2 Hnd)
           (sample_resolved sample_engine) eq_refl eq_refl eq_refl).
Defined.

Lemma sample_registry_keys : List.NoDup (dict_keys (nth 0 sample_heap [])).
Proof.
  simpl. repeat (constructor; [simpl; intuition discriminate|]). constructor.
Qed.


(** C3, as stated, fails on a service whose image is pulled on every run:
    with the registry and the local images unchanged, the second [up] on the
    sample stops, removes and creates the container of the cache again. *)
Lemma second_up_recreates_pulled_service :
  let run1 := up format_fields sample_settings "demo" [] false sample_world in
  let w1 := snd (fst run1) in
  let run2 := up format_fields sample_settings "demo" [] false
                (World sample_heap (engine w1)) in
  fst (fst run1) = Ok tt
  /\ images (engine (snd (fst run2))) = images (engine w1)
  /\ run2 =
       (Ok tt, World (heap w1) (engine w1),
        [Ping; NetworksGet "demo";
         ImagesGet "pg:1"; VolumesGet "demo_pg"; ContainersGet "demo_db";
         ContainerStart "demo_db";
         ImagesGet "web:1"; ContainersGet "demo_web";
         ImagesPull "redis:5"; ContainersGet "demo_cache";
         ContainerStop "demo_cache"; ContainerRemove "demo_cache";
         ContainersCreate "demo_cache"; ContainerStart "demo_cache"]).
Proof. split_and!; vm_compute; reflexivity. Qed.

(** The database of the sample, without a forced pull, on the second [up]. *)
Lemma second_up_reuses_the_container_witness :
  let run1 := up format_fields sample_settings "demo" [] false sample_world in
  let run2 := up format_fields sample_settings "demo" [] false
                (World sample_heap (engine (snd (fst run1)))) in
  fst (fst run1) = Ok tt
  /\ ~ In (ContainersCreate "demo_db") (snd run2)
  /\ ~ In (ContainerStop "demo_db") (snd run2)
  /\ ~ In (ContainerRemove "demo_db") (snd run2).
Proof.
  intros run1 run2. split; [reflexivity|].
  exact (second_up_reuses_the_container format_fields sample_settings
           "demo" "db" [] false false false false 0 1 (nth 0 sample_heap [])
           (nth 1 sample_heap []) sample_world (snd (fst run1))
           (snd (fst run2)) (fst (fst run2)) (snd run1) (snd run2)
           sample_heap_closed eq_refl eq_refl sample_registry_keys
           (or_introl eq_refl) eq_refl eq_refl eq_refl eq_refl
           eq_refl eq_refl).
Defined.

(** C9: the registry is not left as it was. The resolver copies the options
    of a service, but not the mappings they hold: on the sample, the
    environment and the volumes of the database are the registry's own
    objects 3 and 4, and [up] leaves the template of the first interpolated
    and the key of the second renamed. *)
Theorem registry_rewritten_through_shared_mappings :
  let w' := snd (fst (up format_fields sample_settings "demo" [] false
                        sample_world)) in
  dict_get (KStr "environment") (nth 1 sample_heap []) = Some (VRef 3)
  /\ dict_get (KStr "volumes") (nth 1 sample_heap []) = Some (VRef 4)
  /\ heap sample_world !! 3 = Some [(KStr "URL", VStr "{containers[db][name]}:5432")]
  /\ heap w' !! 3 = Some [(KStr "URL", VStr "demo_db:5432")]
  /\ heap sample_world !! 4 = Some [(KStr "pg", VRef 7)]
  /\ heap w' !! 4 = Some [(KStr "demo_pg", VRef 7)].
Proof. split_and!; vm_compute; reflexivity. Qed.

(** ** The further properties, on the samples *)

Lemma closed_by_check (h : list pydict) :
  Forall (Forall (fun kv : pykey * pyval =>
                    match snd kv with VRef y => y < length h | _ => True end)) h ->
  closed h.
Proof.
  intros Hall r d k x Hr Hin.
  rewrite List.Forall_forall in Hall.
  assert (Hd : In d h).
  { apply list_elem_of_In. eapply list_elem_of_lookup_2; eauto. }
  apply Hall in Hd. rewrite List.Forall_forall in Hd. exact (Hd _ Hin).
Qed.

Lemma gated_heap_closed : closed gated_heap.
Proof.
  apply closed_by_check. unfold gated_heap.
  repeat match goal with
         | |- Forall _ [] => constructor
         | |- Forall _ (_ :: _) => constructor; simpl
         | |- True => exact I
         | |- _ < _ => lia
         end.
Qed.

Lemma gated_registry_keys : List.NoDup (dict_keys (nth 0 gated_heap [])).
Proof.
  simpl. repeat (constructor; [simpl; intuition discriminate|]). constructor.
Qed.

Lemma sample_ports_keys : List.NoDup (dict_keys (nth 2 sample_heap [])).
Proof.
  simpl. repeat (constructor; [simpl; intuition discriminate|]). constructor.
Qed.

Lemma commands_stop_without_engine_witness :
  reachable (engine silent_world) = false
  /\ up format_fields sample_settings "demo" [] false silent_world
     = (Raise (ClickException "Make sure Docker is running."), silent_world, [Ping])
  /\ rm true "demo" [] silent_world
     = (Raise (ClickException "Make sure Docker is running."), silent_world, [Ping]).
Proof.
  split; [reflexivity|].
  pose proof (commands_stop_without_engine format_fields sample_settings
                "demo" [] [] false "db" silent_world eq_refl) as H.
  split; [exact (proj1 H)|exact (proj2 (proj2 (proj2 H)))].
Defined.

Lemma ensure_interface_fresh_and_idempotent_witness :
  exists w1 d1,
    ensure_interface (VRef 2) sample_world = (Ok (VRef 8), w1, [])
    /\ heap w1 !! 8 = Some d1
    /\ heap w1 !! 2 = sample_heap !! 2
    /\ exists w2,
         ensure_interface (VRef 8) w1 = (Ok (VRef 9), w2, [])
         /\ heap w2 !! 9 = Some d1.
Proof.
  destruct (ensure_interface_fresh_and_idempotent 2 (nth 2 sample_heap [])
              sample_world eq_refl sample_ports_keys)
    as (w1 & d1 & H1 & H2 & H3 & _ & _ & _ & H7).
  exists w1, d1. split_and!; auto. apply H3. simpl. lia.
Defined.

Lemma resolver_leaves_heap_and_engine_witness :
  let run := _prepare_containers sample_settings "demo" false
               (World sample_heap sample_engine_up) in
  snd run = [] /\ engine (snd (fst run)) = sample_engine_up
  /\ heap (snd (fst run)) !! 3 = sample_heap !! 3.
Proof.
  intros run.
  destruct (resolver_leaves_heap_and_engine sample_settings "demo" false 0
              (nth 0 sample_heap []) (World sample_heap sample_engine_up)
              (snd (fst run)) (fst (fst run)) (snd run)
              sample_heap_closed eq_refl eq_refl (run_eta run)) as (Hl & He & Hok).
  destruct (Hok (VRef 8) eq_refl) as (_ & _ & Hold).
  split_and!; [exact Hl|exact He|apply Hold; simpl; lia].
Defined.

Lemma resolver_names_and_passes_options_witness :
  exists o O,
    dict_get (KStr "cache") (nth 8 sample_resolved_heap []) = Some (VRef o)
    /\ sample_resolved_heap !! o = Some O
    /\ dict_get (KStr "name") O = Some (VStr "demo_cache")
    /\ dict_get (KStr "pull") O = Some (VBool true).
Proof.
  assert (Hen : dict_get (KStr "only_if") (nth 6 sample_heap [])
                <> Some (VFun false)) by discriminate.
  destruct (resolver_names_and_passes_options sample_settings "demo" "cache"
              false 0 6 8 (nth 0 sample_heap []) (nth 6 sample_heap [])
              (nth 8 sample_resolved_heap []) sample_world
              (World sample_resolved_heap sample_engine) []
              sample_heap_closed eq_refl eq_refl sample_registry_keys
              (or_intror (or_intror (or_introl eq_refl))) eq_refl Hen
              (sample_resolved sample_engine) eq_refl)
    as (o & O & H1 & H2 & _ & H4 & H5).
  exists o, O. split_and!; auto.
  rewrite (H5 (KStr "pull")); [reflexivity|].
  unfold ordinary. split_and!; discriminate.
Defined.

Lemma up_serves_only_selected_services_witness :
  str_in "web" (flat_map split_comma ["web,cache"]) = true
  /\ ~ In (ContainersCreate "demo_web")
         (snd (up format_fields sample_settings "demo" ["web,cache"] false
                 sample_world)).
Proof.
  split; [reflexivity|]. intros Hin.
  set (run := up format_fields sample_settings "demo" ["web,cache"] false
                sample_world) in *.
  destruct (up_serves_only_selected_services format_fields sample_settings
              "demo" ["web,cache"] false 0 (nth 0 sample_heap []) sample_world
              (snd (fst run)) (fst (fst run)) (snd run)
              sample_heap_closed eq_refl eq_refl sample_registry_keys
              (run_eta run) _ Hin) as [_ Hn].
  destruct (Hn "demo_web" eq_refl) as (nm & o0 & O0 & Heq & _ & _ & _ & Hex).
  simpl in Heq. injection Heq as <-. discriminate Hex.
Defined.

Lemma fast_up_never_pulls_or_replaces_witness :
  flag_of (nth 6 sample_heap []) "pull" = Some true
  /\ has_container "demo_cache" sample_engine_up = true
  /\ List.filter refreshes_or_replaces
       (snd (up format_fields sample_settings "demo" [] true
               (World sample_heap sample_engine_up))) = [].
Proof.
  split; [reflexivity|]. split; [reflexivity|].
  set (run := up format_fields sample_settings "demo" [] true
                (World sample_heap sample_engine_up)).
  exact (fast_up_never_pulls_or_replaces format_fields sample_settings
           "demo" [] 0 (nth 0 sample_heap []) (World sample_heap sample_engine_up)
           (snd (fst run)) (fst (fst run)) (snd run)
           sample_heap_closed eq_refl eq_refl sample_registry_keys (run_eta run)).
Defined.

Lemma up_leaves_its_services_running_witness :
  let run := up format_fields sample_settings "demo" ["web"] false sample_world in
  fst (fst run) = Ok tt
  /\ has_container "demo_db" (engine (snd (fst run))) = true
  /\ is_running "demo_db" (engine (snd (fst run))) = true.
Proof.
  intros run.
  assert (Hok : fst (fst run) = Ok tt) by (vm_compute; reflexivity).
  split; [exact Hok|].
  assert (Hen : dict_get (KStr "only_if") (nth 1 sample_heap [])
                <> Some (VFun false)) by discriminate.
  assert (E : run = (Ok tt, snd (fst run), snd run)).
  { rewrite <- Hok. apply run_eta. }
  exact (up_leaves_its_services_running format_fields sample_settings
           "demo" "db" ["web"] false 0 1 (nth 0 sample_heap [])
           (nth 1 sample_heap []) sample_world (snd (fst run)) (snd run)
           sample_heap_closed eq_refl eq_refl sample_registry_keys
           (or_introl eq_refl) eq_refl Hen eq_refl eq_refl E).
Defined.

Lemma up_creates_the_network_when_absent_witness :
  let run := up format_fields sample_settings "demo" [] false sample_world in
  networks (engine sample_world) = []
  /\ networks (engine (snd (fst run))) = ["demo"]
  /\ List.filter (fun c => match c with NetworksCreate _ => true | _ => false end)
       (snd run) = [NetworksCreate "demo"].
Proof.
  intros run. split; [reflexivity|].
  assert (Hok : fst (fst run) = Ok tt) by (vm_compute; reflexivity).
  assert (E : run = (Ok tt, snd (fst run), snd run)).
  { rewrite <- Hok. apply run_eta. }
  exact (up_creates_the_network_when_absent format_fields sample_settings
           "demo" [] false 0 (nth 0 sample_heap []) sample_world
           (snd (fst run)) (snd run)
           sample_heap_closed eq_refl eq_refl sample_registry_keys E).
Defined.

Lemma attach_acts_on_one_service_witness :
  let run := attach format_fields sample_settings "demo" false "web"
               (World sample_heap sample_engine_up) in
  networks (engine (snd (fst run))) = ["demo"]
  /\ List.filter (fun c => negb (cname c =? "demo_web")%string)
       (conts (engine (snd (fst run))))
     = [ Container "demo_cache" "redis:5" [] true;
         Container "demo_db" "pg:1"
           [(KInt 5432, VTuple [VStr "127.0.0.1"; VInt 5432]);
            (KInt 5433, VTuple [VStr "0.0.0.0"; VInt 5433])] true ].
Proof.
  intros run.
  destruct (attach_acts_on_one_service format_fields sample_settings "demo"
              "web" false 0 (nth 0 sample_heap [])
              (World sample_heap sample_engine_up)
              (snd (fst run)) (fst (fst run)) (snd run)
              sample_heap_closed eq_refl eq_refl sample_registry_keys
              (run_eta run)) as (_ & Hn & Ho).
  split; [exact Hn|exact Ho].
Defined.

Lemma attach_refuses_unserved_service_witness :
  dict_get (KStr "only_if") (nth 2 gated_heap []) = Some (VFun false)
  /\ fst (fst (attach format_fields sample_settings "demo" false "relay"
                 gated_world))
     = Raise (ClickException "Service relay is not known or not enabled.")
  /\ snd (attach format_fields sample_settings "demo" false "relay" gated_world)
     = [Ping].
Proof.
  split; [reflexivity|].
  set (prep := _prepare_containers sample_settings "demo" true gated_world).
  assert (Hok : fst (fst prep) = Ok (VRef 3)) by (vm_compute; reflexivity).
  assert (E : prep = (Ok (VRef 3), snd (fst prep), snd prep)).
  { rewrite <- Hok. apply run_eta. }
  rewrite (attach_refuses_unserved_service format_fields sample_settings
             "demo" "relay" false 0 (nth 0 gated_heap []) gated_world
             (snd (fst prep)) (VRef 3) (snd prep)
             gated_heap_closed eq_refl eq_refl gated_registry_keys eq_refl E
             (or_intror (ex_intro _ 2 (ex_intro _ (nth 2 gated_heap [])
                           (conj eq_refl (conj eq_refl eq_refl)))))).
  split; reflexivity.
Defined.

Lemma rm_removes_exactly_the_selected_witness :
  ["db"; "pg"] <> []
  /\ rm true "demo" ["db"; "pg"] shared_world =
       (Ok tt,
        World []
          (Docker true ["demo"; "demo_test"] ["demo_test_pg"; "pg"] []
             [ Container "demo_web" "web:1" [] true;
               Container "demo_test_db" "pg:1" [] true;
               Container "other_db" "pg:1" [] true ]),
        [Ping; ContainersList;
         ContainerStop "demo_db"; ContainerRemove "demo_db";
         VolumesList; VolumeRemove "demo_pg"]).
Proof.
  assert (Hne : ["db"; "pg"] <> @nil string) by discriminate.
  split; [exact Hne|].
  exact (rm_removes_exactly_the_selected "demo" ["db"; "pg"] shared_world
           eq_refl (proj1 shared_names_unique) (proj2 shared_names_unique) Hne).
Defined.

Lemma down_again_changes_nothing_witness :
  let w1 := snd (fst (down "demo" ["db"] shared_world)) in
  is_running "demo_db" (engine shared_world) = true
  /\ is_running "demo_db" (engine w1) = false
  /\ down "demo" ["db"] w1 = (Ok tt, w1, [Ping; ContainersList; ContainerStop "demo_db"]).
Proof.
  intros w1. split; [reflexivity|]. split; [reflexivity|].
  set (run := down "demo" ["db"] shared_world).
  exact (proj2 (down_again_changes_nothing "demo" ["db"] shared_world
                  (snd (fst run)) (fst (fst run)) (snd run) eq_refl
                  (run_eta run))).
Defined.

Lemma rm_again_removes_nothing_witness :
  let w1 := snd (fst (rm true "demo" [] shared_world)) in
  rm true "demo" [] w1
  = (Ok tt, w1, [Ping; ContainersList; VolumesList; NetworksGet "demo"])
  /\ down "demo" [] w1 = (Ok tt, w1, [Ping; ContainersList]).
Proof.
  intros w1.
  set (run := rm true "demo" [] shared_world).
  exact (rm_again_removes_nothing "demo" [] shared_world
           (snd (fst run)) (fst (fst run)) (snd run) eq_refl
           (proj1 shared_names_unique) (proj2 shared_names_unique)
           (run_eta run)).
Defined.

Lemma same_names_excluded x :
  In x (flat_map split_comma ["web,cache"])
  <-> In x (flat_map split_comma ["cache"; "web"; "web"]).
Proof.
  change (flat_map split_comma ["web,cache"]) with ["web"; "cache"].
  change (flat_map split_comma ["cache"; "web"; "web"]) with ["cache"; "web"; "web"].
  simpl. tauto.
Qed.

Lemma up_exclusions_are_a_set_of_names_witness :
  up format_fields sample_settings "demo" ["web,cache"] false sample_world
  = up format_fields sample_settings "demo" ["cache"; "web"; "web"] false
      sample_world
  /\ up format_fields sample_settings "demo" ["db,web"] false sample_world
     = up format_fields sample_settings "demo" ["db"; "web"] false sample_world.
Proof.
  exact (up_exclusions_are_a_set_of_names format_fields sample_settings "demo"
           ["web,cache"] ["cache"; "web"; "web"] [] [] "db" "web" false
           sample_world same_names_excluded).
Defined.

Lemma absent_container_created_and_started_witness :
  let w := World sample_resolved_heap sample_engine in
  let run := _start_service format_fields sample_settings (KStr "db") (VRef 8)
               "demo" false false w in
  has_container "demo_db" (engine w) = false
  /\ List.filter
       (fun x => match container_of x with Some _ => true | None => false end)
       (snd run)
     = [ContainersGet "demo_db"; ContainersCreate "demo_db";
        ContainerStart "demo_db"]
  /\ is_running "demo_db" (engine (snd (fst run))) = true.
Proof.
  intros w run. split; [reflexivity|].
  assert (Hok : fst (fst run) = Ok "demo_db") by (vm_compute; reflexivity).
  assert (E : run = (Ok "demo_db", snd (fst run), snd run)).
  { rewrite <- Hok. apply run_eta. }
  destruct (absent_container_created_and_started format_fields sample_settings
              (KStr "db") 8 9 (nth 9 sample_resolved_heap []) "demo_db" "demo"
              false false false w (snd (fst run)) "demo_db" (snd run)
              (sample_service_resolved sample_engine "db" "demo_db" 9 _
                 eq_refl eq_refl eq_refl eq_refl)
              eq_refl eq_refl E) as (_ & Hl & _ & Hr).
  split; [exact Hl|exact Hr].
Defined.

Lemma attach_exit_handler_stops_the_container_witness :
  let run := attach format_fields sample_settings "demo" false "web"
               sample_world in
  exists w2,
    exit_handler "demo_web" (snd (fst run))
    = (Ok tt, w2, [ContainerStop "demo_web"])
    /\ is_running "demo_web" (engine (snd (fst run))) = true
    /\ is_running "demo_web" (engine w2) = false
    /\ has_container "demo_web" (engine w2) = true.
Proof.
  intros run.
  assert (Hok : fst (fst run) = Ok "demo_web") by (vm_compute; reflexivity).
  assert (E : run = (Ok "demo_web", snd (fst run), snd run)).
  { rewrite <- Hok. apply run_eta. }
  destruct (attach_exit_handler_stops_the_container format_fields
              sample_settings "demo" "web" false 0 (nth 0 sample_heap [])
              sample_world (snd (fst run)) "demo_web" (snd run)
              sample_heap_closed eq_refl eq_refl sample_registry_keys E)
    as (w2 & H1 & H2 & H3 & H4 & _).
  exists w2. split_and!; assumption.
Defined.

Lemma sample_options_not_held name o0 O0 k :
  In (name, VRef o0) (nth 0 sample_heap []) ->
  heap sample_world !! o0 = Some O0 ->
  dict_get k O0 <> Some (VRef 1) /\ dict_get k O0 <> Some (VRef 0).
Proof.
  intros Hin Ho0.
  assert (Hcases : o0 = 1 \/ o0 = 5 \/ o0 = 6).
  { simpl in Hin. destruct Hin as [[= _ <-]|[[= _ <-]|[[= _ <-]|[]]]]; auto. }
  destruct Hcases as [->|[->| ->]]; injection Ho0 as <-;
    split; intros Hk; apply dict_get_In in Hk; simpl in Hk;
    repeat (destruct Hk as [Hk|Hk]; [discriminate Hk|]); contradiction.
Qed.

Lemma up_rewrites_only_option_values_witness :
  let run := up format_fields sample_settings "demo" [] false sample_world in
  heap (snd (fst run)) !! 0 = sample_heap !! 0
  /\ heap (snd (fst run)) !! 1 = sample_heap !! 1.
Proof.
  intros run. split.
  - exact (up_rewrites_only_option_values format_fields sample_settings
             "demo" [] false 0 (nth 0 sample_heap []) sample_world
             (snd (fst run)) (World sample_resolved_heap sample_engine)
             (fst (fst run)) (VRef 8) (snd run) [] 0
             sample_heap_closed eq_refl eq_refl sample_registry_keys
             (sample_resolved sample_engine) (run_eta run)
             (Nat.lt_0_succ 7)
             (fun name o0 O0 k Hin Ho0 =>
                proj2 (sample_options_not_held name o0 O0 k Hin Ho0))).
  - exact (up_rewrites_only_option_values format_fields sample_settings
             "demo" [] false 0 (nth 0 sample_heap []) sample_world
             (snd (fst run)) (World sample_resolved_heap sample_engine)
             (fst (fst run)) (VRef 8) (snd run) [] 1
             sample_heap_closed eq_refl eq_refl sample_registry_keys
             (sample_resolved sample_engine) (run_eta run)
             (proj1 (Nat.succ_lt_mono 0 7) (Nat.lt_0_succ 6))
             (fun name o0 O0 k Hin Ho0 =>
                proj1 (sample_options_not_held name o0 O0 k Hin Ho0))).
Defined.

Lemma named_volumes_exist_after_materialize_witness :
  let w := World sample_resolved_heap sample_engine in
  let run := materialize_volumes (VRef 9) "demo" w in
  volumes (engine w) = []
  /\ str_in "demo_pg" (volumes (engine (snd (fst run)))) = true.
Proof.
  intros w run. split; [reflexivity|].
  assert (Hok : fst (fst run) = Ok tt) by (vm_compute; reflexivity).
  assert (E : run = (Ok tt, snd (fst run), snd run)).
  { rewrite <- Hok. apply run_eta. }
  destruct (named_volumes_exist_after_materialize "demo" 9 4
              (nth 9 sample_resolved_heap []) (nth 4 sample_resolved_heap [])
              w (snd (fst run)) (snd run) eq_refl eq_refl eq_refl E)
    as (Hin & _ & _).
  exact (Hin "pg" (or_introl eq_refl) eq_refl).
Defined.

Lemma resolved_by_check (h : list pydict) (e : docker) (c o : ref)
    (s cn : string) (CS O : pydict) :
  h !! c = Some CS -> dict_get (KStr s) CS = Some (VRef o) ->
  h !! o = Some O ->
  forallb (fun kv => match snd kv with VRef x => negb (Nat.eqb x o) | _ => true end) O
  = true ->
  dict_get (KStr "name") O = Some (VStr cn) ->
  resolved (World h e) c (KStr s) o O cn.
Proof.
  intros Hc Hs HO Hself Hn. split; auto.
  - exists CS. split; assumption.
  - intros [k Hk]. apply dict_get_In in Hk.
    rewrite forallb_forall in Hself. apply Hself in Hk. simpl in Hk.
    now rewrite Nat.eqb_refl in Hk.
Qed.

Lemma service_without_image_is_not_created_witness :
  let w := World imageless_heap sample_engine in
  let run := _start_service format_fields sample_settings (KStr "job") (VRef 0)
               "demo" false false w in
  dict_get (KStr "image") (nth 1 imageless_heap []) = None
  /\ (exists e, fst (fst run) = Raise e)
  /\ conts (engine (snd (fst run))) = [].
Proof.
  intros w run. split; [reflexivity|].
  destruct (service_without_image_is_not_created format_fields sample_settings
              (KStr "job") 0 1 (nth 1 imageless_heap []) "demo_job" "demo"
              false false w (snd (fst run)) (fst (fst run)) (snd run)
              (resolved_by_check imageless_heap sample_engine 0 1 "job"
                 "demo_job" _ _ eq_refl eq_refl eq_refl eq_refl eq_refl)
              eq_refl eq_refl (run_eta run)) as (He & _ & Hc).
  split; [exact He|exact Hc].
Defined.

Lemma down_one_service_stops_its_container_witness :
  reachable (engine shared_world) = true
  /\ down "demo" ["web"] shared_world =
       (Ok tt,
        World []
          (with_conts shared_engine
             [ Container "demo_db" "pg:1" [] true;
               Container "demo_web" "web:1" [] false;
               Container "demo_test_db" "pg:1" [] true;
               Container "other_db" "pg:1" [] true ]),
        [Ping; ContainersList; ContainerStop "demo_web"]).
Proof.
  split; [reflexivity|].
  exact (down_one_service_stops_its_container "demo" "web" shared_world eq_refl).
Defined.
